(** * GiftReservoir: wishlists, items and claims

    A shallow embedding of the server side of the application:
    - [shared/schema.ts]: the relational schema (tables, keys, cascades,
      zod validation schemas);
    - [server/storage.ts]: the [DatabaseStorage] class, one SQL statement
      per method;
    - [server/routes.ts]: the Express route handlers.

    Every awaited database statement is one atomic step of a handler, so
    that handlers of concurrent requests can be interleaved between two
    steps.  The store is PostgreSQL: the values of a statement are first
    converted to the types of their columns ([integer] is 32 bits, a
    string holds no U+0000, a [varchar(n)] holds [n] characters), then the
    statement runs; a statement that cannot take a value or that violates
    a declared constraint raises an error and leaves the tables as they
    were.

    A JavaScript number that is an integer is an integer of [Z] that a
    double can hold, strings are sequences of code units below 256.  A
    table is the list of its rows; the order of the list stands for the
    order in which a scan finds the rows, which no query of the
    application fixes (none has an [ORDER BY]). *)

From Stdlib Require Import ZArith String Ascii Lia.
From stdpp Require Import base option list gmap strings.

Local Open Scope string_scope.
Local Open Scope Z_scope.

(** ** JavaScript primitives used by the routes *)

(** Truthiness of a string: every string but the empty one. *)
Definition truthy (s : string) : bool := negb (bool_decide (s = "")).

(** [StrWhiteSpaceChar] among the code units below 256: TAB, LF, VT, FF,
    CR, SP and NBSP. *)
Definition isWhiteSpace (c : ascii) : bool :=
  let n := nat_of_ascii c in
  bool_decide (n = 9 ∨ n = 10 ∨ n = 11 ∨ n = 12 ∨ n = 13 ∨ n = 32 ∨ n = 160)%nat.

Fixpoint trimStart (s : string) : string :=
  match s with
  | String c r => if isWhiteSpace c then trimStart r else s
  | EmptyString => EmptyString
  end.

(** The value of a digit or letter as a digit of a radix up to 36. *)
Definition digitValue (c : ascii) : option Z :=
  let n := Z.of_nat (nat_of_ascii c) in
  if bool_decide (48 ≤ n ≤ 57) then Some (n - 48)
  else if bool_decide (97 ≤ n ≤ 122) then Some (n - 87)
  else if bool_decide (65 ≤ n ≤ 90) then Some (n - 55)
  else None.

Definition radixDigit (R : Z) (c : ascii) : option Z :=
  match digitValue c with
  | Some d => if bool_decide (d < R) then Some d else None
  | None => None
  end.

(** The longest prefix of [s] made of radix-[R] digits, as digit values. *)
Fixpoint digitsPrefix (R : Z) (s : string) : list Z :=
  match s with
  | String c r =>
      match radixDigit R c with
      | Some d => d :: digitsPrefix R r
      | None => []
      end
  | EmptyString => []
  end.

Definition numberOf (R : Z) (ds : list Z) : Z :=
  fold_left (λ acc d, acc * R + d) ds 0.

(** An optional sign in front of the number. *)
Definition readSign (s : string) : Z * string :=
  match s with
  | String c r =>
      if bool_decide (c = "-"%char) then (-1, r)
      else if bool_decide (c = "+"%char) then (1, r)
      else (1, s)
  | EmptyString => (1, s)
  end.

(** With no radix argument, [0x] or [0X] in front selects radix 16 and is
    removed; the radix is 10 otherwise. *)
Definition readRadix (s : string) : Z * string :=
  match s with
  | String c (String x r) =>
      if bool_decide (c = "0"%char ∧ (x = "x"%char ∨ x = "X"%char)) then (16, r)
      else (10, s)
  | _ => (10, s)
  end.

(** The Number value of an integer: the nearest double, the even one of
    two that are as near (53 significant bits).  From [2^1024 - 2^970] on
    that is [Infinity], which is represented here by [2^1024], an integer
    that no double is and that no integer column takes. *)
Definition infinity : Z := 2 ^ 1024.

Definition roundDouble (n : Z) : Z :=
  let a := Z.abs n in
  let e := Z.log2 a - 52 in
  if bool_decide (e ≤ 0) then n
  else
    let q := a / 2 ^ e in
    let r := a mod 2 ^ e in
    let half := 2 ^ (e - 1) in
    let q' := if bool_decide (half < r ∨ (r = half ∧ Z.odd q = true)) then q + 1 else q in
    let m := q' * 2 ^ e in
    Z.sgn n * (if bool_decide (infinity ≤ m) then infinity else m).

(** [parseInt(string)] (ECMAScript 19.2.5): leading white space is
    skipped, one sign is read, the radix is chosen, and the longest prefix
    of digits of that radix is the number, rounded to a double.  [None] is
    [NaN], so [isNaN(parseInt(s))] is [parseInt s = None]. *)
Definition parseInt (s : string) : option Z :=
  let '(sign, s2) := readSign (trimStart s) in
  let '(R, s3) := readRadix s2 in
  match digitsPrefix R s3 with
  | [] => None
  | ds => Some (roundDouble (sign * numberOf R ds))
  end.

(** ** Rows of the four tables ([shared/schema.ts])

    A timestamp is an integer (milliseconds); a nullable column is an
    [option]. *)

Module User.
Record t := mk {
  id : string;
  email : option string;
  firstName : option string;
  lastName : option string;
  profileImageUrl : option string;
  createdAt : option Z;
  updatedAt : option Z }.
End User.

Module Wishlist.
Record t := mk {
  id : Z;
  userId : string;
  name : string;
  description : option string;
  shareToken : string;
  createdAt : Z;
  updatedAt : Z }.
End Wishlist.

Module Item.
Record t := mk {
  id : Z;
  wishlistId : Z;
  name : string;
  url : option string;
  description : option string;
  price : option string;
  imageUrl : option string;
  createdAt : Z;
  updatedAt : Z }.
End Item.

Module Claim.
Record t := mk {
  id : Z;
  itemId : Z;
  userId : string;
  claimedAt : Z }.
End Claim.

(** ** Values given to [insert] and [update]

    [$inferInsert] of each table: a column with a default may be left out
    ([None]); the identity columns ([generatedAlwaysAsIdentity]) are never
    given.  The [Partial] variants are what [update ... set] receives: a
    column that is left out keeps its value.  The [id] of [UpsertUser] is
    always given: it is the [sub] claim of the session. *)

Module UpsertUser.
Record t := mk {
  id : string;
  email : option string;
  firstName : option string;
  lastName : option string;
  profileImageUrl : option string }.
End UpsertUser.

Module InsertWishlist.
Record t := mk {
  userId : string;
  name : string;
  description : option string;
  createdAt : option Z;
  updatedAt : option Z }.
End InsertWishlist.

Module PartialInsertWishlist.
Record t := mk {
  userId : option string;
  name : option string;
  description : option (option string);
  shareToken : option string;
  createdAt : option Z;
  updatedAt : option Z }.
End PartialInsertWishlist.

Module InsertItem.
Record t := mk {
  wishlistId : Z;
  name : string;
  url : option string;
  description : option string;
  price : option string;
  imageUrl : option string;
  createdAt : option Z;
  updatedAt : option Z }.
End InsertItem.

Module PartialInsertItem.
Record t := mk {
  wishlistId : option Z;
  name : option string;
  url : option (option string);
  description : option (option string);
  price : option (option string);
  imageUrl : option (option string);
  createdAt : option Z;
  updatedAt : option Z }.
End PartialInsertItem.

Module InsertClaim.
Record t := mk {
  itemId : Z;
  userId : string;
  claimedAt : option Z }.
End InsertClaim.

(** ** The store *)

(** The tables, each the list of its rows as a scan finds them, and the
    sequence behind each identity column.  The model puts a new row at the
    end of its list and leaves an updated row at its place. *)
Record DB := mkDB {
  users : list User.t;
  wishlists : list Wishlist.t;
  items : list Item.t;
  claims : list Claim.t;
  wishlists_id_seq : Z;
  items_id_seq : Z;
  claims_id_seq : Z }.

(** What a handler runs against: the store, the clock read by [new Date()]
    and [defaultNow()], and the output of [randomBytes(32).toString("hex")]
    ([entropy w n] is the string of the [n]-th call, [draws] counts the
    calls made so far). *)
Record World := mkWorld {
  db : DB;
  clock : Z;
  entropy : nat → string;
  draws : nat }.

(** Errors raised by a statement, with the name of the violated constraint,
    of the column or of the type. *)
Inductive DbError :=
  | UniqueViolation (constraint : string)
  | ForeignKeyViolation (constraint : string)
  | StringTooLong (column : string)
  | NumericValueOutOfRange (type : string)
  | InvalidByteSequence.

Definition Result (X : Type) : Type := DbError + X.

Definition set_db (d : DB) (w : World) : World :=
  mkWorld d (clock w) (entropy w) (draws w).

Definition set_users (l : list User.t) (d : DB) : DB :=
  mkDB l (wishlists d) (items d) (claims d)
       (wishlists_id_seq d) (items_id_seq d) (claims_id_seq d).

Definition set_wishlists (l : list Wishlist.t) (d : DB) : DB :=
  mkDB (users d) l (items d) (claims d)
       (wishlists_id_seq d) (items_id_seq d) (claims_id_seq d).

Definition set_items (l : list Item.t) (d : DB) : DB :=
  mkDB (users d) (wishlists d) l (claims d)
       (wishlists_id_seq d) (items_id_seq d) (claims_id_seq d).

Definition set_claims (l : list Claim.t) (d : DB) : DB :=
  mkDB (users d) (wishlists d) (items d) l
       (wishlists_id_seq d) (items_id_seq d) (claims_id_seq d).

(** [nextval] of each sequence: never rolled back, also when the insert
    that asked for it fails. *)
Definition next_wishlists_id (d : DB) : DB :=
  mkDB (users d) (wishlists d) (items d) (claims d)
       (wishlists_id_seq d + 1) (items_id_seq d) (claims_id_seq d).

Definition next_items_id (d : DB) : DB :=
  mkDB (users d) (wishlists d) (items d) (claims d)
       (wishlists_id_seq d) (items_id_seq d + 1) (claims_id_seq d).

Definition next_claims_id (d : DB) : DB :=
  mkDB (users d) (wishlists d) (items d) (claims d)
       (wishlists_id_seq d) (items_id_seq d) (claims_id_seq d + 1).

Definition strlen (s : string) : Z := Z.of_nat (String.length s).

(** A nullable [varchar(n)] value fits. *)
Definition fits (n : Z) (o : option string) : Prop :=
  match o with Some s => strlen s ≤ n | None => True end.

#[global] Instance fits_dec n o : Decision (fits n o).
Proof. destruct o; simpl; apply _. Defined.

(** ** Values as the store takes them

    The values of a statement are converted to the types of their columns
    when the statement is prepared: before [nextval] is asked for an id,
    and whether or not a row matches.  A value that cannot be converted
    makes the statement fail with nothing changed. *)

(** [integer]: 32 bits. *)
Definition int4 (n : Z) : Prop := -2147483648 ≤ n ≤ 2147483647.

(** A string of the store holds no U+0000. *)
Fixpoint text (s : string) : Prop :=
  match s with
  | String c r => c ≠ "000"%char ∧ text r
  | EmptyString => True
  end.

#[global] Instance text_dec s : Decision (text s).
Proof. induction s; simpl; apply _. Defined.

Definition textOpt (o : option string) : Prop :=
  match o with Some s => text s | None => True end.

#[global] Instance textOpt_dec o : Decision (textOpt o).
Proof. destruct o; simpl; apply _. Defined.

Fixpoint spaces (s : string) : Prop :=
  match s with
  | String c r => c = " "%char ∧ spaces r
  | EmptyString => True
  end.

#[global] Instance spaces_dec s : Decision (spaces s).
Proof. induction s; simpl; apply _. Defined.

Fixpoint takeS (n : nat) (s : string) : string :=
  match n, s with
  | S n, String c r => String c (takeS n r)
  | _, _ => EmptyString
  end.

Fixpoint dropS (n : nat) (s : string) : string :=
  match n, s with
  | S n, String c r => dropS n r
  | _, _ => s
  end.

(** A Number given for an [integer] column: one that is not among its
    32 bits is refused, however the driver writes it (digits, an exponent,
    [Infinity]). *)
Definition integer (n : Z) : Result Z :=
  if bool_decide (int4 n) then inr n else inl (NumericValueOutOfRange "integer").

(** [varchar] without a length, and [text]. *)
Definition pgText (s : string) : Result string :=
  if bool_decide (text s) then inr s else inl InvalidByteSequence.

(** [varchar(n)]: a longer string is an error, unless what is beyond [n]
    characters is spaces only; it is then cut to [n] characters. *)
Definition varchar (n : Z) (column : string) (s : string) : Result string :=
  if bool_decide (¬ text s) then inl InvalidByteSequence
  else if bool_decide (strlen s ≤ n) then inr s
  else if bool_decide (spaces (dropS (Z.to_nat n) s)) then inr (takeS (Z.to_nat n) s)
  else inl (StringTooLong column).

(** A nullable value, and a value of [set] that may be left out. *)
Definition optional {A} (f : A → Result A) (o : option A) : Result (option A) :=
  match o with
  | None => inr None
  | Some a => match f a with inl e => inl e | inr a' => inr (Some a') end
  end.

Definition andThen {A B} (r : Result A) (k : A → Result B) : Result B :=
  match r with inl e => inl e | inr a => k a end.

(** The store takes the values: none of them makes the statement fail. *)
Definition taken {X} (r : Result X) : bool :=
  match r with inr _ => true | inl _ => false end.

(** ** [DatabaseStorage] ([server/storage.ts])

    A [select] is a function of the store that returns its rows, or the
    error raised for a parameter that the store does not take;
    [const [row] = ...] is [head].  A statement that writes is a function
    of the world that returns its result, or the error it raised, with the
    world it leaves. *)

Definition userIds (d : DB) : list string := User.id <$> users d.
Definition wishlistIds (d : DB) : list Z := Wishlist.id <$> wishlists d.
Definition itemIds (d : DB) : list Z := Item.id <$> items d.
Definition claimIds (d : DB) : list Z := Claim.id <$> claims d.
Definition shareTokens (d : DB) : list string := Wishlist.shareToken <$> wishlists d.
Definition claimedItemIds (d : DB) : list Z := Claim.itemId <$> claims d.

(** The e-mail addresses given ([NULL] is none). *)
Definition emails (l : list User.t) : list string := omap User.email l.

(** The rows that the conditions of the statements select. *)
Definition userById (id : string) (d : DB) : option User.t :=
  head (filter (λ u, User.id u = id) (users d)).

Definition wishlistById (id : Z) (userId : option string) (d : DB) : option Wishlist.t :=
  match userId with
  | Some u =>
      if truthy u
      then head (filter (λ r, Wishlist.id r = id ∧ Wishlist.userId r = u) (wishlists d))
      else head (filter (λ r, Wishlist.id r = id) (wishlists d))
  | None => head (filter (λ r, Wishlist.id r = id) (wishlists d))
  end.

Definition wishlistByShareToken (token : string) (d : DB) : option Wishlist.t :=
  head (filter (λ r, Wishlist.shareToken r = token) (wishlists d)).

Definition itemById (id : Z) (d : DB) : option Item.t :=
  head (filter (λ i, Item.id i = id) (items d)).

Definition claimByItemId (itemId : Z) (d : DB) : option Claim.t :=
  head (filter (λ c, Claim.itemId c = itemId) (claims d)).

Definition getUser (id : string) (d : DB) : Result (option User.t) :=
  if bool_decide (¬ text id) then inl InvalidByteSequence
  else inr (userById id d).

(** The values of [userData]: every column of [users] is a [varchar]
    without a length. *)
Definition userText (userData : UpsertUser.t) : Prop :=
  text (UpsertUser.id userData) ∧ textOpt (UpsertUser.email userData) ∧
  textOpt (UpsertUser.firstName userData) ∧ textOpt (UpsertUser.lastName userData) ∧
  textOpt (UpsertUser.profileImageUrl userData).

(** [insert ... onConflictDoUpdate({ target: users.id, set: {...userData,
    updatedAt: new Date()} })].  A field of [userData] is a string or is
    left out; [users.email] is unique. *)
Definition upsertUser (userData : UpsertUser.t) (w : World) : Result User.t * World :=
  let d := db w in
  let others := filter (λ u, User.id u ≠ UpsertUser.id userData) (users d) in
  if bool_decide (¬ userText userData) then (inl InvalidByteSequence, w)
  else if bool_decide (is_Some (UpsertUser.email userData) ∧
                       UpsertUser.email userData ∈ User.email <$> others)
  then (inl (UniqueViolation "users_email_unique"), w)
  else
    match userById (UpsertUser.id userData) d with
    | None =>
        let row := User.mk (UpsertUser.id userData) (UpsertUser.email userData)
                     (UpsertUser.firstName userData) (UpsertUser.lastName userData)
                     (UpsertUser.profileImageUrl userData)
                     (Some (clock w)) (Some (clock w)) in
        (inr row, set_db (set_users (users d ++ [row]) d) w)
    | Some old =>
        let or_old (new cur : option string) :=
          match new with Some _ => new | None => cur end in
        let row := User.mk (User.id old)
                     (or_old (UpsertUser.email userData) (User.email old))
                     (or_old (UpsertUser.firstName userData) (User.firstName old))
                     (or_old (UpsertUser.lastName userData) (User.lastName old))
                     (or_old (UpsertUser.profileImageUrl userData) (User.profileImageUrl old))
                     (User.createdAt old) (Some (clock w)) in
        (inr row,
         set_db (set_users ((λ u, if decide (User.id u = User.id old) then row else u)
                              <$> users d) d) w)
    end.

Definition getWishlists (userId : string) (d : DB) : Result (list Wishlist.t) :=
  if bool_decide (¬ text userId) then inl InvalidByteSequence
  else inr (filter (λ r, Wishlist.userId r = userId) (wishlists d)).

(** [userId ? and(eq(id), eq(userId)) : eq(id)]: the owner condition, and
    its parameter, are there when [userId] is given and truthy. *)
Definition getWishlist (id : Z) (userId : option string) (d : DB)
    : Result (option Wishlist.t) :=
  if bool_decide (¬ int4 id) then inl (NumericValueOutOfRange "integer")
  else if bool_decide (¬ textOpt userId) then inl InvalidByteSequence
  else inr (wishlistById id userId d).

Definition getWishlistByShareToken (token : string) (d : DB) : Result (option Wishlist.t) :=
  if bool_decide (¬ text token) then inl InvalidByteSequence
  else inr (wishlistByShareToken token d).

(** [randomBytes(32).toString("hex")]: the next string of the source of
    randomness. *)
Definition randomBytes (w : World) : string * World :=
  (entropy w (draws w), mkWorld (db w) (clock w) (entropy w) (S (draws w))).

(** The values of an insert into [wishlists] as their columns take them. *)
Definition wishlistValues (data : InsertWishlist.t) : Result InsertWishlist.t :=
  andThen (pgText (InsertWishlist.userId data)) (λ userId,
  andThen (varchar 255 "name" (InsertWishlist.name data)) (λ name,
  andThen (optional pgText (InsertWishlist.description data)) (λ description,
  inr (InsertWishlist.mk userId name description
         (InsertWishlist.createdAt data) (InsertWishlist.updatedAt data))))).

(** The share token is 64 hexadecimal digits: nothing of it is ever cut
    off.  The model lets [entropy] give any string and refuses one that
    [varchar(64)] does not hold as it is. *)
Definition shareTokenValue (shareToken : string) : Result string :=
  if bool_decide (¬ text shareToken) then inl InvalidByteSequence
  else if bool_decide (64 < strlen shareToken) then inl (StringTooLong "share_token")
  else inr shareToken.

(** [insert(wishlists).values({ ...data, shareToken }).returning()] with
    the [shareToken] that [randomBytes] has just given. *)
Definition createWishlist (data : InsertWishlist.t) (w : World) : Result Wishlist.t * World :=
  let '(shareToken, w1) := randomBytes w in
  match andThen (wishlistValues data) (λ v,
        andThen (shareTokenValue shareToken) (λ t, inr (v, t))) with
  | inl e => (inl e, w1)
  | inr (v, shareToken) =>
      let d := db w1 in
      let row := Wishlist.mk (wishlists_id_seq d)
                   (InsertWishlist.userId v) (InsertWishlist.name v)
                   (InsertWishlist.description v) shareToken
                   (default (clock w1) (InsertWishlist.createdAt v))
                   (default (clock w1) (InsertWishlist.updatedAt v)) in
      let w2 := set_db (next_wishlists_id d) w1 in
      if bool_decide (Wishlist.id row ∈ wishlistIds d)
      then (inl (UniqueViolation "wishlists_pkey"), w2)
      else if bool_decide (shareToken ∈ shareTokens d)
      then (inl (UniqueViolation "wishlists_share_token_unique"), w2)
      else if bool_decide (Wishlist.userId row ∉ userIds d)
      then (inl (ForeignKeyViolation "wishlists_user_id_users_id_fk"), w2)
      else (inr row, set_db (set_wishlists (wishlists d ++ [row]) (next_wishlists_id d)) w1)
  end.

Definition set_wishlist (s : PartialInsertWishlist.t) (r : Wishlist.t) : Wishlist.t :=
  Wishlist.mk (Wishlist.id r)
    (default (Wishlist.userId r) (PartialInsertWishlist.userId s))
    (default (Wishlist.name r) (PartialInsertWishlist.name s))
    (default (Wishlist.description r) (PartialInsertWishlist.description s))
    (default (Wishlist.shareToken r) (PartialInsertWishlist.shareToken s))
    (default (Wishlist.createdAt r) (PartialInsertWishlist.createdAt s))
    (default (Wishlist.updatedAt r) (PartialInsertWishlist.updatedAt s)).

(** The values of [set] as the columns of [wishlists] take them. *)
Definition wishlistSetValues (data : PartialInsertWishlist.t)
    : Result PartialInsertWishlist.t :=
  andThen (optional pgText (PartialInsertWishlist.userId data)) (λ userId,
  andThen (optional (varchar 255 "name") (PartialInsertWishlist.name data)) (λ name,
  andThen (optional (optional pgText) (PartialInsertWishlist.description data))
    (λ description,
  andThen (optional shareTokenValue (PartialInsertWishlist.shareToken data)) (λ shareToken,
  inr (PartialInsertWishlist.mk userId name description shareToken
         (PartialInsertWishlist.createdAt data) (PartialInsertWishlist.updatedAt data)))))).

(** [update(wishlists).set({ ...data, updatedAt: new Date() })
    .where(and(eq(id), eq(userId))).returning()] *)
Definition updateWishlist (id : Z) (userId : string) (data : PartialInsertWishlist.t)
    (w : World) : Result (option Wishlist.t) * World :=
  let d := db w in
  if bool_decide (¬ int4 id) then (inl (NumericValueOutOfRange "integer"), w)
  else if bool_decide (¬ text userId) then (inl InvalidByteSequence, w)
  else
    match wishlistSetValues data with
    | inl e => (inl e, w)
    | inr v =>
        let s := PartialInsertWishlist.mk
                   (PartialInsertWishlist.userId v) (PartialInsertWishlist.name v)
                   (PartialInsertWishlist.description v)
                   (PartialInsertWishlist.shareToken v)
                   (PartialInsertWishlist.createdAt v) (Some (clock w)) in
        let hit r := Wishlist.id r = id ∧ Wishlist.userId r = userId in
        let returning := set_wishlist s <$> filter hit (wishlists d) in
        let rows := (λ r, if decide (hit r) then set_wishlist s r else r) <$> wishlists d in
        if bool_decide (returning = []) then (inr None, w)
        else if bool_decide (¬ NoDup (Wishlist.shareToken <$> rows))
        then (inl (UniqueViolation "wishlists_share_token_unique"), w)
        else if bool_decide (Exists (λ r, Wishlist.userId r ∉ userIds d) returning)
        then (inl (ForeignKeyViolation "wishlists_user_id_users_id_fk"), w)
        else (inr (head returning), set_db (set_wishlists rows d) w)
    end.

(** [delete(wishlists).where(and(eq(id), eq(userId)))]; the items of a
    deleted wishlist and the claims on them go with it ([onDelete:
    "cascade"]).  The result is [rowCount > 0]. *)
Definition deleteWishlist (id : Z) (userId : string) (w : World) : Result bool * World :=
  let d := db w in
  let hit r := Wishlist.id r = id ∧ Wishlist.userId r = userId in
  let gone := Wishlist.id <$> filter hit (wishlists d) in
  let goneItems := Item.id <$> filter (λ i, Item.wishlistId i ∈ gone) (items d) in
  let d' := set_wishlists (filter (λ r, ¬ hit r) (wishlists d))
              (set_items (filter (λ i, Item.wishlistId i ∉ gone) (items d))
                 (set_claims (filter (λ c, Claim.itemId c ∉ goneItems) (claims d)) d)) in
  if bool_decide (¬ int4 id) then (inl (NumericValueOutOfRange "integer"), w)
  else if bool_decide (¬ text userId) then (inl InvalidByteSequence, w)
  else (inr (bool_decide (gone ≠ [])), set_db d' w).

Definition getItem (id : Z) (d : DB) : Result (option Item.t) :=
  if bool_decide (¬ int4 id) then inl (NumericValueOutOfRange "integer")
  else inr (itemById id d).

(** The values of an insert into [items] as their columns take them. *)
Definition itemValues (data : InsertItem.t) : Result InsertItem.t :=
  andThen (integer (InsertItem.wishlistId data)) (λ wishlistId,
  andThen (varchar 255 "name" (InsertItem.name data)) (λ name,
  andThen (optional pgText (InsertItem.url data)) (λ url,
  andThen (optional pgText (InsertItem.description data)) (λ description,
  andThen (optional (varchar 100 "price") (InsertItem.price data)) (λ price,
  andThen (optional pgText (InsertItem.imageUrl data)) (λ imageUrl,
  inr (InsertItem.mk wishlistId name url description price imageUrl
         (InsertItem.createdAt data) (InsertItem.updatedAt data)))))))).

(** [insert(items).values(data).returning()] *)
Definition createItem (data : InsertItem.t) (w : World) : Result Item.t * World :=
  let d := db w in
  match itemValues data with
  | inl e => (inl e, w)
  | inr v =>
      let row := Item.mk (items_id_seq d)
                   (InsertItem.wishlistId v) (InsertItem.name v) (InsertItem.url v)
                   (InsertItem.description v) (InsertItem.price v)
                   (InsertItem.imageUrl v)
                   (default (clock w) (InsertItem.createdAt v))
                   (default (clock w) (InsertItem.updatedAt v)) in
      let w' := set_db (next_items_id d) w in
      if bool_decide (Item.id row ∈ itemIds d) then (inl (UniqueViolation "items_pkey"), w')
      else if bool_decide (Item.wishlistId row ∉ wishlistIds d)
      then (inl (ForeignKeyViolation "items_wishlist_id_wishlists_id_fk"), w')
      else (inr row, set_db (set_items (items d ++ [row]) (next_items_id d)) w)
  end.

Definition set_item (s : PartialInsertItem.t) (r : Item.t) : Item.t :=
  Item.mk (Item.id r)
    (default (Item.wishlistId r) (PartialInsertItem.wishlistId s))
    (default (Item.name r) (PartialInsertItem.name s))
    (default (Item.url r) (PartialInsertItem.url s))
    (default (Item.description r) (PartialInsertItem.description s))
    (default (Item.price r) (PartialInsertItem.price s))
    (default (Item.imageUrl r) (PartialInsertItem.imageUrl s))
    (default (Item.createdAt r) (PartialInsertItem.createdAt s))
    (default (Item.updatedAt r) (PartialInsertItem.updatedAt s)).

(** [wishlist_id IN (SELECT id FROM wishlists WHERE user_id = ...)] *)
Definition ownedWishlistIds (wishlistUserId : string) (d : DB) : list Z :=
  Wishlist.id <$> filter (λ r, Wishlist.userId r = wishlistUserId) (wishlists d).

(** The values of [set] as the columns of [items] take them. *)
Definition itemSetValues (data : PartialInsertItem.t) : Result PartialInsertItem.t :=
  andThen (optional integer (PartialInsertItem.wishlistId data)) (λ wishlistId,
  andThen (optional (varchar 255 "name") (PartialInsertItem.name data)) (λ name,
  andThen (optional (optional pgText) (PartialInsertItem.url data)) (λ url,
  andThen (optional (optional pgText) (PartialInsertItem.description data))
    (λ description,
  andThen (optional (optional (varchar 100 "price")) (PartialInsertItem.price data))
    (λ price,
  andThen (optional (optional pgText) (PartialInsertItem.imageUrl data)) (λ imageUrl,
  inr (PartialInsertItem.mk wishlistId name url description price imageUrl
         (PartialInsertItem.createdAt data) (PartialInsertItem.updatedAt data)))))))).

(** [update(items).set({ ...data, updatedAt: new Date() })
    .where(and(eq(id), wishlist_id IN (...))).returning()] *)
Definition updateItem (id : Z) (wishlistUserId : string) (data : PartialInsertItem.t)
    (w : World) : Result (option Item.t) * World :=
  let d := db w in
  if bool_decide (¬ int4 id) then (inl (NumericValueOutOfRange "integer"), w)
  else if bool_decide (¬ text wishlistUserId) then (inl InvalidByteSequence, w)
  else
    match itemSetValues data with
    | inl e => (inl e, w)
    | inr v =>
        let s := PartialInsertItem.mk
                   (PartialInsertItem.wishlistId v) (PartialInsertItem.name v)
                   (PartialInsertItem.url v) (PartialInsertItem.description v)
                   (PartialInsertItem.price v) (PartialInsertItem.imageUrl v)
                   (PartialInsertItem.createdAt v) (Some (clock w)) in
        let hit i :=
          Item.id i = id ∧ Item.wishlistId i ∈ ownedWishlistIds wishlistUserId d in
        let returning := set_item s <$> filter hit (items d) in
        let rows := (λ i, if decide (hit i) then set_item s i else i) <$> items d in
        if bool_decide (returning = []) then (inr None, w)
        else if bool_decide (Exists (λ i, Item.wishlistId i ∉ wishlistIds d) returning)
        then (inl (ForeignKeyViolation "items_wishlist_id_wishlists_id_fk"), w)
        else (inr (head returning), set_db (set_items rows d) w)
    end.

(** [delete(items).where(and(eq(id), wishlist_id IN (...)))]; the claim on
    a deleted item goes with it. *)
Definition deleteItem (id : Z) (wishlistUserId : string) (w : World) : Result bool * World :=
  let d := db w in
  let hit i := Item.id i = id ∧ Item.wishlistId i ∈ ownedWishlistIds wishlistUserId d in
  let gone := Item.id <$> filter hit (items d) in
  let d' := set_items (filter (λ i, ¬ hit i) (items d))
              (set_claims (filter (λ c, Claim.itemId c ∉ gone) (claims d)) d) in
  if bool_decide (¬ int4 id) then (inl (NumericValueOutOfRange "integer"), w)
  else if bool_decide (¬ text wishlistUserId) then (inl InvalidByteSequence, w)
  else (inr (bool_decide (gone ≠ [])), set_db d' w).

Definition getClaim (itemId : Z) (d : DB) : Result (option Claim.t) :=
  if bool_decide (¬ int4 itemId) then inl (NumericValueOutOfRange "integer")
  else inr (claimByItemId itemId d).

(** [insert(claims).values(data).returning()]; [claims.item_id] is
    unique. *)
Definition createClaim (data : InsertClaim.t) (w : World) : Result Claim.t * World :=
  let d := db w in
  let row := Claim.mk (claims_id_seq d) (InsertClaim.itemId data) (InsertClaim.userId data)
               (default (clock w) (InsertClaim.claimedAt data)) in
  let w' := set_db (next_claims_id d) w in
  if bool_decide (¬ int4 (InsertClaim.itemId data))
  then (inl (NumericValueOutOfRange "integer"), w)
  else if bool_decide (¬ text (InsertClaim.userId data)) then (inl InvalidByteSequence, w)
  else if bool_decide (Claim.id row ∈ claimIds d) then (inl (UniqueViolation "claims_pkey"), w')
  else if bool_decide (Claim.itemId row ∈ claimedItemIds d)
  then (inl (UniqueViolation "claims_item_id_unique"), w')
  else if bool_decide (Claim.itemId row ∉ itemIds d)
  then (inl (ForeignKeyViolation "claims_item_id_items_id_fk"), w')
  else if bool_decide (Claim.userId row ∉ userIds d)
  then (inl (ForeignKeyViolation "claims_user_id_users_id_fk"), w')
  else (inr row, set_db (set_claims (claims d ++ [row]) (next_claims_id d)) w).

(** [delete(claims).where(and(eq(itemId), eq(userId)))] *)
Definition deleteClaim (itemId : Z) (userId : string) (w : World) : Result bool * World :=
  let d := db w in
  let hit c := Claim.itemId c = itemId ∧ Claim.userId c = userId in
  if bool_decide (¬ int4 itemId) then (inl (NumericValueOutOfRange "integer"), w)
  else if bool_decide (¬ text userId) then (inl InvalidByteSequence, w)
  else (inr (bool_decide (filter hit (claims d) ≠ [])),
        set_db (set_claims (filter (λ c, ¬ hit c) (claims d)) d) w).

(** Queries that [server/routes.ts] sends to [db] directly. *)

(** [select().from(wishlists).where(eq(wishlists.id, id))] *)
Definition wishlistsById (id : Z) (d : DB) : list Wishlist.t :=
  filter (λ r, Wishlist.id r = id) (wishlists d).

(** [select({ count: count() }).from(items).where(eq(items.wishlistId, id))] *)
Definition itemCount (wishlistId : Z) (d : DB) : Z :=
  Z.of_nat (length (filter (λ i, Item.wishlistId i = wishlistId) (items d))).

(** The same count over [items] inner-joined with [claims] on
    [items.id = claims.itemId]. *)
Definition claimedCount (wishlistId : Z) (d : DB) : Z :=
  Z.of_nat (length (
    i ← filter (λ i, Item.wishlistId i = wishlistId) (items d);
    filter (λ c, Claim.itemId c = Item.id i) (claims d))).

(** [from(items).leftJoin(claims, ...).leftJoin(users, ...)
    .where(eq(items.wishlistId, id))]: a side with no match is [null]. *)
Definition itemsWithClaims (wishlistId : Z) (d : DB)
    : list (Item.t * option Claim.t * option User.t) :=
  i ← filter (λ i, Item.wishlistId i = wishlistId) (items d);
  c ← match filter (λ c, Claim.itemId c = Item.id i) (claims d) with
      | [] => [None]
      | cs => Some <$> cs
      end;
  u ← match c with
      | Some c =>
          match filter (λ u, User.id u = Claim.userId c) (users d) with
          | [] => [None]
          | us => Some <$> us
          end
      | None => [None]
      end;
  [(i, c, u)].

(** ** Request bodies and the zod schemas ([shared/schema.ts]) *)

(** A JSON value found under a key of the request body; what is inside an
    array or an object is never looked at. *)
Inductive jsval :=
  | JNull
  | JBool (b : bool)
  | JNumber (n : Z)
  | JString (s : string)
  | JArray
  | JObject.

(** [req.body]: an object, or something else ([None]). *)
Definition ReqBody : Type := option (gmap string jsval).

(** The [data] of a successful [safeParse]: the keys of the schema and no
    other ([id], [userId], [shareToken], [wishlistId], [createdAt] and
    [updatedAt] are omitted from the schemas, and zod drops the keys it
    does not know). *)
Module InsertWishlistInput.
Record t := mk {
  name : string;
  description : option string }.
End InsertWishlistInput.

Module PartialWishlistInput.
Record t := mk {
  name : option string;
  description : option string }.
End PartialWishlistInput.

Module InsertItemInput.
Record t := mk {
  name : string;
  url : option string;
  description : option string;
  price : option string;
  imageUrl : option string }.
End InsertItemInput.

Module PartialItemInput.
Record t := mk {
  name : option string;
  url : option string;
  description : option string;
  price : option string;
  imageUrl : option string }.
End PartialItemInput.

(** The result of checking one key: [None] is an issue; [Some None] is a
    key that is absent where the schema allows it. *)

(** [z.string().min(1, "Name is required").max(255)] *)
Definition zName (v : option jsval) : option string :=
  match v with
  | Some (JString s) => if bool_decide (1 ≤ strlen s ≤ 255) then Some s else None
  | _ => None
  end.

(** the same under [.partial()] *)
Definition zNameOptional (v : option jsval) : option (option string) :=
  match v with
  | None => Some None
  | Some _ => Some <$> zName v
  end.

(** [z.string().optional()] *)
Definition zStringOptional (v : option jsval) : option (option string) :=
  match v with
  | None => Some None
  | Some (JString s) => Some (Some s)
  | Some _ => None
  end.

(** The paths of the issues, in the order of the schema's keys. *)
Definition issue {A} (path : string) (r : option A) : list string :=
  match r with Some _ => [] | None => [path] end.

(** [insertWishlistSchema.safeParse(req.body)]: the issues, or the data. *)
Definition insertWishlistSchema (body : ReqBody) : list string + InsertWishlistInput.t :=
  match body with
  | None => inl [""]
  | Some o =>
      match zName (o !! "name"), zStringOptional (o !! "description") with
      | Some n, Some d => inr (InsertWishlistInput.mk n d)
      | n, d => inl (issue "name" n ++ issue "description" d)%list
      end
  end.

(** [insertWishlistSchema.partial().safeParse(req.body)] *)
Definition insertWishlistSchema_partial (body : ReqBody)
    : list string + PartialWishlistInput.t :=
  match body with
  | None => inl [""]
  | Some o =>
      match zNameOptional (o !! "name"), zStringOptional (o !! "description") with
      | Some n, Some d => inr (PartialWishlistInput.mk n d)
      | n, d => inl (issue "name" n ++ issue "description" d)%list
      end
  end.

(** The object given to [storage.createWishlist]: [{ ...data, userId }]. *)
Definition insertWishlistOf (data : InsertWishlistInput.t) (userId : string)
    : InsertWishlist.t :=
  InsertWishlist.mk userId (InsertWishlistInput.name data)
    (InsertWishlistInput.description data) None None.

(** The parsed [data] as the [Partial<InsertWishlist>] given to
    [storage.updateWishlist]. *)
Definition partialWishlistOf (data : PartialWishlistInput.t) : PartialInsertWishlist.t :=
  PartialInsertWishlist.mk None (PartialWishlistInput.name data)
    (Some <$> PartialWishlistInput.description data) None None None.

Definition insertItemOf (data : InsertItemInput.t) (wishlistId : Z) : InsertItem.t :=
  InsertItem.mk wishlistId (InsertItemInput.name data) (InsertItemInput.url data)
    (InsertItemInput.description data) (InsertItemInput.price data)
    (InsertItemInput.imageUrl data) None None.

Definition partialItemOf (data : PartialItemInput.t) : PartialInsertItem.t :=
  PartialInsertItem.mk None (PartialItemInput.name data)
    (Some <$> PartialItemInput.url data)
    (Some <$> PartialItemInput.description data)
    (Some <$> PartialItemInput.price data)
    (Some <$> PartialItemInput.imageUrl data) None None.

(** ** Responses *)

Module WishlistWithCounts.
Record t := mk {
  wishlist : Wishlist.t;
  itemCount : Z;
  claimedCount : Z }.
End WishlistWithCounts.

Module ItemWithClaim.
Record t := mk {
  item : Item.t;
  claim : option (Claim.t * User.t) }.
End ItemWithClaim.

(** What [res.json] is given.  [ZodError] stands for
    [{ message: fromZodError(...).message }] and keeps the paths of the
    issues, not the wording. *)
Inductive Body :=
  | Message (message : string)
  | ZodError (paths : list string)
  | UserJson (user : option User.t)
  | WishlistsJson (l : list WishlistWithCounts.t)
  | WishlistWithItemsJson (wishlist : Wishlist.t) (items : list ItemWithClaim.t)
  | WishlistJson (wishlist : Wishlist.t)
  | ItemJson (item : Item.t)
  | ClaimJson (claim : Claim.t)
  | NoBody.

Record Response := mkResponse {
  status : Z;
  body : Body }.

(** ** Handlers as sequences of awaited statements *)

(** A handler is done ([Ret]), has thrown ([Throw]), or waits for a
    statement and goes on with its result ([Await]). *)
Inductive Prog (A : Type) : Type :=
  | Ret (a : A)
  | Throw (e : DbError)
  | Await {X : Type} (stmt : World → X * World) (k : X → Prog A).

Arguments Ret {A} a.
Arguments Throw {A} e.
Arguments Await {A X} stmt k.

Fixpoint prog_bind {A B} (f : A → Prog B) (p : Prog A) : Prog B :=
  match p with
  | Ret a => f a
  | Throw e => Throw e
  | Await stmt k => Await stmt (λ x, prog_bind f (k x))
  end.

#[global] Instance Prog_ret : MRet Prog := @Ret.
#[global] Instance Prog_bind : MBind Prog := @prog_bind.

(** [await] of a [select] whose parameters are values read from the store
    or already taken by it: it cannot raise. *)
Definition query {X} (q : DB → X) : Prog X :=
  Await (λ w, (q (db w), w)) Ret.

(** [await] of a statement that may raise: the error is thrown in the
    handler. *)
Definition await {X} (stmt : World → Result X * World) : Prog X :=
  Await stmt (λ r, match r with inl e => Throw e | inr x => Ret x end).

(** [await] of a [select] that may raise. *)
Definition select {X} (q : DB → Result X) : Prog X :=
  await (λ w, (q (db w), w)).

(** [try { p } catch (error) { h }] *)
Fixpoint try_catch {A} (p : Prog A) (h : DbError → Prog A) : Prog A :=
  match p with
  | Ret a => Ret a
  | Throw e => h e
  | Await stmt k => Await stmt (λ x, try_catch (k x) h)
  end.

(** A handler run alone, from its first statement to its end. *)
Fixpoint run {A} (p : Prog A) (w : World) : Result A * World :=
  match p with
  | Ret a => (inr a, w)
  | Throw e => (inl e, w)
  | Await stmt k => let '(x, w') := stmt w in run (k x) w'
  end.

(** One statement of a handler. *)
Definition step {A} (p : Prog A) (w : World) : Prog A * World :=
  match p with
  | Await stmt k => let '(x, w') := stmt w in (k x, w')
  | _ => (p, w)
  end.

Fixpoint steps {A} (n : nat) (p : Prog A) (w : World) : Prog A * World :=
  match n with
  | O => (p, w)
  | S n => let '(p', w') := step p w in steps n p' w'
  end.

(** ** The routes ([server/routes.ts])

    Every handler below is the function registered on its path, behind
    [isAuthenticated] where the source has it: [userId] is
    [req.user.claims.sub], path parameters are the strings of
    [req.params]. *)

Section Routes.

(** zod's [.url()] check on a string (the URL parser of the runtime). *)
Variable isUrl : string → bool.

(** [z.string().url(...).optional().or(z.literal(""))] *)
Definition zUrlOptional (v : option jsval) : option (option string) :=
  match v with
  | None => Some None
  | Some (JString s) => if isUrl s || bool_decide (s = "") then Some (Some s) else None
  | Some _ => None
  end.

(** [insertItemSchema.safeParse(req.body)] *)
Definition insertItemSchema (body : ReqBody) : list string + InsertItemInput.t :=
  match body with
  | None => inl [""]
  | Some o =>
      match zName (o !! "name"), zUrlOptional (o !! "url"),
            zStringOptional (o !! "description"), zStringOptional (o !! "price"),
            zUrlOptional (o !! "imageUrl") with
      | Some n, Some u, Some d, Some p, Some i => inr (InsertItemInput.mk n u d p i)
      | n, u, d, p, i =>
          inl (issue "name" n ++ issue "url" u ++ issue "description" d ++
               issue "price" p ++ issue "imageUrl" i)%list
      end
  end.

(** [insertItemSchema.partial().safeParse(req.body)] *)
Definition insertItemSchema_partial (body : ReqBody) : list string + PartialItemInput.t :=
  match body with
  | None => inl [""]
  | Some o =>
      match zNameOptional (o !! "name"), zUrlOptional (o !! "url"),
            zStringOptional (o !! "description"), zStringOptional (o !! "price"),
            zUrlOptional (o !! "imageUrl") with
      | Some n, Some u, Some d, Some p, Some i => inr (PartialItemInput.mk n u d p i)
      | n, u, d, p, i =>
          inl (issue "name" n ++ issue "url" u ++ issue "description" d ++
               issue "price" p ++ issue "imageUrl" i)%list
      end
  end.

Definition respond (code : Z) (b : Body) : Prog Response := Ret (mkResponse code b).

(** [catch (error) { res.status(500).json({ message }) }] *)
Definition failed (message : string) (_ : DbError) : Prog Response :=
  respond 500 (Message message).

(** [row.claim && row.claimUser ? { ...row.claim, user: row.claimUser } : null] *)
Definition formatItem (row : Item.t * option Claim.t * option User.t) : ItemWithClaim.t :=
  let '(item, claim, claimUser) := row in
  ItemWithClaim.mk item
    match claim, claimUser with
    | Some c, Some u => Some (c, u)
    | _, _ => None
    end.

(** GET /api/auth/user *)
Definition get_auth_user (userId : string) : Prog Response :=
  try_catch
    (user ← select (getUser userId);
     respond 200 (UserJson user))
    (failed "Failed to fetch user").

(** The two counts of one wishlist. *)
Definition withCounts (wishlist : Wishlist.t) : Prog WishlistWithCounts.t :=
  itemCountResult ← query (itemCount (Wishlist.id wishlist));
  claimedCountResult ← query (claimedCount (Wishlist.id wishlist));
  mret (WishlistWithCounts.mk wishlist itemCountResult claimedCountResult).

Fixpoint allWithCounts (l : list Wishlist.t) : Prog (list WishlistWithCounts.t) :=
  match l with
  | [] => mret []
  | wishlist :: l =>
      x ← withCounts wishlist;
      xs ← allWithCounts l;
      mret (x :: xs)
  end.

(** GET /api/wishlists; the counting queries of [Promise.all] are taken
    one wishlist after the other. *)
Definition get_wishlists (userId : string) : Prog Response :=
  try_catch
    (userWishlists ← select (getWishlists userId);
     wishlistsWithCounts ← allWithCounts userWishlists;
     respond 200 (WishlistsJson wishlistsWithCounts))
    (failed "Failed to fetch wishlists").

(** GET /api/wishlists/:id *)
Definition get_wishlist (userId : string) (id : string) : Prog Response :=
  try_catch
    match parseInt id with
    | None => respond 400 (Message "Invalid wishlist ID")
    | Some wishlistId =>
        wishlist ← select (getWishlist wishlistId (Some userId));
        match wishlist with
        | None => respond 404 (Message "Wishlist not found")
        | Some wishlist =>
            wishlistItems ← query (itemsWithClaims wishlistId);
            respond 200 (WishlistWithItemsJson wishlist (formatItem <$> wishlistItems))
        end
    end
    (failed "Failed to fetch wishlist").

(** GET /api/wishlists/shared/:token (no [isAuthenticated]) *)
Definition get_shared_wishlist (token : string) : Prog Response :=
  try_catch
    (wishlist ← select (getWishlistByShareToken token);
     match wishlist with
     | None => respond 404 (Message "Wishlist not found")
     | Some wishlist =>
         wishlistItems ← query (itemsWithClaims (Wishlist.id wishlist));
         respond 200 (WishlistWithItemsJson wishlist (formatItem <$> wishlistItems))
     end)
    (failed "Failed to fetch wishlist").

(** POST /api/wishlists *)
Definition post_wishlist (userId : string) (body : ReqBody) : Prog Response :=
  try_catch
    match insertWishlistSchema body with
    | inl issues => respond 400 (ZodError issues)
    | inr data =>
        wishlist ← await (createWishlist (insertWishlistOf data userId));
        respond 201 (WishlistJson wishlist)
    end
    (failed "Failed to create wishlist").

(** PATCH /api/wishlists/:id *)
Definition patch_wishlist (userId : string) (id : string) (body : ReqBody)
    : Prog Response :=
  try_catch
    match parseInt id with
    | None => respond 400 (Message "Invalid wishlist ID")
    | Some wishlistId =>
        match insertWishlistSchema_partial body with
        | inl issues => respond 400 (ZodError issues)
        | inr data =>
            wishlist ← await (updateWishlist wishlistId userId (partialWishlistOf data));
            match wishlist with
            | None => respond 404 (Message "Wishlist not found")
            | Some wishlist => respond 200 (WishlistJson wishlist)
            end
        end
    end
    (failed "Failed to update wishlist").

(** DELETE /api/wishlists/:id *)
Definition delete_wishlist (userId : string) (id : string) : Prog Response :=
  try_catch
    match parseInt id with
    | None => respond 400 (Message "Invalid wishlist ID")
    | Some wishlistId =>
        deleted ← await (deleteWishlist wishlistId userId);
        if deleted : bool then respond 204 NoBody
        else respond 404 (Message "Wishlist not found")
    end
    (failed "Failed to delete wishlist").

(** POST /api/wishlists/:wishlistId/items *)
Definition post_item (userId : string) (wishlistId : string) (body : ReqBody)
    : Prog Response :=
  try_catch
    match parseInt wishlistId with
    | None => respond 400 (Message "Invalid wishlist ID")
    | Some wishlistId =>
        wishlist ← select (getWishlist wishlistId (Some userId));
        match wishlist with
        | None => respond 404 (Message "Wishlist not found")
        | Some _ =>
            match insertItemSchema body with
            | inl issues => respond 400 (ZodError issues)
            | inr data =>
                item ← await (createItem (insertItemOf data wishlistId));
                respond 201 (ItemJson item)
            end
        end
    end
    (failed "Failed to create item").

(** PATCH /api/items/:id *)
Definition patch_item (userId : string) (id : string) (body : ReqBody) : Prog Response :=
  try_catch
    match parseInt id with
    | None => respond 400 (Message "Invalid item ID")
    | Some itemId =>
        match insertItemSchema_partial body with
        | inl issues => respond 400 (ZodError issues)
        | inr data =>
            item ← await (updateItem itemId userId (partialItemOf data));
            match item with
            | None => respond 404 (Message "Item not found")
            | Some item => respond 200 (ItemJson item)
            end
        end
    end
    (failed "Failed to update item").

(** DELETE /api/items/:id *)
Definition delete_item (userId : string) (id : string) : Prog Response :=
  try_catch
    match parseInt id with
    | None => respond 400 (Message "Invalid item ID")
    | Some itemId =>
        deleted ← await (deleteItem itemId userId);
        if deleted : bool then respond 204 NoBody
        else respond 404 (Message "Item not found")
    end
    (failed "Failed to delete item").

(** POST /api/items/:itemId/claim *)
Definition post_claim (userId : string) (itemId : string) : Prog Response :=
  try_catch
    match parseInt itemId with
    | None => respond 400 (Message "Invalid item ID")
    | Some itemId =>
        item ← select (getItem itemId);
        match item with
        | None => respond 404 (Message "Item not found")
        | Some item =>
            existingClaim ← select (getClaim itemId);
            match existingClaim with
            | Some _ => respond 400 (Message "Item is already claimed")
            | None =>
                rows ← query (wishlistsById (Item.wishlistId item));
                if match head rows with
                   | Some wishlist => bool_decide (Wishlist.userId wishlist = userId)
                   | None => false
                   end
                then respond 400 (Message "You cannot claim items from your own wishlist")
                else
                  claim ← await (createClaim (InsertClaim.mk itemId userId None));
                  respond 201 (ClaimJson claim)
            end
        end
    end
    (failed "Failed to claim item").

(** DELETE /api/items/:itemId/claim *)
Definition delete_claim (userId : string) (itemId : string) : Prog Response :=
  try_catch
    match parseInt itemId with
    | None => respond 400 (Message "Invalid item ID")
    | Some itemId =>
        deleted ← await (deleteClaim itemId userId);
        if deleted : bool then respond 204 NoBody
        else respond 404 (Message "Claim not found")
    end
    (failed "Failed to unclaim item").

(** The requests that reach a handler. *)
Inductive Request :=
  | GetAuthUser (userId : string)
  | GetWishlists (userId : string)
  | GetWishlist (userId id : string)
  | GetSharedWishlist (token : string)
  | PostWishlist (userId : string) (body : ReqBody)
  | PatchWishlist (userId id : string) (body : ReqBody)
  | DeleteWishlist (userId id : string)
  | PostItem (userId wishlistId : string) (body : ReqBody)
  | PatchItem (userId id : string) (body : ReqBody)
  | DeleteItem (userId id : string)
  | PostClaim (userId itemId : string)
  | DeleteClaim (userId itemId : string).

Definition handle (r : Request) : Prog Response :=
  match r with
  | GetAuthUser userId => get_auth_user userId
  | GetWishlists userId => get_wishlists userId
  | GetWishlist userId id => get_wishlist userId id
  | GetSharedWishlist token => get_shared_wishlist token
  | PostWishlist userId body => post_wishlist userId body
  | PatchWishlist userId id body => patch_wishlist userId id body
  | DeleteWishlist userId id => delete_wishlist userId id
  | PostItem userId wishlistId body => post_item userId wishlistId body
  | PatchItem userId id body => patch_item userId id body
  | DeleteItem userId id => delete_item userId id
  | PostClaim userId itemId => post_claim userId itemId
  | DeleteClaim userId itemId => delete_claim userId itemId
  end.

End Routes.

(** ** The server under concurrent requests

    Requests arrive at any time and their handlers advance one statement
    at a time, in any order; the session layer signs users in (it upserts
    their row); the clock moves forward. *)

(** The world and the handlers of the requests that have arrived, each
    with what it has left to run ([Ret] of its response when it is
    done). *)
Record Sys := mkSys {
  world : World;
  inflight : list (Prog Response) }.

(** A request arrives; the handler at position [n] runs its next
    statement; the session layer signs a user in; time passes. *)
Inductive sys_step (isUrl : string → bool) : Sys → Sys → Prop :=
  | sys_request r s :
      sys_step isUrl s (mkSys (world s) (inflight s ++ [handle isUrl r]))
  | sys_statement n p s :
      inflight s !! n = Some p →
      sys_step isUrl s
        (mkSys (step p (world s)).2 (<[n := (step p (world s)).1]> (inflight s)))
  | sys_sign_in userData s :
      sys_step isUrl s (mkSys (upsertUser userData (world s)).2 (inflight s))
  | sys_tick t s :
      clock (world s) ≤ t →
      sys_step isUrl s
        (mkSys (mkWorld (db (world s)) t (entropy (world s)) (draws (world s)))
               (inflight s)).

(** The store after the migration: empty tables, sequences at 1. *)
Definition emptyDB : DB := mkDB [] [] [] [] 1 1 1.

Definition initial (s : Sys) : Prop :=
  db (world s) = emptyDB ∧ inflight s = [].

Definition reachable (isUrl : string → bool) (s : Sys) : Prop :=
  ∃ s0, initial s0 ∧ rtc (sys_step isUrl) s0 s.

(** ** Properties of the store *)

(** At most one claim row per item. *)
Definition at_most_one_claim (d : DB) : Prop :=
  ∀ itemId, (length (filter (λ c, Claim.itemId c = itemId) (claims d)) ≤ 1)%nat.

(** No item of a wishlist that is not there, no claim on an item that is
    not there. *)
Definition no_orphans (d : DB) : Prop :=
  (∀ i, i ∈ items d → Item.wishlistId i ∈ wishlistIds d) ∧
  (∀ c, c ∈ claims d → Claim.itemId c ∈ itemIds d).

(** The constraints declared in [shared/schema.ts]: primary keys, given
    from 1 on and below their sequence, unique columns, foreign keys; the
    ids of the users are strings that the store holds. *)
Record constraints_ok (d : DB) : Prop := mk_constraints_ok {
  ok_users_pkey : NoDup (userIds d);
  ok_wishlists_pkey : NoDup (wishlistIds d);
  ok_items_pkey : NoDup (itemIds d);
  ok_claims_pkey : NoDup (claimIds d);
  ok_wishlists_seq : ∀ i, i ∈ wishlistIds d → 1 ≤ i < wishlists_id_seq d;
  ok_items_seq : ∀ i, i ∈ itemIds d → 1 ≤ i < items_id_seq d;
  ok_claims_seq : ∀ i, i ∈ claimIds d → i < claims_id_seq d;
  ok_wishlists_seq_pos : 1 ≤ wishlists_id_seq d;
  ok_items_seq_pos : 1 ≤ items_id_seq d;
  ok_users_email_unique : NoDup (emails (users d));
  ok_share_token_unique : NoDup (shareTokens d);
  ok_claims_item_unique : NoDup (claimedItemIds d);
  ok_wishlists_user_fk : ∀ r, r ∈ wishlists d → Wishlist.userId r ∈ userIds d;
  ok_items_wishlist_fk : ∀ i, i ∈ items d → Item.wishlistId i ∈ wishlistIds d;
  ok_claims_item_fk : ∀ c, c ∈ claims d → Claim.itemId c ∈ itemIds d;
  ok_claims_user_fk : ∀ c, c ∈ claims d → Claim.userId c ∈ userIds d;
  ok_users_text : ∀ u, u ∈ userIds d → text u }.

(** The ids of the wishlists and of the items are values of their
    [integer] columns.  The sequences of the model have no end (that of an
    [integer] identity column ends at 2^31 - 1), so this holds of a store
    as long as its sequences have not passed that end. *)
Definition ids_int4 (d : DB) : Prop :=
  (∀ i, i ∈ wishlistIds d → int4 i) ∧ (∀ i, i ∈ itemIds d → int4 i).

(** The strings of the wishlists and of the items are values of their
    columns: within the declared lengths, and without U+0000. *)
Definition wishlist_strings_ok (r : Wishlist.t) : Prop :=
  strlen (Wishlist.name r) ≤ 255 ∧ strlen (Wishlist.shareToken r) ≤ 64 ∧
  text (Wishlist.name r) ∧ textOpt (Wishlist.description r) ∧
  text (Wishlist.shareToken r).

Definition item_strings_ok (i : Item.t) : Prop :=
  strlen (Item.name i) ≤ 255 ∧ fits 100 (Item.price i) ∧
  text (Item.name i) ∧ textOpt (Item.url i) ∧ textOpt (Item.description i) ∧
  textOpt (Item.price i) ∧ textOpt (Item.imageUrl i).

Definition lengths_ok (d : DB) : Prop :=
  (∀ r, r ∈ wishlists d → wishlist_strings_ok r) ∧
  (∀ i, i ∈ items d → item_strings_ok i).

(** A store of the schema: its constraints hold, and its ids and its
    strings are values of their columns. *)
Definition db_ok (d : DB) : Prop := constraints_ok d ∧ ids_int4 d ∧ lengths_ok d.

(** Every statement of a handler keeps [P]. *)
Inductive preserves (P : World → Prop) {A : Type} : Prog A → Prop :=
  | preserves_Ret a : preserves P (Ret a)
  | preserves_Throw e : preserves P (Throw e)
  | preserves_Await X (stmt : World → X * World) k :
      (∀ w, P w → P (stmt w).2) →
      (∀ x, preserves P (k x)) →
      preserves P (Await stmt k).

(** Modelled from the spec: the session layer ([server/replitAuth.ts],
    not among the sources) upserts the row of a user at sign-in, and user
    rows are never deleted: the user of an authenticated request has a row
    in [users]. *)
Definition signedIn (userId : string) (d : DB) : Prop := userId ∈ userIds d.

(** The owner of the wishlist of an item, as [POST .../claim] looks it
    up. *)
Definition ownerOf (itemId : Z) (d : DB) : option string :=
  match getItem itemId d with
  | inr (Some item) =>
      wishlist ← head (wishlistsById (Item.wishlistId item) d);
      Some (Wishlist.userId wishlist)
  | _ => None
  end.


(** The outcomes of claiming and unclaiming, as the routes send them. *)
Definition NotFound (message : string) : Response := mkResponse 404 (Message message).
Definition AlreadyClaimed : Response :=
  mkResponse 400 (Message "Item is already claimed").
Definition SelfClaimForbidden : Response :=
  mkResponse 400 (Message "You cannot claim items from your own wishlist").
Definition Created (c : Claim.t) : Response := mkResponse 201 (ClaimJson c).
Definition NoContent : Response := mkResponse 204 NoBody.
Definition StoreFailure (message : string) : Response := mkResponse 500 (Message message).

(** The path parameter of the routes that take an id, and the same request
    with another parameter. *)
Definition idParam (r : Request) : option string :=
  match r with
  | GetWishlist _ id | PatchWishlist _ id _ | DeleteWishlist _ id
  | PostItem _ id _ | PatchItem _ id _ | DeleteItem _ id
  | PostClaim _ id | DeleteClaim _ id => Some id
  | GetAuthUser _ | GetWishlists _ | GetSharedWishlist _ | PostWishlist _ _ => None
  end.

Definition withIdParam (id : string) (r : Request) : Request :=
  match r with
  | GetWishlist u _ => GetWishlist u id
  | PatchWishlist u _ b => PatchWishlist u id b
  | DeleteWishlist u _ => DeleteWishlist u id
  | PostItem u _ b => PostItem u id b
  | PatchItem u _ b => PatchItem u id b
  | DeleteItem u _ => DeleteItem u id
  | PostClaim u _ => PostClaim u id
  | DeleteClaim u _ => DeleteClaim u id
  | _ => r
  end.

(** The 400 answers of the [isNaN] guards. *)
Definition invalidId (r : Result Response) : Prop :=
  r = inr (mkResponse 400 (Message "Invalid wishlist ID")) ∨
  r = inr (mkResponse 400 (Message "Invalid item ID")).

(** In the words of the specification: the decimal integer a parameter
    begins with (an optional sign, then decimal digits), if it begins with
    one.  It is read digit by digit, with nothing of [parseInt]. *)
Fixpoint position (c : ascii) (s : string) (n : Z) : option Z :=
  match s with
  | String x r => if bool_decide (x = c) then Some n else position c r (n + 1)
  | EmptyString => None
  end.

(** The value of a decimal digit is its place among the ten digits. *)
Definition decimalDigit (c : ascii) : option Z := position c "0123456789" 0.

(** [read] is the integer read so far, if a digit has been read. *)
Fixpoint decimalDigits (s : string) (read : option Z) : option Z :=
  match s with
  | String c r =>
      match decimalDigit c with
      | Some d => decimalDigits r (Some (10 * default 0 read + d))
      | None => read
      end
  | EmptyString => read
  end.

Definition decimalPrefix (s : string) : option Z :=
  match s with
  | String "-" r => Z.opp <$> decimalDigits r None
  | String "+" r => decimalDigits r None
  | _ => decimalDigits s None
  end.

(** A parameter that begins with [0x] or [0X], after an optional sign. *)
Definition hexPrefixed (s : string) : bool :=
  existsb (λ p, String.prefix p s) ["0x"; "0X"; "-0x"; "-0X"; "+0x"; "+0X"].

(** The columns of a wishlist and of an item that no update may change. *)
Definition wishlist_frame (r r' : Wishlist.t) : Prop :=
  Wishlist.id r' = Wishlist.id r ∧ Wishlist.userId r' = Wishlist.userId r ∧
  Wishlist.shareToken r' = Wishlist.shareToken r ∧
  Wishlist.createdAt r' = Wishlist.createdAt r.

Definition item_frame (i i' : Item.t) : Prop :=
  Item.id i' = Item.id i ∧ Item.wishlistId i' = Item.wishlistId i ∧
  Item.createdAt i' = Item.createdAt i.

(** Every writing statement of [DatabaseStorage] keeps [Q]. *)
Record storage_keeps (Q : DB → Prop) : Prop := mk_storage_keeps {
  keeps_upsertUser : ∀ userData w, Q (db w) → Q (db (upsertUser userData w).2);
  keeps_createWishlist : ∀ data w, Q (db w) → Q (db (createWishlist data w).2);
  keeps_updateWishlist :
    ∀ id userId data w, Q (db w) → Q (db (updateWishlist id userId data w).2);
  keeps_deleteWishlist : ∀ id userId w, Q (db w) → Q (db (deleteWishlist id userId w).2);
  keeps_createItem : ∀ data w, Q (db w) → Q (db (createItem data w).2);
  keeps_updateItem :
    ∀ id userId data w, Q (db w) → Q (db (updateItem id userId data w).2);
  keeps_deleteItem : ∀ id userId w, Q (db w) → Q (db (deleteItem id userId w).2);
  keeps_createClaim : ∀ data w, Q (db w) → Q (db (createClaim data w).2);
  keeps_deleteClaim : ∀ itemId userId w, Q (db w) → Q (db (deleteClaim itemId userId w).2) }.

(** What is kept while the server runs: [Q] holds of the store, and no
    request being handled has a statement ahead that breaks it. *)
Definition sys_inv (Q : DB → Prop) (s : Sys) : Prop :=
  Q (db (world s)) ∧ Forall (preserves (λ w, Q (db w))) (inflight s).

(** ** A running example

    The scenario of the specification: the wishlist "Birthday" of [owner]
    with the item "Headphones", and two other users. *)
Module Example.

Definition user (id : string) : User.t :=
  User.mk id None None None None (Some 100) (Some 100).

Definition birthday : Wishlist.t :=
  Wishlist.mk 1 "owner" "Birthday" None "5f2c" 100 100.

Definition headphones : Item.t :=
  Item.mk 1 1 "Headphones" None None (Some "$99.99") None 100 100.

Definition store : DB :=
  mkDB [user "owner"; user "alice"; user "bob"] [birthday] [headphones] [] 2 2 1.

(** The first token that [randomBytes] gives is the one of "Birthday",
    the next ones are free. *)
Definition tokens (n : nat) : string :=
  match n with O => "5f2c" | _ => "a81d" end.

Definition start : World := mkWorld store 100 tokens 0.

(** The same after alice has claimed the headphones. *)
Definition aliceClaim : Claim.t := Claim.mk 1 1 "alice" 100.

Definition claimed : World :=
  mkWorld (mkDB (users store) [birthday] [headphones] [aliceClaim] 2 2 2) 100 tokens 0.

Definition anyUrl (s : string) : bool := true.

(** A world with no row at all, and the server before its first request. *)
Definition empty : World := mkWorld emptyDB 100 tokens 0.

Definition boot : Sys := mkSys empty [].

(** The server after it has signed the three users in and answered the
    requests of [owner] for the wishlist and the item, then the claim of
    alice. *)
Definition served : Sys :=
  mkSys (mkWorld (mkDB (users store) [birthday] [headphones] [aliceClaim] 2 2 2)
                 100 tokens 1)
    [Ret (mkResponse 201 (WishlistJson birthday));
     Ret (mkResponse 201 (ItemJson headphones));
     Ret (mkResponse 201 (ClaimJson aliceClaim))].

(** bob has claimed the headphones while alice's request was between its
    checks and its insert. *)
Definition bobClaim : Claim.t := Claim.mk 1 1 "bob" 100.

Definition claimedByBob : World :=
  mkWorld (mkDB (users store) [birthday] [headphones] [bobClaim] 2 2 2) 100 tokens 0.

Definition body (fields : list (string * jsval)) : ReqBody :=
  Some (list_to_map fields).

(** alice has a wishlist of her own, "Christmas", with a scarf on it. *)
Definition christmas : Wishlist.t :=
  Wishlist.mk 2 "alice" "Christmas" None "a81d" 100 100.




End Example.

(** ** More properties of the store and of the requests *)

(** The user a request is made by ([req.user.claims.sub]); the route of
    the shared view has none. *)
Definition requestUser (r : Request) : option string :=
  match r with
  | GetAuthUser u | GetWishlists u | GetWishlist u _ | PostWishlist u _
  | PatchWishlist u _ _ | DeleteWishlist u _ | PostItem u _ _ | PatchItem u _ _
  | DeleteItem u _ | PostClaim u _ | DeleteClaim u _ => Some u
  | GetSharedWishlist _ => None
  end.

(** What is not [u]'s in the store [d]: the wishlists of the other users,
    the items of wishlists that were not [u]'s in [d0], and the claims of
    other users on such items. *)
Definition wishlistsOfOthers (u : string) (d : DB) : list Wishlist.t :=
  filter (λ r, Wishlist.userId r ≠ u) (wishlists d).

Definition itemsOfOthers (u : string) (d0 d : DB) : list Item.t :=
  filter (λ i, Item.wishlistId i ∉ ownedWishlistIds u d0) (items d).

Definition ownedItemIds (u : string) (d : DB) : list Z :=
  Item.id <$> filter (λ i, Item.wishlistId i ∈ ownedWishlistIds u d) (items d).

Definition claimsOfOthers (u : string) (d0 d : DB) : list Claim.t :=
  filter (λ c, Claim.userId c ≠ u ∧ Claim.itemId c ∉ ownedItemIds u d0) (claims d).

(** The row that [createWishlist] inserts for [u] in [w], and the world
    with it. *)
Definition newWishlist (u : string) (data : InsertWishlistInput.t) (w : World)
    : Wishlist.t :=
  Wishlist.mk (wishlists_id_seq (db w)) u (InsertWishlistInput.name data)
    (InsertWishlistInput.description data) (entropy w (draws w)) (clock w) (clock w).

Definition withNewWishlist (u : string) (data : InsertWishlistInput.t) (w : World)
    : World :=
  mkWorld (set_wishlists (wishlists (db w) ++ [newWishlist u data w])
             (next_wishlists_id (db w)))
    (clock w) (entropy w) (S (draws w)).

(** The statuses that the routes send. *)
Definition statuses : list Z := [200; 201; 204; 400; 404; 500].

(** An item as the two wishlist views show it: its claim and the user of
    the claim, when both rows are there. *)
Definition viewOf (d : DB) (i : Item.t) : ItemWithClaim.t :=
  ItemWithClaim.mk i
    (c ← claimByItemId (Item.id i) d; u ← userById (Claim.userId c) d; Some (c, u)).

(** ** The client ([client/src]) *)

(** A number that is an integer in a template literal ([`${item.id}`]):
    [Number::toString] (ECMAScript 6.1.6.1.20).  Below 10^21 it is the
    decimal digits; from 10^21 on, the fewest digits that still round to
    the number, with an exponent; [-] is in front of a negative one. *)
Definition digitChar (d : Z) : ascii := ascii_of_nat (Z.to_nat (48 + d)).

Fixpoint natDigits (fuel : nat) (n : Z) (acc : string) : string :=
  match fuel with
  | O => acc
  | S fuel =>
      let acc' := String (digitChar (n mod 10)) acc in
      if bool_decide (n < 10) then acc' else natDigits fuel (n / 10) acc'
  end.

Definition digitsOf (n : Z) : string := natDigits (S (Z.to_nat (Z.log2 n))) n "".

(** The digits [s], [k] of them and as few as can be, for which
    [s × 10^(n - k)] rounds to [x]; of two such [s], the one that is
    nearer to [x].  A double needs no more than 17. *)
Fixpoint shortestDigits (fuel : nat) (k n x : Z) : Z :=
  let p := 10 ^ (n - k) in
  let lo := x / p in
  let hi := lo + 1 in
  match fuel with
  | O => lo
  | S fuel =>
      let okLo := bool_decide (roundDouble (lo * p) = x) in
      let okHi := bool_decide (hi < 10 ^ k ∧ roundDouble (hi * p) = x) in
      let nearerLo :=
        bool_decide (x - lo * p < hi * p - x ∨
                     (x - lo * p = hi * p - x ∧ Z.even lo = true)) in
      if okLo && okHi then (if nearerLo then lo else hi)
      else if okLo then lo
      else if okHi then hi
      else shortestDigits fuel (k + 1) n x
  end.

Definition exponential (x : Z) : string :=
  let n := strlen (digitsOf x) in
  match digitsOf (shortestDigits 17 1 n x) with
  | String c r =>
      String c ((if bool_decide (r = "") then "" else String "." r) +:+
                "e+" +:+ digitsOf (n - 1))
  | EmptyString => EmptyString
  end.

Definition toString (n : Z) : string :=
  let a := Z.abs n in
  let digits :=
    if bool_decide (infinity ≤ a) then "Infinity"
    else if bool_decide (a < 10 ^ 21) then digitsOf a
    else exponential a in
  if bool_decide (n < 0) then String "-" digits else digits.

(** Strings of decimal digits. *)
Fixpoint allDigits (s : string) : Prop :=
  match s with
  | String c r => (∃ d, 0 ≤ d < 10 ∧ c = digitChar d) ∧ allDigits r
  | EmptyString => True
  end.

(** [pages/home.tsx] and [pages/shared-wishlist.tsx]: what the page of a
    wishlist computes from the response of its GET request.  [user] is the
    user of [useAuth()], if any. *)
Module WishlistPage.

(** [wishlist.items.filter(item => item.claim).length] *)
Definition claimedCount (items : list ItemWithClaim.t) : Z :=
  Z.of_nat (length (filter (λ item, is_Some (ItemWithClaim.claim item)) items)).

(** [wishlist.items.length] *)
Definition totalCount (items : list ItemWithClaim.t) : Z :=
  Z.of_nat (length items).


End WishlistPage.

(** [components/item-card.tsx] *)
Module ItemCard.







End ItemCard.

(** [components/add-item-dialog.tsx], [components/edit-item-dialog.tsx]
    and the two wishlist dialogs: the data of a form goes out as the JSON
    body of the request, a key for each value that is not [undefined]. *)
Definition withField (key : string) (value : option string) (o : gmap string jsval)
    : gmap string jsval :=
  match value with
  | Some s => <[key := JString s]> o
  | None => o
  end.

Definition wishlistBody (data : InsertWishlistInput.t) : ReqBody :=
  Some (withField "description" (InsertWishlistInput.description data)
          (<["name" := JString (InsertWishlistInput.name data)]> ∅)).

Definition itemBody (data : InsertItemInput.t) : ReqBody :=
  Some (withField "imageUrl" (InsertItemInput.imageUrl data)
       (withField "price" (InsertItemInput.price data)
       (withField "description" (InsertItemInput.description data)
       (withField "url" (InsertItemInput.url data)
          (<["name" := JString (InsertItemInput.name data)]> ∅))))).

(** The values that the edit form of an item starts with:
    [{ name: item.name, url: item.url || "", ... }]. *)
Definition editItemDefaults (item : Item.t) : InsertItemInput.t :=
  InsertItemInput.mk (Item.name item)
    (Some (default "" (Item.url item)))
    (Some (default "" (Item.description item)))
    (Some (default "" (Item.price item)))
    (Some (default "" (Item.imageUrl item))).

(** The same for a wishlist: [{ name, description: wishlist.description || "" }]. *)
Definition editWishlistDefaults (wishlist : Wishlist.t) : InsertWishlistInput.t :=
  InsertWishlistInput.mk (Wishlist.name wishlist)
    (Some (default "" (Wishlist.description wishlist))).

(** Nothing that is not [u]'s differs between [d] and [d']. *)
Definition untouched (u : string) (d d' : DB) : Prop :=
  users d' = users d ∧
  wishlistsOfOthers u d' = wishlistsOfOthers u d ∧
  itemsOfOthers u d d' = itemsOfOthers u d d ∧
  claimsOfOthers u d d' = claimsOfOthers u d d.

(** The row that [createItem] inserts in the wishlist [wishlistId] in [w],
    and the world with it. *)
Definition newItem (wishlistId : Z) (data : InsertItemInput.t) (w : World) : Item.t :=
  Item.mk (items_id_seq (db w)) wishlistId (InsertItemInput.name data)
    (InsertItemInput.url data) (InsertItemInput.description data)
    (InsertItemInput.price data) (InsertItemInput.imageUrl data) (clock w) (clock w).

Definition withNewItem (wishlistId : Z) (data : InsertItemInput.t) (w : World) : World :=
  set_db (set_items (items (db w) ++ [newItem wishlistId data w]) (next_items_id (db w))) w.


(** The same for the parsed data of a PATCH. *)
Definition partialWishlistText (data : PartialWishlistInput.t) : Prop :=
  textOpt (PartialWishlistInput.name data) ∧
  textOpt (PartialWishlistInput.description data).

Definition partialItemText (data : PartialItemInput.t) : Prop :=
  textOpt (PartialItemInput.name data) ∧ textOpt (PartialItemInput.url data) ∧
  textOpt (PartialItemInput.description data) ∧ textOpt (PartialItemInput.price data) ∧
  textOpt (PartialItemInput.imageUrl data).

(** A string that [varchar(n)] holds, as it is or cut to [n] characters,
    and what it holds of it. *)
Definition storable (n : Z) (o : option string) : Prop :=
  match o with
  | Some s => strlen s ≤ n ∨ spaces (dropS (Z.to_nat n) s)
  | None => True
  end.

#[global] Instance storable_dec n o : Decision (storable n o).
Proof. destruct o; simpl; apply _. Defined.

Definition stored (n : Z) (s : string) : string :=
  if bool_decide (strlen s ≤ n) then s else takeS (Z.to_nat n) s.

(** The data of a PATCH of an item with the price as its column holds
    it. *)
Definition priceStored (data : PartialItemInput.t) : PartialItemInput.t :=
  PartialItemInput.mk (PartialItemInput.name data) (PartialItemInput.url data)
    (PartialItemInput.description data) (stored 100 <$> PartialItemInput.price data)
    (PartialItemInput.imageUrl data).


(** The row that [updateWishlist] and [updateItem] write for a row that
    the update hits, with the parsed data of a PATCH at the time [now]. *)
Definition editedWishlist (data : PartialWishlistInput.t) (now : Z) (r : Wishlist.t)
    : Wishlist.t :=
  Wishlist.mk (Wishlist.id r) (Wishlist.userId r)
    (default (Wishlist.name r) (PartialWishlistInput.name data))
    (default (Wishlist.description r) (Some <$> PartialWishlistInput.description data))
    (Wishlist.shareToken r) (Wishlist.createdAt r) now.

Definition editedItem (data : PartialItemInput.t) (now : Z) (i : Item.t) : Item.t :=
  Item.mk (Item.id i) (Item.wishlistId i)
    (default (Item.name i) (PartialItemInput.name data))
    (default (Item.url i) (Some <$> PartialItemInput.url data))
    (default (Item.description i) (Some <$> PartialItemInput.description data))
    (default (Item.price i) (Some <$> PartialItemInput.price data))
    (default (Item.imageUrl i) (Some <$> PartialItemInput.imageUrl data))
    (Item.createdAt i) now.

(** The data of a full form as the partial schema of a PATCH parses it. *)
Definition asPartialWishlist (data : InsertWishlistInput.t) : PartialWishlistInput.t :=
  PartialWishlistInput.mk (Some (InsertWishlistInput.name data))
    (InsertWishlistInput.description data).

Definition asPartialItem (data : InsertItemInput.t) : PartialItemInput.t :=
  PartialItemInput.mk (Some (InsertItemInput.name data)) (InsertItemInput.url data)
    (InsertItemInput.description data) (InsertItemInput.price data)
    (InsertItemInput.imageUrl data).

(** ** More of the running example *)
Module Scenario.

(** The example store when the next generated token is free. *)
Definition fresh : World := mkWorld Example.store 100 Example.tokens 1.

(** A fourth user signs in. *)
Definition carol : UpsertUser.t := UpsertUser.mk "carol" None None None None.

(** The server of the example after alice has taken her claim back. *)
Definition later : Sys :=
  mkSys (mkWorld (mkDB (users Example.store) [Example.birthday] [Example.headphones] [] 2 2 2)
                 100 Example.tokens 1)
    [Ret (mkResponse 201 (WishlistJson Example.birthday));
     Ret (mkResponse 201 (ItemJson Example.headphones));
     Ret (mkResponse 201 (ClaimJson Example.aliceClaim));
     Ret (mkResponse 204 NoBody)].

(** A price of 101 digits, and one that is "$5" and 120 spaces. *)
Fixpoint copies (n : nat) (c : ascii) : string :=
  match n with
  | O => EmptyString
  | S n => String c (copies n c)
  end.

Definition tooLong : string := copies 101 "9".


(** Bodies and parsed data of the requests of the example. *)
Definition christmas : InsertWishlistInput.t := InsertWishlistInput.mk "Christmas" None.

Definition socks : InsertItemInput.t := InsertItemInput.mk "Socks" None None None None.

Definition rename : PartialWishlistInput.t := PartialWishlistInput.mk (Some "Fortieth") None.

Definition reprice : PartialItemInput.t :=
  PartialItemInput.mk None None None (Some "$89.99") None.


Definition claimedCard : ItemWithClaim.t :=
  ItemWithClaim.mk Example.headphones (Some (Example.aliceClaim, Example.user "alice")).

End Scenario.

(** * Proofs *)

(** ** Lists: [filter], [head] and keys *)

Section Lists.
Context {A : Type} (P : A → Prop) `{Pdec : !∀ x, Decision (P x)}.

Lemma filter_none (l : list A) : (∀ x, x ∈ l → ¬ P x) → filter P l = [].
Proof.
  induction l as [|a l IH]; intros H; [done|].
  rewrite filter_cons_False; [|apply H; left]. apply IH.
  intros x Hx. apply H. by right.
Qed.

Lemma filter_all (l : list A) : (∀ x, x ∈ l → P x) → filter P l = l.
Proof.
  induction l as [|a l IH]; intros H; [done|].
  rewrite filter_cons_True; [|apply H; left]. f_equal. apply IH.
  intros x Hx. apply H. by right.
Qed.

Lemma head_filter_None (l : list A) :
  head (filter P l) = None ↔ ∀ x, x ∈ l → ¬ P x.
Proof.
  rewrite head_None. split.
  - intros H x Hx HP. eapply filter_nil_not_elem_of; eauto.
  - apply filter_none.
Qed.

Lemma filter_ext_in (Q : A → Prop) `{Qdec : !∀ x, Decision (Q x)} (l : list A) :
  (∀ x, x ∈ l → P x ↔ Q x) → filter P l = filter Q l.
Proof.
  induction l as [|a l IH]; intros H; [done|].
  assert (filter P l = filter Q l) as E by (apply IH; intros x Hx; apply H; by right).
  rewrite !filter_cons, E.
  destruct (decide (P a)) as [Ha|Ha], (decide (Q a)) as [Hb|Hb];
    try done; exfalso; apply (H a) in Ha || apply (H a) in Hb; try done; left.
Qed.

Lemma NoDup_fmap_filter {B} (f : A → B) (l : list A) :
  NoDup (f <$> l) → NoDup (f <$> filter P l).
Proof.
  intros H. eapply sublist_NoDup; [done|]. apply fmap_sublist, sublist_filter.
Qed.


Lemma filter_first (l : list A) : filter P l ≠ [] → ∃ x, x ∈ l ∧ P x.
Proof.
  destruct (filter P l) as [|x k] eqn:E; [done|]. intros _. exists x.
  assert (x ∈ filter P l) as [? ?]%list_elem_of_filter by (rewrite E; left). done.
Qed.
End Lists.

Lemma NoDup_fmap_elem_inj {A B} (f : A → B) (l : list A) x y :
  NoDup (f <$> l) → x ∈ l → y ∈ l → f x = f y → x = y.
Proof.
  induction l as [|a l IH]; [by intros _ ?%not_elem_of_nil|].
  rewrite fmap_cons, NoDup_cons, list_elem_of_fmap.
  intros [Hn Hl] [->|Hx]%elem_of_cons [->|Hy]%elem_of_cons E; eauto.
  - exfalso. apply Hn. eauto.
  - exfalso. apply Hn. eauto.
Qed.

Lemma NoDup_snoc_fresh {A} (l : list A) x : NoDup l → x ∉ l → NoDup (l ++ [x]).
Proof.
  intros Hl Hx. apply NoDup_app. split; [done|]. split; [|apply NoDup_singleton].
  by intros y Hy ->%list_elem_of_singleton.
Qed.

Lemma fmap_key_same {A B} (g : A → B) (f : A → A) (l : list A) :
  (∀ x, g (f x) = g x) → g <$> (f <$> l) = g <$> l.
Proof.
  intros H. rewrite <- list_fmap_compose. apply list_fmap_ext. intros ? x _. apply H.
Qed.

Lemma fmap_replace_key {A B} (g : A → B) `{!EqDecision B} (k : B) (row : A) (l : list A) :
  g row = k → g <$> ((λ u, if decide (g u = k) then row else u) <$> l) = g <$> l.
Proof. intros H. apply fmap_key_same. intros x. case_decide; congruence. Qed.

Lemma Forall2_fmap_self {A} (R : A → A → Prop) (f : A → A) (l : list A) :
  (∀ x, R x (f x)) → Forall2 R l (f <$> l).
Proof. intros H. induction l; constructor; auto. Qed.

Lemma Forall2_diag {A} (R : A → A → Prop) (l : list A) : (∀ x, R x x) → Forall2 R l l.
Proof. intros H. induction l; constructor; auto. Qed.

(** ** Lookups *)

Lemma userById_None id d : userById id d = None ↔ id ∉ userIds d.
Proof.
  unfold userById, userIds. rewrite head_filter_None, list_elem_of_fmap. split.
  - intros H (x & -> & Hx). by eapply H.
  - intros H x Hx <-. apply H. eauto.
Qed.

Lemma itemById_None i d : itemById i d = None ↔ i ∉ itemIds d.
Proof.
  unfold itemById, itemIds. rewrite head_filter_None, list_elem_of_fmap. split.
  - intros H (x & -> & Hx). by eapply H.
  - intros H x Hx <-. apply H. eauto.
Qed.

Lemma claimByItemId_None i d : claimByItemId i d = None ↔ i ∉ claimedItemIds d.
Proof.
  unfold claimByItemId, claimedItemIds. rewrite head_filter_None, list_elem_of_fmap. split.
  - intros H (x & -> & Hx). by eapply H.
  - intros H x Hx <-. apply H. eauto.
Qed.

Lemma itemById_Some i d : i ∈ itemIds d → ∃ item, itemById i d = Some item.
Proof.
  intros Hi. destruct (itemById i d) eqn:E; [eauto|]. by apply itemById_None in E.
Qed.

Lemma claimByItemId_Some i d : i ∈ claimedItemIds d → ∃ c, claimByItemId i d = Some c.
Proof.
  intros Hi. destruct (claimByItemId i d) eqn:E; [eauto|].
  by apply claimByItemId_None in E.
Qed.

(** The selects with parameters that the store takes. *)
Lemma getUser_text id d : text id → getUser id d = inr (userById id d).
Proof. intros H. unfold getUser. by rewrite bool_decide_eq_false_2 by (by intros H'). Qed.

Lemma getItem_int4 i d : int4 i → getItem i d = inr (itemById i d).
Proof. intros H. unfold getItem. by rewrite bool_decide_eq_false_2 by (by intros H'). Qed.

Lemma getClaim_int4 i d : int4 i → getClaim i d = inr (claimByItemId i d).
Proof. intros H. unfold getClaim. by rewrite bool_decide_eq_false_2 by (by intros H'). Qed.

Lemma getWishlist_int4 id u d :
  int4 id → text u → getWishlist id (Some u) d = inr (wishlistById id (Some u) d).
Proof.
  intros Hi Hu. unfold getWishlist.
  rewrite bool_decide_eq_false_2 by (by intros H').
  by rewrite bool_decide_eq_false_2 by (by intros H').
Qed.

Lemma getWishlists_text u d :
  text u → getWishlists u d = inr (filter (λ r, Wishlist.userId r = u) (wishlists d)).
Proof. intros H. unfold getWishlists. by rewrite bool_decide_eq_false_2 by (by intros H'). Qed.

Lemma getWishlistByShareToken_text token d :
  text token → getWishlistByShareToken token d = inr (wishlistByShareToken token d).
Proof.
  intros H. unfold getWishlistByShareToken.
  by rewrite bool_decide_eq_false_2 by (by intros H').
Qed.

(** A select that is refused. *)
Lemma getItem_refused i d : ¬ int4 i → getItem i d = inl (NumericValueOutOfRange "integer").
Proof. intros H. unfold getItem. by rewrite bool_decide_eq_true_2. Qed.

Lemma getWishlist_refused id u d :
  ¬ int4 id → getWishlist id u d = inl (NumericValueOutOfRange "integer").
Proof. intros H. unfold getWishlist. by rewrite bool_decide_eq_true_2. Qed.

Lemma set_db_id w : set_db (db w) w = w.
Proof. by destruct w. Qed.

Lemma set_claims_id d : set_claims (claims d) d = d.
Proof. by destruct d. Qed.

(** ** Values *)

Lemma pgText_inr s s' : pgText s = inr s' ↔ s' = s ∧ text s.
Proof.
  unfold pgText. case_bool_decide; split; try done.
  - by intros [= <-].
  - by intros [-> _].
  - by intros [_ ?].
Qed.

Lemma integer_inr n n' : integer n = inr n' ↔ n' = n ∧ int4 n.
Proof.
  unfold integer. case_bool_decide; split; try done.
  - by intros [= <-].
  - by intros [-> _].
  - by intros [_ ?].
Qed.




Lemma varchar_inr_text n column s s' : varchar n column s = inr s' → text s.
Proof. unfold varchar. by case_bool_decide as H. Qed.

(** A string that fits is stored as it is. *)
Lemma varchar_fits n column s : text s → strlen s ≤ n → varchar n column s = inr s.
Proof.
  intros Ht Hl. unfold varchar. rewrite bool_decide_eq_false_2 by (by intros H').
  by rewrite bool_decide_eq_true_2.
Qed.

Lemma shareTokenValue_inr s s' :
  shareTokenValue s = inr s' ↔ s' = s ∧ text s ∧ strlen s ≤ 64.
Proof.
  unfold shareTokenValue. case_bool_decide; [split; [done|by intros (_ & ? & _)]|].
  case_bool_decide; [split; [done|intros (_ & _ & ?); lia]|].
  split; [intros [= <-]; split; [done|split; [done|lia]] | by intros [-> _]].
Qed.

Lemma wishlistValues_inr data v :
  wishlistValues data = inr v →
  pgText (InsertWishlist.userId data) = inr (InsertWishlist.userId v) ∧
  varchar 255 "name" (InsertWishlist.name data) = inr (InsertWishlist.name v) ∧
  optional pgText (InsertWishlist.description data) = inr (InsertWishlist.description v) ∧
  InsertWishlist.createdAt v = InsertWishlist.createdAt data ∧
  InsertWishlist.updatedAt v = InsertWishlist.updatedAt data.
Proof.
  unfold wishlistValues.
  destruct (pgText _) as [?|a1]; [done|]. destruct (varchar _ _ _) as [?|a2]; [done|].
  destruct (optional _ _) as [?|a3]; [done|]. cbn. by intros [= <-].
Qed.

Lemma wishlistSetValues_inr data v :
  wishlistSetValues data = inr v →
  optional pgText (PartialInsertWishlist.userId data) = inr (PartialInsertWishlist.userId v) ∧
  optional (varchar 255 "name") (PartialInsertWishlist.name data) =
    inr (PartialInsertWishlist.name v) ∧
  optional (optional pgText) (PartialInsertWishlist.description data) =
    inr (PartialInsertWishlist.description v) ∧
  optional shareTokenValue (PartialInsertWishlist.shareToken data) =
    inr (PartialInsertWishlist.shareToken v) ∧
  PartialInsertWishlist.createdAt v = PartialInsertWishlist.createdAt data ∧
  PartialInsertWishlist.updatedAt v = PartialInsertWishlist.updatedAt data.
Proof.
  unfold wishlistSetValues.
  destruct (optional pgText _) as [?|a1]; [done|].
  destruct (optional (varchar _ _) _) as [?|a2]; [done|].
  destruct (optional (optional _) _) as [?|a3]; [done|].
  destruct (optional shareTokenValue _) as [?|a4]; [done|]. cbn. by intros [= <-].
Qed.

Lemma itemValues_inr data v :
  itemValues data = inr v →
  integer (InsertItem.wishlistId data) = inr (InsertItem.wishlistId v) ∧
  varchar 255 "name" (InsertItem.name data) = inr (InsertItem.name v) ∧
  optional pgText (InsertItem.url data) = inr (InsertItem.url v) ∧
  optional pgText (InsertItem.description data) = inr (InsertItem.description v) ∧
  optional (varchar 100 "price") (InsertItem.price data) = inr (InsertItem.price v) ∧
  optional pgText (InsertItem.imageUrl data) = inr (InsertItem.imageUrl v) ∧
  InsertItem.createdAt v = InsertItem.createdAt data ∧
  InsertItem.updatedAt v = InsertItem.updatedAt data.
Proof.
  unfold itemValues.
  destruct (integer _) as [?|a1]; [done|].
  destruct (varchar 255 _ _) as [?|a2]; [done|].
  destruct (optional pgText (InsertItem.url data)) as [?|a3]; [done|].
  destruct (optional pgText (InsertItem.description data)) as [?|a4]; [done|].
  destruct (optional (varchar 100 _) _) as [?|a5]; [done|].
  destruct (optional pgText (InsertItem.imageUrl data)) as [?|a6]; [done|].
  cbn. by intros [= <-].
Qed.

Lemma itemSetValues_inr data v :
  itemSetValues data = inr v →
  optional integer (PartialInsertItem.wishlistId data) =
    inr (PartialInsertItem.wishlistId v) ∧
  optional (varchar 255 "name") (PartialInsertItem.name data) =
    inr (PartialInsertItem.name v) ∧
  optional (optional pgText) (PartialInsertItem.url data) = inr (PartialInsertItem.url v) ∧
  optional (optional pgText) (PartialInsertItem.description data) =
    inr (PartialInsertItem.description v) ∧
  optional (optional (varchar 100 "price")) (PartialInsertItem.price data) =
    inr (PartialInsertItem.price v) ∧
  optional (optional pgText) (PartialInsertItem.imageUrl data) =
    inr (PartialInsertItem.imageUrl v) ∧
  PartialInsertItem.createdAt v = PartialInsertItem.createdAt data ∧
  PartialInsertItem.updatedAt v = PartialInsertItem.updatedAt data.
Proof.
  unfold itemSetValues.
  destruct (optional integer _) as [?|a1]; [done|].
  destruct (optional (varchar 255 _) _) as [?|a2]; [done|].
  destruct (optional (optional pgText) (PartialInsertItem.url data)) as [?|a3]; [done|].
  destruct (optional (optional pgText) (PartialInsertItem.description data)) as [?|a4];
    [done|].
  destruct (optional (optional (varchar 100 _)) _) as [?|a5]; [done|].
  destruct (optional (optional pgText) (PartialInsertItem.imageUrl data)) as [?|a6];
    [done|].
  cbn. by intros [= <-].
Qed.

Lemma optional_None {A} (f : A → Result A) o : optional f None = inr o → o = None.
Proof. by intros [= <-]. Qed.

Lemma optional_pgText_inr o o' : optional pgText o = inr o' ↔ o' = o ∧ textOpt o.
Proof.
  destruct o as [s|]; cbn.
  - destruct (pgText s) as [e|s'] eqn:E.
    + split; [done|]. intros [-> H]. by rewrite (proj2 (pgText_inr s s) (conj eq_refl H)) in E.
    + apply pgText_inr in E as [-> H]. split; [by intros [= <-]|by intros [-> _]].
  - split; [by intros [= <-]|by intros [-> _]].
Qed.


Lemma optional_varchar_fits n column o :
  textOpt o → fits n o → optional (varchar n column) o = inr o.
Proof. destruct o as [s|]; cbn; [|done]. intros Ht Hl. by rewrite varchar_fits. Qed.

Lemma createWishlist_values data token v t :
  andThen (wishlistValues data) (λ v, andThen (shareTokenValue token) (λ t, inr (v, t))) =
    inr (v, t) →
  wishlistValues data = inr v ∧ t = token ∧ text token ∧ strlen token ≤ 64.
Proof.
  destruct (wishlistValues data) as [e|v']; [done|]. cbn.
  destruct (shareTokenValue token) as [e|t'] eqn:Et; [done|]. cbn. intros [= <- <-].
  by apply shareTokenValue_inr in Et as (-> & ? & ?).
Qed.

(** ** [parseInt] *)

Lemma roundDouble_safe n : Z.abs n ≤ 2 ^ 53 → roundDouble n = n.
Proof.
  intros Hn. unfold roundDouble.
  destruct (decide (Z.abs n = 2 ^ 53)) as [E|E].
  - rewrite E. destruct (Z.abs_spec n) as [[_ En]|[_ En]]; rewrite E in En.
    + by rewrite <- En.
    + assert (n = - 2 ^ 53) as -> by lia. reflexivity.
  - rewrite bool_decide_eq_true_2; [done|].
    destruct (decide (Z.abs n = 0)) as [->|E0]; [done|].
    assert (Z.log2 (Z.abs n) < 53); [|lia].
    apply Z.log2_lt_pow2; lia.
Qed.

Lemma int4_safe n : int4 n → Z.abs n ≤ 2 ^ 53.
Proof. unfold int4. intros H. change (2 ^ 53) with 9007199254740992. lia. Qed.

Lemma radixDigit_decimal c : radixDigit 10 c = decimalDigit c.
Proof. destruct c as [[] [] [] [] [] [] [] []]; by vm_compute. Qed.

Lemma decimalDigits_read s a :
  decimalDigits s (Some a) =
    Some (fold_left (λ acc d, acc * 10 + d) (digitsPrefix 10 s) a).
Proof.
  revert a. induction s as [|c r IH]; intros a; [done|]. cbn -[decimalDigit].
  rewrite radixDigit_decimal. destruct (decimalDigit c) as [d|]; [|done].
  cbn. rewrite IH. do 2 f_equal. lia.
Qed.

Lemma decimalDigits_none s :
  decimalDigits s None =
    match digitsPrefix 10 s with
    | [] => None
    | ds => Some (numberOf 10 ds)
    end.
Proof.
  destruct s as [|c r]; [done|]. cbn -[decimalDigit].
  rewrite radixDigit_decimal. destruct (decimalDigit c) as [d|]; [|done].
  cbn. by rewrite decimalDigits_read.
Qed.

Lemma decimalPrefix_sign s :
  decimalPrefix s =
    let '(sign, r) := readSign s in
    match digitsPrefix 10 r with
    | [] => None
    | ds => Some (sign * numberOf 10 ds)
    end.
Proof.
  destruct s as [|c r]; [done|].
  destruct (decide (c = "-"%char)) as [->|Hm].
  { unfold readSign. rewrite bool_decide_eq_true_2 by done.
    cbn. rewrite decimalDigits_none. destruct (digitsPrefix 10 r); [done|].
    cbn; f_equal; lia. }
  destruct (decide (c = "+"%char)) as [->|Hp].
  { unfold readSign. rewrite bool_decide_eq_false_2 by done.
    rewrite bool_decide_eq_true_2 by done.
    cbn. rewrite decimalDigits_none. destruct (digitsPrefix 10 r); [done|].
    cbn; f_equal; lia. }
  assert (decimalPrefix (String c r) = decimalDigits (String c r) None) as ->.
  { by destruct c as [[] [] [] [] [] [] [] []]. }
  unfold readSign. rewrite !bool_decide_eq_false_2 by done.
  rewrite decimalDigits_none. destruct (digitsPrefix 10 (String c r)); [done|].
  f_equal; lia.
Qed.

Lemma readRadix_decimal s :
  (∀ r, s ≠ String "0" (String "x" r)) → (∀ r, s ≠ String "0" (String "X" r)) →
  readRadix s = (10, s).
Proof.
  intros Hx HX. destruct s as [|c [|x r]]; [done..|]. unfold readRadix.
  case_bool_decide as H; [|done]. destruct H as [-> [-> | ->]]; [by destruct (Hx r)|].
  by destruct (HX r).
Qed.

Lemma hexPrefixed_radix s :
  hexPrefixed s = false → readRadix (readSign s).2 = (10, (readSign s).2).
Proof.
  intros H. destruct s as [|c r]; [done|].
  destruct (decide (c = "-"%char)) as [->|Hm].
  { unfold readSign. rewrite bool_decide_eq_true_2 by done. cbn [snd].
    apply readRadix_decimal; intros r' ->; destruct r'; by vm_compute in H. }
  destruct (decide (c = "+"%char)) as [->|Hp].
  { unfold readSign. rewrite bool_decide_eq_false_2 by done.
    rewrite bool_decide_eq_true_2 by done. cbn [snd].
    apply readRadix_decimal; intros r' ->; destruct r'; by vm_compute in H. }
  unfold readSign. rewrite !bool_decide_eq_false_2 by done. cbn [snd].
  apply readRadix_decimal; intros r' E; injection E as -> ->; destruct r';
    by vm_compute in H.
Qed.

(** Where there is no [0x], [parseInt] is the decimal integer that the
    string begins with, rounded to a double. *)
Lemma parseInt_decimal s :
  hexPrefixed (trimStart s) = false →
  parseInt s = roundDouble <$> decimalPrefix (trimStart s).
Proof.
  rewrite decimalPrefix_sign. unfold parseInt.
  intros H%hexPrefixed_radix.
  destruct (readSign (trimStart s)) as [sign s2]. cbn in H. rewrite H.
  by destruct (digitsPrefix 10 s2).
Qed.

(** ** Handlers and invariants of their statements *)

Section Preserves.
Context (P : World → Prop).

Lemma preserves_bind {A B} (p : Prog A) (f : A → Prog B) :
  preserves P p → (∀ a, preserves P (f a)) → preserves P (p ≫= f).
Proof.
  intros Hp Hf. induction Hp as [a|e|X stmt k Hs Hk IH]; cbn.
  - apply Hf.
  - constructor.
  - constructor; [done|]. apply IH.
Qed.

Lemma preserves_try_catch {A} (p : Prog A) h :
  preserves P p → (∀ e, preserves P (h e)) → preserves P (try_catch p h).
Proof.
  intros Hp Hh. induction Hp as [a|e|X stmt k Hs Hk IH]; cbn.
  - constructor.
  - apply Hh.
  - constructor; [done|]. apply IH.
Qed.

Lemma preserves_query {X} (q : DB → X) : preserves P (query q).
Proof. constructor; [done|]. constructor. Qed.

Lemma preserves_await {X} (stmt : World → Result X * World) :
  (∀ w, P w → P (stmt w).2) → preserves P (await stmt).
Proof. constructor; [done|]. intros []; constructor. Qed.

Lemma preserves_respond code b : preserves P (respond code b).
Proof. constructor. Qed.

Lemma preserves_failed m e : preserves P (failed m e).
Proof. constructor. Qed.

Lemma preserves_run {A} (p : Prog A) w : preserves P p → P w → P (run p w).2.
Proof.
  intros Hp. revert w.
  induction Hp as [a|e|X stmt k Hs Hk IH]; intros w Hw; cbn; try done.
  specialize (Hs w Hw). destruct (stmt w) as [x w']. by apply IH.
Qed.

Lemma preserves_step {A} (p : Prog A) w :
  preserves P p → P w → preserves P (step p w).1 ∧ P (step p w).2.
Proof.
  intros Hp Hw. destruct Hp as [a|e|X stmt k Hs Hk]; cbn.
  - split; [constructor|done].
  - split; [constructor|done].
  - specialize (Hs w Hw). destruct (stmt w) as [x w']. split; [apply Hk|done].
Qed.
End Preserves.

(** A handler whose body is inside [try ... catch] with a handler that
    answers always ends with a response. *)
Lemma run_try_catch_responds {A} (p : Prog A) h w :
  (∀ e, ∃ a, h e = Ret a) → ∃ a, (run (try_catch p h) w).1 = inr a.
Proof.
  intros Hh. revert w. induction p as [a|e|X stmt k IH]; intros w; cbn.
  - eauto.
  - destruct (Hh e) as [a ->]. cbn. eauto.
  - destruct (stmt w) as [x w']. apply IH.
Qed.

Section Handlers.
Variable isUrl : string → bool.

Lemma handle_responds r w : ∃ response, (run (handle isUrl r) w).1 = inr response.
Proof.
  destruct r; cbn [handle];
    unfold get_auth_user, get_wishlists, get_wishlist, get_shared_wishlist, post_wishlist,
      patch_wishlist, delete_wishlist, post_item, patch_item, delete_item, post_claim,
      delete_claim;
    apply run_try_catch_responds; intros e; unfold failed, respond; eauto.
Qed.

Context (Q : DB → Prop) (HQ : storage_keeps Q).

Lemma allWithCounts_preserves l : preserves (λ w, Q (db w)) (allWithCounts l).
Proof.
  induction l as [|x l IH]; cbn; [constructor|].
  repeat (constructor; [done|]; intros ?). cbn.
  apply preserves_bind; [done|]. intros ?. constructor.
Qed.

Lemma handle_preserves r : preserves (λ w, Q (db w)) (handle isUrl r).
Proof.
  destruct HQ.
  destruct r; cbn [handle];
    unfold get_auth_user, get_wishlists, get_wishlist, get_shared_wishlist, post_wishlist,
      patch_wishlist, delete_wishlist, post_item, patch_item, delete_item, post_claim,
      delete_claim;
    apply preserves_try_catch; try apply preserves_failed.
  all: repeat first
    [ apply preserves_respond
    | apply allWithCounts_preserves
    | apply preserves_query
    | apply preserves_await; by intros ? ?
    | apply preserves_await; by auto
    | apply preserves_bind; [|intros ?]
    | case_match ].
Qed.

Lemma run_handle_keeps r w : Q (db w) → Q (db (run (handle isUrl r) w).2).
Proof. apply (preserves_run (λ w, Q (db w))), handle_preserves. Qed.

Lemma sys_step_inv s s' : sys_step isUrl s s' → sys_inv Q s → sys_inv Q s'.
Proof.
  intros Hstep [Hw Hp].
  destruct Hstep as [r s|n p s Hn|userData s|t s Ht]; split; cbn; try done.
  - apply Forall_app. split; [done|]. apply Forall_singleton, handle_preserves.
  - eapply (preserves_step (λ w, Q (db w))); [|done].
    eapply Forall_lookup_1; eauto.
  - apply Forall_insert; [done|].
    eapply (preserves_step (λ w, Q (db w))); [|done].
    eapply Forall_lookup_1; eauto.
  - by apply (keeps_upsertUser _ HQ).
Qed.

Lemma reachable_inv s : Q emptyDB → reachable isUrl s → Q (db (world s)).
Proof.
  intros H0 (s0 & [Hdb Hin] & Hsteps).
  assert (sys_inv Q s0) as Hinv.
  { split; [by rewrite Hdb|]. rewrite Hin. constructor. }
  clear Hdb Hin. induction Hsteps as [|s1 s2 s3 Hstep _ IH]; [apply Hinv|].
  apply IH. by eapply sys_step_inv.
Qed.
End Handlers.

(** ** At most one claim per item, statement by statement *)

Lemma at_most_one_claim_NoDup d : at_most_one_claim d ↔ NoDup (claimedItemIds d).
Proof.
  unfold at_most_one_claim, claimedItemIds. induction (claims d) as [|c l IH].
  - split; [constructor|]. intros _ ?. cbn; lia.
  - rewrite fmap_cons, NoDup_cons, <- IH, list_elem_of_fmap. split.
    + intros H. split.
      * intros (c' & Hc' & Hin). specialize (H (Claim.itemId c)).
        rewrite filter_cons_True in H by done.
        assert (c' ∈ filter (λ c0, Claim.itemId c0 = Claim.itemId c) l) as Hf
          by (apply list_elem_of_filter; auto).
        destruct (filter _ l); [by apply not_elem_of_nil in Hf | cbn in H; lia].
      * intros k. specialize (H k). rewrite filter_cons in H.
        destruct (decide _); cbn in H; lia.
    + intros [Hn H] k. rewrite filter_cons. destruct (decide _) as [<-|]; [|apply H].
      rewrite filter_none; [cbn; lia|]. intros x Hx Hk. apply Hn. eauto.
Qed.

Lemma at_most_one_claim_same d d' :
  claims d' = claims d → at_most_one_claim d → at_most_one_claim d'.
Proof. unfold at_most_one_claim. by intros ->. Qed.

Lemma at_most_one_claim_filter (P : Claim.t → Prop) `{!∀ c, Decision (P c)} d d' :
  claims d' = filter P (claims d) → at_most_one_claim d → at_most_one_claim d'.
Proof.
  rewrite !at_most_one_claim_NoDup. unfold claimedItemIds. intros ->.
  apply NoDup_fmap_filter.
Qed.

Lemma at_most_one_claim_kept : storage_keeps at_most_one_claim.
Proof.
  split.
  - intros data w. apply at_most_one_claim_same. unfold upsertUser.
    repeat case_match; done.
  - intros data w. apply at_most_one_claim_same. unfold createWishlist. cbn.
    repeat case_match; done.
  - intros id u data w. apply at_most_one_claim_same. unfold updateWishlist.
    repeat case_match; done.
  - intros id u w. unfold deleteWishlist. repeat (case_bool_decide; [done|]).
    eapply at_most_one_claim_filter. cbn. reflexivity.
  - intros data w. apply at_most_one_claim_same. unfold createItem.
    repeat case_match; done.
  - intros id u data w. apply at_most_one_claim_same. unfold updateItem.
    repeat case_match; done.
  - intros id u w. unfold deleteItem. repeat (case_bool_decide; [done|]).
    eapply at_most_one_claim_filter. cbn. reflexivity.
  - intros data w. unfold createClaim.
    repeat case_bool_decide; try by apply at_most_one_claim_same.
    rewrite !at_most_one_claim_NoDup. unfold claimedItemIds in *. cbn.
    rewrite fmap_app. intros Hn. by apply NoDup_snoc_fresh.
  - intros i u w. unfold deleteClaim. repeat (case_bool_decide; [done|]).
    eapply at_most_one_claim_filter. cbn. reflexivity.
Qed.

Lemma at_most_one_claim_empty : at_most_one_claim emptyDB.
Proof. intros i. cbn. lia. Qed.

(** ** Cascades leave no orphan *)

Lemma deleteWishlist_no_orphans id u w :
  no_orphans (db w) → no_orphans (db (deleteWishlist id u w).2).
Proof.
  intros [Hi Hc]. unfold deleteWishlist. repeat (case_bool_decide; [done|]).
  split; cbn.
  - intros i [Hn Hin]%list_elem_of_filter.
    pose proof (Hi i Hin) as (r & Hr & Hrin)%list_elem_of_fmap.
    rewrite Hr. apply list_elem_of_fmap_2, list_elem_of_filter. split; [|done].
    intros Hhit. apply Hn. rewrite Hr. by apply list_elem_of_fmap_2, list_elem_of_filter.
  - intros c [Hn Hin]%list_elem_of_filter.
    pose proof (Hc c Hin) as (i & Hci & Hiin)%list_elem_of_fmap.
    rewrite Hci. apply list_elem_of_fmap_2, list_elem_of_filter. split; [|done].
    intros Hgone. apply Hn. rewrite Hci. by apply list_elem_of_fmap_2, list_elem_of_filter.
Qed.

Lemma deleteItem_no_orphans id u w :
  no_orphans (db w) → no_orphans (db (deleteItem id u w).2).
Proof.
  intros [Hi Hc]. unfold deleteItem. repeat (case_bool_decide; [done|]).
  split; cbn.
  - intros i [Hn Hin]%list_elem_of_filter. by apply Hi.
  - intros c [Hn Hin]%list_elem_of_filter.
    pose proof (Hc c Hin) as (i & Hci & Hiin)%list_elem_of_fmap.
    rewrite Hci. apply list_elem_of_fmap_2, list_elem_of_filter. split; [|done].
    intros Hhit. apply Hn. rewrite Hci. by apply list_elem_of_fmap_2, list_elem_of_filter.
Qed.

Lemma constraints_ok_no_orphans d : constraints_ok d → no_orphans d.
Proof. intros []. by split. Qed.

Lemma db_ok_no_orphans d : db_ok d → no_orphans d.
Proof. intros [? _]. by apply constraints_ok_no_orphans. Qed.

(** ** The declared constraints hold after every statement *)






Lemma upsertUser_db userData w :
  let d' := db (upsertUser userData w).2 in
  wishlists d' = wishlists (db w) ∧ items d' = items (db w) ∧ claims d' = claims (db w) ∧
  wishlists_id_seq d' = wishlists_id_seq (db w) ∧ items_id_seq d' = items_id_seq (db w) ∧
  claims_id_seq d' = claims_id_seq (db w) ∧
  (userIds d' = userIds (db w) ∨
   ((UpsertUser.id userData ∉ userIds (db w)) ∧ text (UpsertUser.id userData) ∧
    userIds d' = (userIds (db w) ++ [UpsertUser.id userData])%list)).
Proof.
  unfold upsertUser. case_bool_decide as Ht; [by repeat split; auto|].
  case_bool_decide; [by repeat split; auto|].
  destruct Ht as [Ht _].
  destruct (userById _ _) as [old|] eqn:E; cbn; repeat split; auto.
  - left. unfold userIds. cbn. by rewrite fmap_replace_key.
  - right. apply userById_None in E. split; [done|]. split; [done|].
    unfold userIds. cbn. by rewrite fmap_app.
Qed.















(** ** Running a handler *)

Lemma run_bind {A B} (p : Prog A) (f : A → Prog B) w :
  run (p ≫= f) w =
    match run p w with
    | (inr a, w') => run (f a) w'
    | (inl e, w') => (inl e, w')
    end.
Proof.
  revert w. induction p as [a|e|X stmt k IH]; intros w; cbn; try done.
  destruct (stmt w) as [x w']. apply IH.
Qed.

Lemma run_try_catch {A} (p : Prog A) h w :
  run (try_catch p h) w =
    match run p w with
    | (inr a, w') => (inr a, w')
    | (inl e, w') => run (h e) w'
    end.
Proof.
  revert w. induction p as [a|e|X stmt k IH]; intros w; cbn; try done.
  destruct (stmt w) as [x w']. apply IH.
Qed.

Lemma run_query {X} (q : DB → X) w : run (query q) w = (inr (q (db w)), w).
Proof. reflexivity. Qed.

Lemma run_await {X} (stmt : World → Result X * World) w :
  run (await stmt) w = stmt w.
Proof. unfold await. cbn. by destruct (stmt w) as [[e|x] w']. Qed.

Lemma run_select {X} (q : DB → Result X) w : run (select q) w = (q (db w), w).
Proof. unfold select. by rewrite run_await. Qed.

Lemma run_allWithCounts l w :
  run (allWithCounts l) w =
    (inr ((λ r, WishlistWithCounts.mk r (itemCount (Wishlist.id r) (db w))
                  (claimedCount (Wishlist.id r) (db w))) <$> l), w).
Proof.
  induction l as [|r l IH]; [done|]. cbn. rewrite run_bind, IH. done.
Qed.

Lemma run_try_catch_failed m (p : Prog Response) w :
  (run (try_catch p (failed m)) w).2 = (run p w).2.
Proof. rewrite run_try_catch. by destruct (run p w) as [[e|a] w']. Qed.

Lemma run_await_bind {X B} (stmt : World → Result X * World) (f : X → Prog B) w :
  (∀ x w', (run (f x) w').2 = w') →
  (run (await stmt ≫= f) w).2 = (stmt w).2.
Proof.
  intros Hf. rewrite run_bind, run_await. destruct (stmt w) as [[e|x] w']; [done|].
  apply Hf.
Qed.

(** ** Rows found by their key *)

Lemma head_filter_Some {A} (P : A → Prop) `{!∀ x, Decision (P x)} (l : list A) x :
  head (filter P l) = Some x → x ∈ l ∧ P x.
Proof.
  intros Hh. assert (x ∈ filter P l) as Hx.
  { destruct (filter P l); simplify_eq/=. left. }
  apply list_elem_of_filter in Hx. tauto.
Qed.

Lemma head_filter_unique {A} (P : A → Prop) `{!∀ x, Decision (P x)} (l : list A) x :
  (∀ y, y ∈ l → P y → y = x) → x ∈ l → P x → head (filter P l) = Some x.
Proof.
  intros Huniq Hx HP. destruct (filter P l) as [|y l'] eqn:E.
  - exfalso. by eapply (filter_nil_not_elem_of _ _ x E).
  - cbn. f_equal. assert (y ∈ filter P l) as [? ?]%list_elem_of_filter
      by (rewrite E; left).
    by apply Huniq.
Qed.

Lemma getItem_inr i d o : getItem i d = inr o → int4 i ∧ o = itemById i d.
Proof. unfold getItem. case_bool_decide as H; [done|]. by intros [= <-]. Qed.

Lemma db_ok_item_int4 d i : db_ok d → i ∈ itemIds d → int4 i.
Proof. intros (_ & [_ H] & _). apply H. Qed.

Lemma db_ok_wishlist_int4 d i : db_ok d → i ∈ wishlistIds d → int4 i.
Proof. intros (_ & [H _] & _). apply H. Qed.

Lemma db_ok_lengths d : db_ok d → lengths_ok d.
Proof. by intros (_ & _ & H). Qed.

Lemma db_ok_token_text d r : db_ok d → r ∈ wishlists d → text (Wishlist.shareToken r).
Proof. intros (_ & _ & [H _]) Hr. by destruct (H r Hr) as (_ & _ & _ & _ & ?). Qed.

Lemma db_ok_user_text d u : db_ok d → signedIn u d → text u.
Proof. intros [H _]. apply (ok_users_text _ H). Qed.


Lemma wishlist_by_id d r :
  db_ok d → r ∈ wishlists d →
  head (wishlistsById (Wishlist.id r) d) = Some r ∧
  (∀ u, wishlistById (Wishlist.id r) (Some u) d =
          if bool_decide (u = "" ∨ Wishlist.userId r = u) then Some r else None).
Proof.
  intros [Hok _] Hr.
  assert (∀ y, y ∈ wishlists d → Wishlist.id y = Wishlist.id r → y = r) as Huniq.
  { intros y Hy Heq. eapply NoDup_fmap_elem_inj; eauto. apply (ok_wishlists_pkey _ Hok). }
  assert (head (filter (λ y, Wishlist.id y = Wishlist.id r) (wishlists d)) = Some r) as Hhead
    by (by apply head_filter_unique).
  split; [done|]. intros u. unfold wishlistById, truthy.
  destruct (decide (u = "")) as [->|Hu].
  - rewrite bool_decide_eq_true_2 by done. rewrite bool_decide_eq_true_2 by (by left). done.
  - rewrite (bool_decide_eq_false_2 (u = "")) by done. case_bool_decide as Hown.
    + destruct Hown as [?|Hown]; [done|].
      apply head_filter_unique; [|done|done]. intros y Hy [Heq _]. by apply Huniq.
    + rewrite filter_none; [done|]. intros y Hy [Heq Hyu]. apply Hown. right.
      by rewrite <- (Huniq y Hy Heq).
Qed.

Lemma wishlist_by_token d r :
  db_ok d → r ∈ wishlists d → wishlistByShareToken (Wishlist.shareToken r) d = Some r.
Proof.
  intros [Hok _] Hr. apply head_filter_unique; [|done|done]. intros y Hy Heq.
  eapply NoDup_fmap_elem_inj; eauto. apply (ok_share_token_unique _ Hok).
Qed.




(** ** Claiming an item: POST /api/items/:itemId/claim *)

Section IdRoutes.
Context (u param : string) (i : Z) (w : World).
Hypothesis Hparse : parseInt param = Some i.


Lemma post_claim_not_found :
  int4 i → i ∉ itemIds (db w) →
  run (post_claim u param) w = (inr (NotFound "Item not found"), w).
Proof.
  intros H4 Hi%itemById_None. unfold post_claim. rewrite Hparse. cbn.
  rewrite getItem_int4 by done. by rewrite Hi.
Qed.

Lemma post_claim_already_claimed :
  int4 i → i ∈ itemIds (db w) → i ∈ claimedItemIds (db w) →
  run (post_claim u param) w = (inr AlreadyClaimed, w).
Proof.
  intros H4 [item Hi]%itemById_Some [c Hc]%claimByItemId_Some.
  unfold post_claim. rewrite Hparse. cbn. rewrite getItem_int4 by done. rewrite Hi. cbn.
  rewrite getClaim_int4 by done. by rewrite Hc.
Qed.

Lemma post_claim_self :
  i ∉ claimedItemIds (db w) → ownerOf i (db w) = Some u →
  run (post_claim u param) w = (inr SelfClaimForbidden, w).
Proof.
  intros Hc%claimByItemId_None Ho. unfold ownerOf in Ho.
  unfold post_claim. rewrite Hparse. cbn.
  destruct (getItem i (db w)) as [e|[item|]] eqn:E; try done.
  apply getItem_inr in E as [H4 _]. cbn in *.
  rewrite getClaim_int4 by done. rewrite Hc. cbn.
  destruct (head _) as [wl|]; [|done]. cbn in *. simplify_eq.
  by rewrite bool_decide_eq_true_2.
Qed.

(** The owner test of the route is negative when [u] is not the owner. *)
Lemma not_owner_test item :
  int4 i → itemById i (db w) = Some item → ownerOf i (db w) ≠ Some u →
  match head (wishlistsById (Item.wishlistId item) (db w)) with
  | Some wishlist => bool_decide (Wishlist.userId wishlist = u)
  | None => false
  end = false.
Proof.
  intros H4 Hi Ho. unfold ownerOf in Ho. rewrite getItem_int4, Hi in Ho by done.
  cbn in Ho. destruct (head _) as [wl|]; [|done]. cbn in Ho.
  apply bool_decide_eq_false_2. congruence.
Qed.


(** The handler has passed its three checks in [w]; its insert then runs
    in [w1], where the item has been claimed in the meantime.  The
    sequence of [claims.id] has moved when the insert was tried: when the
    store has taken its values. *)
Lemma post_claim_lost_race w1 :
  i ∈ itemIds (db w) → i ∉ claimedItemIds (db w) → ownerOf i (db w) ≠ Some u →
  i ∈ claimedItemIds (db w1) →
  ∃ p, steps 3 (post_claim u param) w = (p, w) ∧
       run p w1 = (inr (StoreFailure "Failed to claim item"),
                   if bool_decide (int4 i ∧ text u)
                   then set_db (next_claims_id (db w1)) w1 else w1).
Proof.
  intros [item Hi]%itemById_Some Hc%claimByItemId_None Ho Hc1.
  unfold post_claim. rewrite Hparse.
  destruct (decide (int4 i)) as [H4|H4].
  - pose proof (not_owner_test item H4 Hi Ho) as Htest.
    cbn. rewrite getItem_int4 by done. rewrite Hi. cbn.
    rewrite getClaim_int4 by done. rewrite Hc. cbn. rewrite Htest.
    eexists. split; [reflexivity|]. cbn. unfold createClaim. cbn.
    rewrite bool_decide_eq_false_2 by (by intros H').
    destruct (decide (text u)) as [Ht|Ht].
    + rewrite bool_decide_eq_false_2 by (by intros H').
      rewrite (bool_decide_eq_true_2 (int4 i ∧ text u)) by done.
      case_bool_decide; [done|]. by rewrite bool_decide_eq_true_2.
    + rewrite bool_decide_eq_true_2 by done.
      by rewrite (bool_decide_eq_false_2 (int4 i ∧ text u)) by (by intros [_ ?]).
  - cbn. rewrite getItem_refused by done. cbn.
    eexists. split; [reflexivity|]. cbn.
    by rewrite (bool_decide_eq_false_2 (int4 i ∧ text u)) by (by intros [? _]).
Qed.

(** ** Unclaiming: DELETE /api/items/:itemId/claim *)

Lemma delete_claim_refused :
  ¬ (int4 i ∧ text u) →
  run (delete_claim u param) w = (inr (StoreFailure "Failed to unclaim item"), w).
Proof.
  intros H. unfold delete_claim. rewrite Hparse. cbn. unfold deleteClaim.
  case_bool_decide; [done|]. case_bool_decide; [done|]. exfalso. by apply H.
Qed.

Lemma delete_claim_not_found :
  int4 i → text u →
  (∀ c, c ∈ claims (db w) → Claim.itemId c = i → Claim.userId c ≠ u) →
  run (delete_claim u param) w = (inr (NotFound "Claim not found"), w).
Proof.
  intros H4 Ht H. unfold delete_claim. rewrite Hparse. cbn. unfold deleteClaim.
  rewrite bool_decide_eq_false_2 by (by intros H').
  rewrite bool_decide_eq_false_2 by (by intros H').
  rewrite filter_none by (intros c Hc [? ?]; by eapply H).
  rewrite filter_all by (intros c Hc [? ?]; by eapply H).
  cbn. by rewrite set_claims_id, set_db_id.
Qed.

Lemma delete_claim_deleted c :
  int4 i → text u →
  at_most_one_claim (db w) →
  c ∈ claims (db w) → Claim.itemId c = i → Claim.userId c = u →
  run (delete_claim u param) w =
    (inr NoContent,
     set_db (set_claims (filter (λ c, Claim.itemId c ≠ i) (claims (db w))) (db w)) w).
Proof.
  intros H4 Ht Hone%at_most_one_claim_NoDup Hc Hi Hu. unfold delete_claim.
  rewrite Hparse. cbn. unfold deleteClaim.
  rewrite bool_decide_eq_false_2 by (by intros H').
  rewrite bool_decide_eq_false_2 by (by intros H').
  rewrite bool_decide_eq_true_2.
  2:{ intros Hnil. eapply (filter_nil_not_elem_of _ _ c Hnil); eauto. }
  cbn. do 3 f_equal. apply filter_ext_in. intros c' Hc'. split.
  - intros Hn Hi'. apply Hn. split; [done|].
    enough (c' = c) by congruence.
    eapply NoDup_fmap_elem_inj; eauto. congruence.
  - intros Hn [? ?]. done.
Qed.

(** ** Reading a wishlist by id: GET /api/wishlists/:id *)

(** The empty string is falsy: for it alone [getWishlist] has no owner
    condition.  The routes give it [req.user.claims.sub]. *)
Remark getWishlist_falsy_userId id d : getWishlist id (Some "") d = getWishlist id None d.
Proof. reflexivity. Qed.

Remark wishlistById_truthy_userId id userId d :
  userId ≠ "" →
  wishlistById id (Some userId) d =
    head (filter (λ r, Wishlist.id r = id ∧ Wishlist.userId r = userId) (wishlists d)).
Proof. intros Hu. unfold wishlistById, truthy. by rewrite bool_decide_eq_false_2. Qed.

Lemma wishlistById_hidden :
  u ≠ "" →
  (∀ r, r ∈ wishlists (db w) → Wishlist.id r = i → Wishlist.userId r ≠ u) →
  wishlistById i (Some u) (db w) = None.
Proof.
  intros Hu H. rewrite wishlistById_truthy_userId by done.
  by rewrite filter_none by (intros r Hr [? ?]; by eapply H).
Qed.

Lemma get_wishlist_hidden :
  u ≠ "" → int4 i → text u →
  (∀ r, r ∈ wishlists (db w) → Wishlist.id r = i → Wishlist.userId r ≠ u) →
  run (get_wishlist u param) w = (inr (NotFound "Wishlist not found"), w).
Proof.
  intros Hu H4 Ht H. unfold get_wishlist. rewrite Hparse. cbn.
  rewrite getWishlist_int4 by done. by rewrite wishlistById_hidden.
Qed.

Lemma get_wishlist_not_text :
  int4 i → ¬ text u →
  run (get_wishlist u param) w = (inr (StoreFailure "Failed to fetch wishlist"), w).
Proof.
  intros H4 Ht. unfold get_wishlist. rewrite Hparse. cbn. unfold getWishlist.
  rewrite bool_decide_eq_false_2 by (by intros H').
  by rewrite bool_decide_eq_true_2.
Qed.

Lemma get_wishlist_out_of_range :
  ¬ int4 i →
  run (get_wishlist u param) w = (inr (StoreFailure "Failed to fetch wishlist"), w).
Proof.
  intros H. unfold get_wishlist. rewrite Hparse. cbn. by rewrite getWishlist_refused.
Qed.

(** ** Deleting: DELETE /api/wishlists/:id and DELETE /api/items/:id *)

Lemma delete_wishlist_cascade :
  no_orphans (db w) →
  (run (delete_wishlist u param) w).1 = inr NoContent →
  let d' := db (run (delete_wishlist u param) w).2 in
  (∀ r, r ∈ wishlists d' → ¬ (Wishlist.id r = i ∧ Wishlist.userId r = u)) ∧
  (∀ it, it ∈ items d' → Item.wishlistId it ≠ i) ∧
  (∀ c it, c ∈ claims d' → it ∈ items (db w) → Item.wishlistId it = i →
           Claim.itemId c ≠ Item.id it) ∧
  no_orphans d'.
Proof.
  intros Horph. pose proof (deleteWishlist_no_orphans i u w Horph) as Hno. revert Hno.
  unfold delete_wishlist. rewrite Hparse. cbn. unfold deleteWishlist.
  case_bool_decide; [done|]. case_bool_decide; [done|]. cbn.
  case_bool_decide as Hgone; [|done]. intros Hno _. cbn.
  assert (i ∈ Wishlist.id <$>
            filter (λ r, Wishlist.id r = i ∧ Wishlist.userId r = u) (wishlists (db w)))
    as Hid.
  { destruct (filter_first _ _ (λ E, Hgone (f_equal (fmap Wishlist.id) E)))
      as (r & Hr & Hi & Hu).
    rewrite <- Hi. by apply list_elem_of_fmap_2, list_elem_of_filter. }
  split; [|split; [|split]].
  - by intros r [Hr _]%list_elem_of_filter.
  - intros it [Hi _]%list_elem_of_filter Heq. apply Hi. by rewrite Heq.
  - intros c it [Hc _]%list_elem_of_filter Hi Hwl Heq. apply Hc. rewrite Heq.
    apply list_elem_of_fmap_2, list_elem_of_filter. split; [|done]. cbn. by rewrite Hwl.
  - exact Hno.
Qed.

Lemma delete_item_cascade :
  no_orphans (db w) →
  (run (delete_item u param) w).1 = inr NoContent →
  let d' := db (run (delete_item u param) w).2 in
  (∀ it, it ∈ items d' → Item.id it = i →
         Item.wishlistId it ∉ ownedWishlistIds u (db w)) ∧
  (∀ c, c ∈ claims d' → Claim.itemId c ≠ i) ∧
  no_orphans d'.
Proof.
  intros Horph. pose proof (deleteItem_no_orphans i u w Horph) as Hno. revert Hno.
  unfold delete_item. rewrite Hparse. cbn. unfold deleteItem.
  case_bool_decide; [done|]. case_bool_decide; [done|]. cbn.
  case_bool_decide as Hgone; [|done]. intros Hno _. cbn.
  split; [|split].
  - intros it [Hi _]%list_elem_of_filter Hid Hown. by apply Hi.
  - intros c [Hc _]%list_elem_of_filter Heq. apply Hc.
    destruct (filter_first _ _ (λ E, Hgone (f_equal (fmap Item.id) E)))
      as (r & Hr & Hi & Hown).
    rewrite Heq, <- Hi. by apply list_elem_of_fmap_2, list_elem_of_filter.
  - exact Hno.
Qed.
End IdRoutes.

(** ** Creating a wishlist: POST /api/wishlists *)

Lemma post_wishlist_collision u body data w :
  insertWishlistSchema body = inr data →
  entropy w (draws w) ∈ shareTokens (db w) →
  run (post_wishlist u body) w =
    (inr (StoreFailure "Failed to create wishlist"),
     mkWorld (if taken (wishlistValues (insertWishlistOf data u)) &&
                 taken (shareTokenValue (entropy w (draws w)))
              then next_wishlists_id (db w) else db w)
             (clock w) (entropy w) (S (draws w))).
Proof.
  intros Hd Ht. unfold post_wishlist. rewrite Hd. cbn. unfold createWishlist. cbn.
  destruct (wishlistValues _) as [e|v]; [done|]. cbn.
  destruct (shareTokenValue _) as [e|t] eqn:Et; [done|]. cbn.
  apply shareTokenValue_inr in Et as [-> _].
  case_bool_decide; [done|]. by rewrite bool_decide_eq_true_2.
Qed.

(** ** Updating: PATCH /api/wishlists/:id and PATCH /api/items/:id *)

Lemma wishlist_frame_refl r : wishlist_frame r r.
Proof. by repeat split. Qed.

Lemma item_frame_refl i : item_frame i i.
Proof. by repeat split. Qed.

Lemma patch_wishlist_frame u param body w :
  let d' := db (run (patch_wishlist u param body) w).2 in
  Forall2 wishlist_frame (wishlists (db w)) (wishlists d') ∧
  users d' = users (db w) ∧ items d' = items (db w) ∧ claims d' = claims (db w).
Proof.
  assert (Forall2 wishlist_frame (wishlists (db w)) (wishlists (db w))) as Hrefl
    by apply Forall2_diag, wishlist_frame_refl.
  unfold patch_wishlist. destruct (parseInt param) as [id|]; [|done].
  destruct (insertWishlistSchema_partial body) as [issues|data]; [done|].
  cbn. unfold updateWishlist.
  repeat (case_bool_decide; [done|]).
  destruct (wishlistSetValues _) as [e|v] eqn:Ev; [done|].
  apply wishlistSetValues_inr in Ev as (Hu%optional_None & _ & _ & Ht%optional_None & Hc & _).
  cbn in Hc.
  repeat (case_bool_decide; [done|]). cbn.
  match goal with |- context [head ?l] => destruct (head l) end; cbn.
  all: (split; [|done]); apply Forall2_fmap_self; intros r;
    case_decide; [|apply wishlist_frame_refl];
    unfold wishlist_frame; cbn; by rewrite Hu, Ht, Hc.
Qed.

Lemma patch_item_frame isUrl u param body w :
  let d' := db (run (patch_item isUrl u param body) w).2 in
  Forall2 item_frame (items (db w)) (items d') ∧
  users d' = users (db w) ∧ wishlists d' = wishlists (db w) ∧ claims d' = claims (db w).
Proof.
  assert (Forall2 item_frame (items (db w)) (items (db w))) as Hrefl
    by apply Forall2_diag, item_frame_refl.
  unfold patch_item. destruct (parseInt param) as [id|]; [|done].
  destruct (insertItemSchema_partial isUrl body) as [issues|data]; [done|].
  cbn. unfold updateItem.
  repeat (case_bool_decide; [done|]).
  destruct (itemSetValues _) as [e|v] eqn:Ev; [done|].
  apply itemSetValues_inr in Ev as (Hw%optional_None & _ & _ & _ & _ & _ & Hc & _).
  cbn in Hc.
  repeat (case_bool_decide; [done|]). cbn.
  match goal with |- context [head ?l] => destruct (head l) end; cbn.
  all: (split; [|done]); apply Forall2_fmap_self; intros r;
    case_decide; [|apply item_frame_refl];
    unfold item_frame; cbn; by rewrite Hw, Hc.
Qed.

(** ** The [isNaN] guard of the routes that take an id *)

Section IdGuard.
Variable isUrl : string → bool.

Lemma handle_param_parse r p p' :
  idParam r = Some p → parseInt p' = parseInt p →
  handle isUrl (withIdParam p' r) = handle isUrl r.
Proof.
  intros Hr Hp. destruct r; simplify_eq/=.
  all: unfold get_wishlist, patch_wishlist, delete_wishlist, post_item, patch_item,
         delete_item, post_claim, delete_claim; by rewrite Hp.
Qed.

Ltac destruct_innermost x :=
  lazymatch x with
  | context [match ?y with _ => _ end] => destruct_innermost y
  | _ => destruct x
  end.

Lemma invalid_id_iff r p w :
  idParam r = Some p →
  invalidId (run (handle isUrl r) w).1 ↔ parseInt p = None.
Proof.
  intros Hr. split.
  - destruct (parseInt p) as [i|] eqn:Hp; [|done]. intros Hbad. exfalso.
    destruct r; simplify_eq/=.
    all: unfold get_wishlist, patch_wishlist, delete_wishlist, post_item, patch_item,
           delete_item, post_claim, delete_claim in Hbad; rewrite Hp in Hbad.
    all: repeat (cbn -[updateWishlist updateItem createItem createClaim deleteWishlist
                       deleteItem deleteClaim getWishlist getItem getClaim] in Hbad;
                 try (destruct Hbad; congruence);
                 match type of Hbad with
                 | context [match ?x with _ => _ end] => destruct_innermost x
                 end).
  - intros Hp. destruct r; simplify_eq/=.
    all: unfold get_wishlist, patch_wishlist, delete_wishlist, post_item, patch_item,
           delete_item, post_claim, delete_claim; rewrite Hp; cbn.
    all: (by left) || (by right).
Qed.
End IdGuard.

(** * The claims of the specification *)


(** C2 (amended). Every claim attempt by the owner [u] of the wishlist of
    item [i] fails and changes nothing: with AlreadyClaimed when [i] is
    claimed, with SelfClaimForbidden when it is not. *)
Theorem owner_never_claims (u param : string) (i : Z) (w : World) :
  parseInt param = Some i → ownerOf i (db w) = Some u →
  run (post_claim u param) w =
    (inr (if bool_decide (i ∈ claimedItemIds (db w))
          then AlreadyClaimed else SelfClaimForbidden), w).
Proof.
  intros Hp Ho. assert (int4 i ∧ i ∈ itemIds (db w)) as [H4 Hi].
  { unfold ownerOf in Ho. destruct (getItem i (db w)) as [e|o] eqn:E; [done|].
    apply getItem_inr in E as [H4 ->]. split; [done|].
    apply dec_stable. intros Hn%itemById_None. by rewrite Hn in Ho. }
  case_bool_decide.
  - by apply (post_claim_already_claimed u param i w Hp).
  - by apply (post_claim_self u param i w Hp).
Qed.

(** C3 (amended). When the handler has passed its checks and the insert of
    its claim row is then rejected by the uniqueness constraint on
    [item_id] (the item was claimed in between), the caller gets 500
    "Failed to claim item", and no row is added to the store.  The only
    change is that of the sequence of [claims.id], which has given an id
    to the rejected row (the values of the row being values of their
    columns). *)
Theorem lost_race_is_store_failure (u param : string) (i : Z) (w w1 : World) :
  parseInt param = Some i →
  i ∈ itemIds (db w) → i ∉ claimedItemIds (db w) → ownerOf i (db w) ≠ Some u →
  i ∈ claimedItemIds (db w1) →
  ∃ p, steps 3 (post_claim u param) w = (p, w) ∧
       run p w1 = (inr (StoreFailure "Failed to claim item"),
                   if bool_decide (int4 i ∧ text u)
                   then set_db (next_claims_id (db w1)) w1 else w1).
Proof. intros Hp. apply (post_claim_lost_race u param i w Hp). Qed.

(** C4 (amended). An unclaim request by [u] on item [i], when [i] is a
    value of the [integer] column of the ids (and [u] a string of the
    store), answers 404 and changes nothing when [i] has no claim, and
    also when its claim is by another user; when the claim of [i] is by
    [u], the claim row is deleted, no other row is, and the answer is 204.
    Otherwise the store refuses the delete: the answer is 500 "Failed to
    unclaim item", and nothing changes. *)
Theorem unclaim_outcomes (u param : string) (i : Z) (w : World) :
  parseInt param = Some i →
  (¬ (int4 i ∧ text u) →
     run (delete_claim u param) w = (inr (StoreFailure "Failed to unclaim item"), w)) ∧
  (int4 i ∧ text u →
     (i ∉ claimedItemIds (db w) →
        run (delete_claim u param) w = (inr (NotFound "Claim not found"), w)) ∧
     ((∀ c, c ∈ claims (db w) → Claim.itemId c = i → Claim.userId c ≠ u) →
        run (delete_claim u param) w = (inr (NotFound "Claim not found"), w)) ∧
     (∀ c, at_most_one_claim (db w) →
           c ∈ claims (db w) → Claim.itemId c = i → Claim.userId c = u →
        run (delete_claim u param) w =
          (inr NoContent,
           set_db (set_claims (filter (λ c, Claim.itemId c ≠ i) (claims (db w))) (db w))
                  w))).
Proof.
  intros Hp. split; [apply (delete_claim_refused u param i w Hp)|].
  intros [H4 Ht]. split; [|split].
  - intros Hn. apply (delete_claim_not_found _ _ _ _ Hp H4 Ht). intros c Hc Hi.
    exfalso. apply Hn. rewrite <- Hi. by apply list_elem_of_fmap_2.
  - apply (delete_claim_not_found u param i w Hp H4 Ht).
  - intros c. apply (delete_claim_deleted u param i w Hp c H4 Ht).
Qed.

(** C5. For a user id [u] (one that [getWishlist] takes as given: truthy,
    that is not empty), GET /api/wishlists/:id gives the same response in
    a world where no wishlist has the id and in a world (a store of the
    schema) where the wishlist [r] has the id and is owned by someone
    else, and neither run changes anything.  The response is 404
    "Wishlist not found"; only for a [u] that is no string of the store
    (it holds U+0000, which the id of no user does) it is, in both worlds
    alike, 500 "Failed to fetch wishlist". *)
Theorem other_owner_looks_absent
    (u param : string) (id : Z) (r : Wishlist.t) (w1 w2 : World) :
  u ≠ "" → parseInt param = Some id →
  id ∉ wishlistIds (db w1) →
  db_ok (db w2) → r ∈ wishlists (db w2) → Wishlist.id r = id → Wishlist.userId r ≠ u →
  (run (get_wishlist u param) w1).1 = (run (get_wishlist u param) w2).1 ∧
  (run (get_wishlist u param) w1).2 = w1 ∧
  (run (get_wishlist u param) w2).2 = w2 ∧
  (text u →
     run (get_wishlist u param) w1 = (inr (NotFound "Wishlist not found"), w1) ∧
     run (get_wishlist u param) w2 = (inr (NotFound "Wishlist not found"), w2)) ∧
  (¬ text u →
     run (get_wishlist u param) w1 = (inr (StoreFailure "Failed to fetch wishlist"), w1) ∧
     run (get_wishlist u param) w2 = (inr (StoreFailure "Failed to fetch wishlist"), w2)).
Proof.
  intros Hu Hp H1 Hok Hr Hid Hown.
  assert (int4 id) as H4.
  { apply (db_ok_wishlist_int4 _ _ Hok). rewrite <- Hid. by apply list_elem_of_fmap_2. }
  assert (text u →
          run (get_wishlist u param) w1 = (inr (NotFound "Wishlist not found"), w1) ∧
          run (get_wishlist u param) w2 = (inr (NotFound "Wishlist not found"), w2)) as Ht.
  { intros Ht. split.
    - apply (get_wishlist_hidden _ _ _ _ Hp Hu H4 Ht). intros r' Hr' Hid'. exfalso. apply H1.
      rewrite <- Hid'. by apply list_elem_of_fmap_2.
    - apply (get_wishlist_hidden _ _ _ _ Hp Hu H4 Ht). intros r' Hr' Hid'.
      enough (r' = r) by congruence.
      eapply (NoDup_fmap_elem_inj Wishlist.id); [apply (ok_wishlists_pkey _ (proj1 Hok))|..];
        [done|done|congruence]. }
  assert (¬ text u →
          run (get_wishlist u param) w1 =
            (inr (StoreFailure "Failed to fetch wishlist"), w1) ∧
          run (get_wishlist u param) w2 =
            (inr (StoreFailure "Failed to fetch wishlist"), w2)) as Hn.
  { intros Hn. split; by apply (get_wishlist_not_text _ _ _ _ Hp). }
  split; [|split; [|split; [|split]]]; try done.
  all: destruct (decide (text u)) as [Hd|Hd];
    [destruct (Ht Hd) as [E1 E2] | destruct (Hn Hd) as [E1 E2]];
    by rewrite ?E1, ?E2.
Qed.

(** C6. At most one claim row per item: in every state the server reaches,
    however the handlers of concurrent requests are interleaved, and after
    every request handled from a state that has the property. *)
Theorem one_claim_per_item (isUrl : string → bool) :
  (∀ s, reachable isUrl s → at_most_one_claim (db (world s))) ∧
  (∀ r w, at_most_one_claim (db w) →
          at_most_one_claim (db (run (handle isUrl r) w).2)).
Proof.
  split.
  - intros s. apply reachable_inv; [apply at_most_one_claim_kept|].
    apply at_most_one_claim_empty.
  - intros r w. apply run_handle_keeps, at_most_one_claim_kept.
Qed.

(** C7. After a successful DELETE of a wishlist, the wishlist, its items
    and the claims on them are gone; after a successful DELETE of an item,
    the item and its claim are gone; and in both cases no item is left
    with a wishlist that is not there, no claim with an item that is not
    there. *)
Theorem delete_cascades (u param : string) (id : Z) (w : World) :
  parseInt param = Some id → no_orphans (db w) →
  ((run (delete_wishlist u param) w).1 = inr NoContent →
     let d' := db (run (delete_wishlist u param) w).2 in
     (∀ r, r ∈ wishlists d' → ¬ (Wishlist.id r = id ∧ Wishlist.userId r = u)) ∧
     (∀ it, it ∈ items d' → Item.wishlistId it ≠ id) ∧
     (∀ c it, c ∈ claims d' → it ∈ items (db w) → Item.wishlistId it = id →
              Claim.itemId c ≠ Item.id it) ∧
     no_orphans d') ∧
  ((run (delete_item u param) w).1 = inr NoContent →
     let d' := db (run (delete_item u param) w).2 in
     (∀ it, it ∈ items d' → Item.id it = id →
            Item.wishlistId it ∉ ownedWishlistIds u (db w)) ∧
     (∀ c, c ∈ claims d' → Claim.itemId c ≠ id) ∧
     no_orphans d').
Proof.
  intros Hp Ho. split.
  - by apply (delete_wishlist_cascade u param id w Hp).
  - by apply (delete_item_cascade u param id w Hp).
Qed.

(** C8 (amended). When the token generated for a new wishlist is the
    token of an existing wishlist, the insert is rejected and the caller
    gets 500 "Failed to create wishlist"; no wishlist is added, one token
    has been generated and no second one is.  The only other change is
    that of the sequence of [wishlists.id], which has given an id to the
    rejected row (the values of the row being values of their columns). *)
Theorem token_collision_is_store_failure
    (u : string) (body : ReqBody) (data : InsertWishlistInput.t) (w : World) :
  insertWishlistSchema body = inr data →
  entropy w (draws w) ∈ shareTokens (db w) →
  run (post_wishlist u body) w =
    (inr (StoreFailure "Failed to create wishlist"),
     mkWorld (if taken (wishlistValues (insertWishlistOf data u)) &&
                 taken (shareTokenValue (entropy w (draws w)))
              then next_wishlists_id (db w) else db w)
             (clock w) (entropy w) (S (draws w))).
Proof. apply post_wishlist_collision. Qed.

(** C9. Whatever the body of a PATCH request, every wishlist row keeps its
    [id], [userId], [shareToken] and [createdAt], every item row keeps its
    [id], [wishlistId] and [createdAt], and the rows of the other tables
    are as they were. *)
Theorem patch_keeps_immutable_columns
    (isUrl : string → bool) (u param : string) (body : ReqBody) (w : World) :
  (let d' := db (run (patch_wishlist u param body) w).2 in
   Forall2 wishlist_frame (wishlists (db w)) (wishlists d') ∧
   users d' = users (db w) ∧ items d' = items (db w) ∧ claims d' = claims (db w)) ∧
  (let d' := db (run (patch_item isUrl u param body) w).2 in
   Forall2 item_frame (items (db w)) (items d') ∧
   users d' = users (db w) ∧ wishlists d' = wishlists (db w) ∧
   claims d' = claims (db w)).
Proof. split; [apply patch_wishlist_frame | apply patch_item_frame]. Qed.

(** C10 (amended). On every route that takes an id, the 400 "Invalid ...
    ID" answer is given exactly when [parseInt] of the parameter is [NaN].
    For a parameter with no [0x] prefix that is when, after the leading
    white space, it does not begin with a decimal integer; otherwise the
    id is the Number of that integer: the integer itself up to 2^53, the
    nearest double beyond.  Two parameters with the same [parseInt] are
    handled alike: "12abc" is the id 12 and is handled as "12". *)
Theorem invalid_id_guard (isUrl : string → bool) (r : Request) (p : string) :
  idParam r = Some p →
  (∀ w, invalidId (run (handle isUrl r) w).1 ↔ parseInt p = None) ∧
  (hexPrefixed (trimStart p) = false →
     parseInt p = roundDouble <$> decimalPrefix (trimStart p)) ∧
  (∀ n, hexPrefixed (trimStart p) = false →
        decimalPrefix (trimStart p) = Some n → Z.abs n ≤ 2 ^ 53 → parseInt p = Some n) ∧
  (∀ p', parseInt p' = parseInt p →
         handle isUrl (withIdParam p' r) = handle isUrl r) ∧
  parseInt "12abc" = Some 12 ∧ parseInt "12" = Some 12 ∧
  handle isUrl (withIdParam "12abc" r) = handle isUrl (withIdParam "12" r).
Proof.
  intros Hr. split; [|split; [|split; [|split; [|split; [|split]]]]].
  - intros w. by apply invalid_id_iff.
  - apply parseInt_decimal.
  - intros n Hx Hn Hle. rewrite parseInt_decimal, Hn by done. cbn.
    by rewrite roundDouble_safe.
  - intros p'. by apply handle_param_parse.
  - reflexivity.
  - reflexivity.
  - assert (idParam (withIdParam "12" r) = Some "12") as H12 by (by destruct r).
    rewrite <- (handle_param_parse isUrl _ _ "12abc" H12) by done.
    by destruct r.
Qed.

(** * The claims on the running example *)

Ltac by_compute := unfold signedIn; apply (bool_decide_unpack _); vm_compute; exact I.

Ltac each_row :=
  let x := fresh "x" in let Hx := fresh "Hx" in
  intros x Hx; unfold int4, wishlist_strings_ok, item_strings_ok;
  apply (bool_decide_unpack _);
  repeat (apply elem_of_cons in Hx as [->|Hx]);
  [..|by apply not_elem_of_nil in Hx];
  vm_compute; exact I.

Ltac store_ok :=
  split; [constructor|split; split]; cbn;
  first [by_compute | lia | each_row].

Lemma example_store_ok : db_ok Example.store.
Proof. store_ok. Qed.

Lemma example_claimed_ok : db_ok (db Example.claimed).
Proof. store_ok. Qed.


(** The example is a state of the running server: three sign-ins, then
    the three requests, each handled to its end. *)
Ltac sys_go c := eapply rtc_l; [c|]; cbn.

Lemma example_served_reachable : reachable Example.anyUrl Example.served.
Proof.
  exists Example.boot. split; [done|].
  sys_go ltac:(apply (sys_sign_in _ (UpsertUser.mk "owner" None None None None))).
  sys_go ltac:(apply (sys_sign_in _ (UpsertUser.mk "alice" None None None None))).
  sys_go ltac:(apply (sys_sign_in _ (UpsertUser.mk "bob" None None None None))).
  sys_go ltac:(apply (sys_request _
    (PostWishlist "owner" (Example.body [("name", JString "Birthday")])))).
  sys_go ltac:(eapply (sys_statement _ 0); reflexivity).
  sys_go ltac:(apply (sys_request _
    (PostItem "owner" "1"
       (Example.body [("name", JString "Headphones"); ("price", JString "$99.99")])))).
  sys_go ltac:(eapply (sys_statement _ 1); reflexivity).
  sys_go ltac:(eapply (sys_statement _ 1); reflexivity).
  sys_go ltac:(apply (sys_request _ (PostClaim "alice" "1"))).
  sys_go ltac:(eapply (sys_statement _ 2); reflexivity).
  sys_go ltac:(eapply (sys_statement _ 2); reflexivity).
  sys_go ltac:(eapply (sys_statement _ 2); reflexivity).
  sys_go ltac:(eapply (sys_statement _ 2); reflexivity).
  apply rtc_refl.
Qed.

Lemma example_claimed_one : at_most_one_claim (db Example.claimed).
Proof. apply at_most_one_claim_NoDup. by_compute. Qed.

Lemma example_claimed_no_orphans : no_orphans (db Example.claimed).
Proof. split; intros x ->%list_elem_of_singleton; by_compute. Qed.



(** The owner asks for the headphones that alice has claimed: the answer
    is AlreadyClaimed, not SelfClaimForbidden. *)
Lemma owner_claim_on_claimed_item :
  ownerOf 1 (db Example.claimed) = Some "owner" ∧
  (run (post_claim "owner" "1") Example.claimed).1 = inr AlreadyClaimed ∧
  (run (post_claim "owner" "1") Example.claimed).1 ≠ inr SelfClaimForbidden.
Proof. split; [by vm_compute|]. split; [by vm_compute|]. vm_compute. discriminate. Qed.

Lemma owner_never_claims_witness :
  ownerOf 1 (db Example.start) = Some "owner" ∧
  run (post_claim "owner" "1") Example.start = (inr SelfClaimForbidden, Example.start).
Proof.
  split; [reflexivity|].
  exact (owner_never_claims "owner" "1" 1 Example.start eq_refl eq_refl).
Defined.

(** alice's request runs its three checks, then bob's request runs from
    start to end, then alice's insert runs: bob has the item, alice gets
    500 and not AlreadyClaimed. *)
Lemma lost_race_answers_500 :
  let '(alice, w1) := steps 3 (post_claim "alice" "1") Example.start in
  let '(bob, w2) := run (post_claim "bob" "1") w1 in
  let '(answer, w3) := run alice w2 in
  bob = inr (Created Example.bobClaim) ∧
  answer = inr (StoreFailure "Failed to claim item") ∧
  answer ≠ inr AlreadyClaimed ∧
  claims (db w3) = [Example.bobClaim].
Proof. vm_compute. repeat split. discriminate. Qed.

Lemma lost_race_is_store_failure_witness :
  ∃ p, steps 3 (post_claim "alice" "1") Example.start = (p, Example.start) ∧
       run p Example.claimedByBob =
         (inr (StoreFailure "Failed to claim item"),
          set_db (next_claims_id (db Example.claimedByBob)) Example.claimedByBob).
Proof.
  refine (lost_race_is_store_failure "alice" "1" 1 Example.start Example.claimedByBob
            eq_refl _ _ _ _).
  - by_compute.
  - by_compute.
  - vm_compute. discriminate.
  - by_compute.
Defined.

(** The same id in an unclaim request: 500 where no claim has the id. *)
Lemma unclaim_beyond_integer_answers_500 :
  parseInt "99999999999" = Some 99999999999 ∧
  (99999999999 ∉ claimedItemIds (db Example.claimed)) ∧
  run (delete_claim "alice" "99999999999") Example.claimed =
    (inr (StoreFailure "Failed to unclaim item"), Example.claimed) ∧
  (run (delete_claim "alice" "99999999999") Example.claimed).1 ≠
    inr (NotFound "Claim not found").
Proof.
  split; [by vm_compute|]. split; [by_compute|]. split; [by vm_compute|].
  vm_compute. discriminate.
Qed.

(** alice unclaims her claim; bob cannot unclaim it; nobody can unclaim
    what is not claimed; an id that is no [integer] is refused. *)
Lemma unclaim_outcomes_witness :
  run (delete_claim "alice" "1") Example.claimed =
    (inr NoContent, set_db (set_claims [] (db Example.claimed)) Example.claimed) ∧
  run (delete_claim "bob" "1") Example.claimed =
    (inr (NotFound "Claim not found"), Example.claimed) ∧
  run (delete_claim "bob" "1") Example.start =
    (inr (NotFound "Claim not found"), Example.start) ∧
  run (delete_claim "bob" "99999999999") Example.start =
    (inr (StoreFailure "Failed to unclaim item"), Example.start).
Proof.
  assert (int4 1 ∧ text "alice") as Ha by (split; [unfold int4; lia|by_compute]).
  assert (int4 1 ∧ text "bob") as Hb by (split; [unfold int4; lia|by_compute]).
  split; [|split; [|split]].
  - refine (proj2 (proj2 (proj2 (unclaim_outcomes "alice" "1" 1 Example.claimed eq_refl) Ha))
              Example.aliceClaim example_claimed_one _ eq_refl eq_refl).
    by apply list_elem_of_singleton.
  - refine (proj1 (proj2 (proj2 (unclaim_outcomes "bob" "1" 1 Example.claimed eq_refl) Hb))
              _).
    intros c ->%list_elem_of_singleton _. discriminate.
  - refine (proj1 (proj2 (unclaim_outcomes "bob" "1" 1 Example.start eq_refl) Hb) _).
    by_compute.
  - refine (proj1 (unclaim_outcomes "bob" "99999999999" 99999999999 Example.start _) _).
    + by vm_compute.
    + intros [H _]. unfold int4 in H. lia.
Defined.

(** alice asks for wishlist 1 where there is none, and where it is the
    wishlist of [owner]. *)
Lemma other_owner_looks_absent_witness :
  run (get_wishlist "alice" "1") Example.empty =
    (inr (NotFound "Wishlist not found"), Example.empty) ∧
  run (get_wishlist "alice" "1") Example.start =
    (inr (NotFound "Wishlist not found"), Example.start).
Proof.
  assert ("alice" ≠ "") as Hu by discriminate.
  assert (1 ∉ wishlistIds (db Example.empty)) as Hnone by by_compute.
  assert (Example.birthday ∈ wishlists (db Example.start)) as Hr
    by (by apply list_elem_of_singleton).
  assert (Wishlist.userId Example.birthday ≠ "alice") as Hother by discriminate.
  assert (text "alice") as Ht by by_compute.
  exact (proj1 (proj2 (proj2 (proj2
           (other_owner_looks_absent "alice" "1" 1 Example.birthday
              Example.empty Example.start Hu eq_refl Hnone example_store_ok Hr eq_refl
              Hother)))) Ht).
Defined.

(** In the state the server has reached, and after bob then asks for the
    item that alice has. *)
Lemma one_claim_per_item_witness :
  at_most_one_claim (db (world Example.served)) ∧
  at_most_one_claim
    (db (run (handle Example.anyUrl (PostClaim "bob" "1")) Example.claimed).2).
Proof.
  split.
  - apply (proj1 (one_claim_per_item Example.anyUrl)), example_served_reachable.
  - apply (proj2 (one_claim_per_item Example.anyUrl)), example_claimed_one.
Defined.

(** The owner deletes the wishlist, or the item, while alice's claim is
    there. *)
Lemma delete_cascades_witness :
  (let d' := db (run (delete_wishlist "owner" "1") Example.claimed).2 in
   wishlists d' = [] ∧ items d' = [] ∧ claims d' = [] ∧ no_orphans d') ∧
  (let d' := db (run (delete_item "owner" "1") Example.claimed).2 in
   items d' = [] ∧ claims d' = [] ∧ no_orphans d').
Proof.
  pose proof (delete_cascades "owner" "1" 1 Example.claimed eq_refl
                example_claimed_no_orphans) as [Hw Hi].
  split.
  - split; [reflexivity|]. split; [reflexivity|]. split; [reflexivity|].
    exact (proj2 (proj2 (proj2 (Hw eq_refl)))).
  - split; [reflexivity|]. split; [reflexivity|].
    exact (proj2 (proj2 (Hi eq_refl))).
Defined.

(** The token generated for alice's wishlist is the token of "Birthday":
    the answer is 500, the next token, which is free, is never asked
    for. *)
Lemma token_collision_no_retry :
  let body := Example.body [("name", JString "Christmas")] in
  let '(answer, w') := run (post_wishlist "alice" body) Example.start in
  (Example.tokens 1 ∉ shareTokens (db Example.start)) ∧
  answer = inr (StoreFailure "Failed to create wishlist") ∧
  draws w' = 1%nat ∧
  wishlists (db w') = wishlists (db Example.start).
Proof. vm_compute. repeat split. intros [=]%list_elem_of_singleton. Qed.

Lemma token_collision_is_store_failure_witness :
  run (post_wishlist "alice" (Example.body [("name", JString "Christmas")])) Example.start =
    (inr (StoreFailure "Failed to create wishlist"),
     mkWorld (next_wishlists_id Example.store) 100 Example.tokens 1).
Proof.
  refine (token_collision_is_store_failure "alice" _
            (InsertWishlistInput.mk "Christmas" None) Example.start _ _).
  - vm_compute. reflexivity.
  - by_compute.
Defined.

(** "0x" begins with the decimal integer 0 and is rejected; "0x1f" begins
    with 0 and is the id 31; " 7" begins with a space and is the id 7. *)
Lemma hex_prefix_is_not_decimal :
  decimalPrefix "0x" = Some 0 ∧
  invalidId (run (handle Example.anyUrl (PostClaim "alice" "0x")) Example.start).1 ∧
  decimalPrefix "0x1f" = Some 0 ∧ parseInt "0x1f" = Some 31 ∧
  decimalPrefix " 7" = None ∧ parseInt " 7" = Some 7.
Proof.
  split; [reflexivity|]. split; [by right|]. split; [reflexivity|].
  split; [by vm_compute|]. split; [reflexivity|by vm_compute].
Qed.

(** "abc" is rejected; "12abc" is the id 12; 2^53 + 1 is no double and is
    read as 2^53. *)
Lemma invalid_id_guard_witness :
  invalidId (run (handle Example.anyUrl (PostClaim "alice" "abc")) Example.start).1 ∧
  parseInt "12abc" = Some 12 ∧
  decimalPrefix "9007199254740993" = Some 9007199254740993 ∧
  parseInt "9007199254740993" = Some 9007199254740992 ∧
  handle Example.anyUrl (PostClaim "alice" "12abc") =
  handle Example.anyUrl (PostClaim "alice" "12").
Proof.
  pose proof (invalid_id_guard Example.anyUrl (PostClaim "alice" "abc") "abc" eq_refl)
    as (Hbad & _).
  pose proof (invalid_id_guard Example.anyUrl (PostClaim "alice" "12abc") "12abc" eq_refl)
    as (_ & _ & Hdec & _ & _ & _ & H12).
  pose proof (invalid_id_guard Example.anyUrl (PostClaim "alice" "9007199254740993")
                "9007199254740993" eq_refl) as (_ & Hround & _).
  split; [by apply Hbad|]. split; [|split; [reflexivity|split; [|exact H12]]].
  - apply (Hdec 12); [reflexivity|reflexivity|]. by vm_compute.
  - rewrite Hround by reflexivity. by vm_compute.
Defined.

(** * Further properties of the routes, the store and the client *)

(** ** The routes that read *)

Section ReadRoutes.
Variable isUrl : string → bool.

Lemma get_wishlists_run u w :
  text u →
  run (get_wishlists u) w =
    (inr (mkResponse 200 (WishlistsJson
       ((λ r, WishlistWithCounts.mk r (itemCount (Wishlist.id r) (db w))
                (claimedCount (Wishlist.id r) (db w))) <$>
        filter (λ r, Wishlist.userId r = u) (wishlists (db w))))), w).
Proof.
  intros Hu. unfold get_wishlists.
  rewrite run_try_catch, run_bind, run_select, getWishlists_text by done.
  rewrite run_bind, run_allWithCounts. done.
Qed.

Lemma get_wishlist_run u param id w :
  parseInt param = Some id → int4 id → text u →
  run (get_wishlist u param) w =
    (inr match wishlistById id (Some u) (db w) with
         | None => NotFound "Wishlist not found"
         | Some wishlist =>
             mkResponse 200 (WishlistWithItemsJson wishlist
                               (formatItem <$> itemsWithClaims id (db w)))
         end, w).
Proof.
  intros Hp H4 Hu. unfold get_wishlist.
  rewrite Hp, run_try_catch, run_bind, run_select, getWishlist_int4 by done.
  by destruct (wishlistById id (Some u) (db w)).
Qed.

Lemma get_shared_wishlist_run token w :
  text token →
  run (get_shared_wishlist token) w =
    (inr match wishlistByShareToken token (db w) with
         | None => NotFound "Wishlist not found"
         | Some wishlist =>
             mkResponse 200 (WishlistWithItemsJson wishlist
                               (formatItem <$> itemsWithClaims (Wishlist.id wishlist) (db w)))
         end, w).
Proof.
  intros Ht. unfold get_shared_wishlist.
  rewrite run_try_catch, run_bind, run_select, getWishlistByShareToken_text by done.
  by destruct (wishlistByShareToken token (db w)).
Qed.

Lemma get_routes_world :
  (∀ u w, (run (get_auth_user u) w).2 = w) ∧
  (∀ u w, (run (get_wishlists u) w).2 = w) ∧
  (∀ u id w, (run (get_wishlist u id) w).2 = w) ∧
  (∀ token w, (run (get_shared_wishlist token) w).2 = w).
Proof.
  split; [|split; [|split]].
  - intros u w. unfold get_auth_user. rewrite run_try_catch_failed, run_bind, run_select.
    by destruct (getUser u (db w)).
  - intros u w. unfold get_wishlists. rewrite run_try_catch_failed, run_bind, run_select.
    destruct (getWishlists u (db w)); [done|]. by rewrite run_bind, run_allWithCounts.
  - intros u id w. unfold get_wishlist. rewrite run_try_catch_failed.
    destruct (parseInt id) as [n|]; [|done]. rewrite run_bind, run_select.
    by destruct (getWishlist n (Some u) (db w)) as [e|[r|]].
  - intros token w. unfold get_shared_wishlist.
    rewrite run_try_catch_failed, run_bind, run_select.
    by destruct (getWishlistByShareToken token (db w)) as [e|[r|]].
Qed.

(** X1. The four GET routes never write: whatever the user, the path
    parameter or the token, the world after the request is the world
    before it. *)
Theorem get_routes_change_nothing :
  (∀ u w, (run (get_auth_user u) w).2 = w) ∧
  (∀ u w, (run (get_wishlists u) w).2 = w) ∧
  (∀ u id w, (run (get_wishlist u id) w).2 = w) ∧
  (∀ token w, (run (get_shared_wishlist token) w).2 = w).
Proof. exact get_routes_world. Qed.
End ReadRoutes.

(** ** Integers in path parameters: [toString] then [parseInt] *)

Ltac char_code :=
  match goal with
  | |- context [Z.of_nat (nat_of_ascii ?c)] =>
      let v := eval vm_compute in (Z.of_nat (nat_of_ascii c)) in
      change (Z.of_nat (nat_of_ascii c)) with v
  end.

Lemma digitChar_code d : 0 ≤ d < 10 → Z.of_nat (nat_of_ascii (digitChar d)) = 48 + d.
Proof.
  intros Hd. unfold digitChar. rewrite nat_ascii_embedding; lia.
Qed.

Lemma digitChar_digit d : 0 ≤ d < 10 → radixDigit 10 (digitChar d) = Some d.
Proof.
  intros Hd. unfold radixDigit, digitValue. rewrite digitChar_code by done.
  rewrite bool_decide_eq_true_2 by lia. rewrite bool_decide_eq_true_2 by lia.
  f_equal. lia.
Qed.

Lemma digitChar_not_space d : 0 ≤ d < 10 → isWhiteSpace (digitChar d) = false.
Proof.
  intros Hd. unfold isWhiteSpace. apply bool_decide_eq_false_2.
  pose proof (digitChar_code d Hd). lia.
Qed.

Lemma digitChar_not c d :
  0 ≤ d < 10 → ¬ (48 ≤ Z.of_nat (nat_of_ascii c) < 58) → digitChar d ≠ c.
Proof. intros Hd Hc <-. rewrite digitChar_code in Hc; lia. Qed.

Lemma natDigits_allDigits fuel n acc :
  0 ≤ n → allDigits acc → allDigits (natDigits fuel n acc).
Proof.
  revert n acc. induction fuel as [|fuel IH]; intros n acc Hn Hacc; [done|]. cbn.
  assert (allDigits (String (digitChar (n mod 10)) acc)) as Hacc'.
  { split; [|done]. exists (n mod 10). split; [|done]. apply Z.mod_pos_bound. lia. }
  case_bool_decide; [done|]. apply IH; [|done]. apply Z.div_pos; lia.
Qed.

Lemma natDigits_value fuel n acc :
  0 ≤ n < 2 ^ Z.of_nat (S fuel) →
  ∃ ds, digitsPrefix 10 (natDigits (S fuel) n acc) = (ds ++ digitsPrefix 10 acc)%list ∧
        ds ≠ [] ∧
        ∀ a, fold_left (λ acc d, acc * 10 + d) ds a = a * 10 ^ Z.of_nat (length ds) + n.
Proof.
  revert n acc. induction fuel as [|fuel IH]; intros n acc Hn.
  all: cbn [natDigits].
  all: assert (0 ≤ n mod 10 < 10) as Hd by (apply Z.mod_pos_bound; lia).
  all: assert (digitsPrefix 10 (String (digitChar (n mod 10)) acc)
               = n mod 10 :: digitsPrefix 10 acc) as Hacc
         by (cbn; by rewrite digitChar_digit).
  all: case_bool_decide as Hlt.
  1,3: exists [n mod 10]; rewrite Hacc; split; [done|]; split; [done|]; intros a; cbn;
       rewrite Z.mod_small by lia; lia.
  - cbn in Hn. lia.
  - rewrite Nat2Z.inj_succ, Z.pow_succ_r in Hn by lia.
    destruct (IH (n / 10) (String (digitChar (n mod 10)) acc)) as (ds & Hds & Hne & Hv).
    { split; [apply Z.div_pos; lia|]. apply Z.div_lt_upper_bound; lia. }
    exists (ds ++ [n mod 10])%list. cbn [natDigits] in Hds. rewrite Hds, Hacc.
    split; [by rewrite <- app_assoc|].
    split; [by destruct ds|]. intros a.
    rewrite fold_left_app, Hv, length_app. cbn.
    rewrite Nat2Z.inj_add, Z.pow_add_r by lia. cbn.
    pose proof (Z.div_mod n 10). lia.
Qed.

Lemma digitsOf_parse n :
  0 ≤ n →
  allDigits (digitsOf n) ∧
  ∃ ds, digitsPrefix 10 (digitsOf n) = ds ∧ ds ≠ [] ∧ numberOf 10 ds = n.
Proof.
  intros Hn. unfold digitsOf. split; [by apply natDigits_allDigits|].
  destruct (natDigits_value (Z.to_nat (Z.log2 n)) n "") as (ds & Hds & Hne & Hv).
  { split; [done|]. rewrite Nat2Z.inj_succ, Z2Nat.id by apply Z.log2_nonneg.
    destruct (decide (n = 0)) as [->|]; [reflexivity|].
    pose proof (Z.log2_spec n). lia. }
  exists ds. change (digitsPrefix 10 "") with (@nil Z) in Hds. rewrite app_nil_r in Hds.
  split; [exact Hds|]. split; [done|].
  unfold numberOf. rewrite Hv. lia.
Qed.

Lemma allDigits_plain s :
  allDigits s → trimStart s = s ∧ readSign s = (1, s) ∧ readRadix s = (10, s).
Proof.
  destruct s as [|c r]; [done|]. intros [(d & Hd & ->) Hr].
  split; [|split].
  - cbn. by rewrite digitChar_not_space.
  - cbn. rewrite !bool_decide_eq_false_2; [done|..]; (apply digitChar_not; [done|char_code; lia]).
  - destruct r as [|x r]; [done|]. destruct Hr as [(d' & Hd' & ->) _]. cbn.
    rewrite bool_decide_eq_false_2; [done|].
    intros [_ [H|H]]; revert H; (apply digitChar_not; [done|char_code; lia]).
Qed.

Lemma parseInt_minus r :
  parseInt (String "-" r) =
    let '(R, s3) := readRadix r in
    match digitsPrefix R s3 with
    | [] => None
    | ds => Some (roundDouble (-1 * numberOf R ds))
    end.
Proof. reflexivity. Qed.

(** The integers that a double holds exactly and that are written without
    an exponent. *)
Lemma toString_safe n :
  Z.abs n ≤ 2 ^ 53 →
  toString n = if bool_decide (n < 0) then String "-" (digitsOf (- n)) else digitsOf n.
Proof.
  intros Hn. unfold toString.
  assert (Z.abs n < 10 ^ 21) as Ha by (eapply Z.le_lt_trans; [exact Hn|reflexivity]).
  assert (¬ infinity ≤ Z.abs n) as Hb.
  { intros Hb. apply (Z.lt_irrefl (Z.abs n)). eapply Z.lt_le_trans; [|exact Hb].
    eapply Z.lt_trans; [exact Ha|reflexivity]. }
  rewrite (bool_decide_eq_false_2 (infinity ≤ Z.abs n)) by done.
  rewrite (bool_decide_eq_true_2 (Z.abs n < 10 ^ 21)) by done.
  case_bool_decide; [f_equal|]; f_equal; lia.
Qed.

Lemma parseInt_toString n : Z.abs n ≤ 2 ^ 53 → parseInt (toString n) = Some n.
Proof.
  intros Hsafe. rewrite toString_safe by done. case_bool_decide as Hneg.
  - destruct (digitsOf_parse (- n)) as (Hall & ds & Hds & Hne & Hv); [lia|].
    destruct (allDigits_plain _ Hall) as (_ & _ & Hradix).
    rewrite parseInt_minus, Hradix, Hds. destruct ds; [done|]. rewrite Hv.
    f_equal. rewrite roundDouble_safe by lia. lia.
  - destruct (digitsOf_parse n) as (Hall & ds & Hds & Hne & Hv); [lia|].
    destruct (allDigits_plain _ Hall) as (Htrim & Hsign & Hradix).
    unfold parseInt. rewrite Htrim, Hsign, Hradix, Hds. destruct ds; [done|]. rewrite Hv.
    f_equal. rewrite roundDouble_safe by lia. lia.
Qed.

(** The ids of the store are such integers. *)
Lemma parseInt_toString_int4 n : int4 n → parseInt (toString n) = Some n.
Proof. intros H%int4_safe. by apply parseInt_toString. Qed.

(** From 10^21 on a number is written with an exponent, of which
    [parseInt] reads the digits before the point. *)
Remark toString_exponent :
  toString (10 ^ 21) = "1e+21" ∧ parseInt "1e+21" = Some 1 ∧
  toString (2 ^ 70) = "1.1805916207174113e+21" ∧
  parseInt "1.1805916207174113e+21" = Some 1.
Proof. by vm_compute. Qed.

(** X2. An id written by the client in a path (a template literal) is
    read back by [parseInt] as the same id, on every route that takes an
    id, when the id is an integer that a double holds exactly and that is
    written without an exponent (up to 2^53, which every id of an
    [integer] column is): such a request is never answered "Invalid ...
    ID", and it is handled as any other spelling of the id is. *)
Theorem client_ids_are_read_back (isUrl : string → bool) (r : Request) (n : Z) :
  Z.abs n ≤ 2 ^ 53 →
  parseInt (toString n) = Some n ∧
  (∀ p w, idParam r = Some p →
          ¬ invalidId (run (handle isUrl (withIdParam (toString n) r)) w).1) ∧
  (∀ p p', idParam r = Some p → parseInt p' = Some n →
           handle isUrl (withIdParam p' r) = handle isUrl (withIdParam (toString n) r)).
Proof.
  intros Hsafe. pose proof (parseInt_toString n Hsafe) as Hn. split; [done|]. split.
  - intros p w Hp Hbad.
    assert (idParam (withIdParam (toString n) r) = Some (toString n)) as Hid
      by (by destruct r).
    apply (invalid_id_iff isUrl _ _ w Hid) in Hbad. congruence.
  - intros p p' Hp Hp'.
    assert (idParam (withIdParam (toString n) r) = Some (toString n)) as Hid
      by (by destruct r).
    rewrite <- (handle_param_parse isUrl _ _ p' Hid) by congruence.
    by destruct r.
Qed.

Lemma client_ids_are_read_back_witness :
  toString 2147483647 = "2147483647" ∧
  parseInt (toString 2147483647) = Some 2147483647 ∧
  handle Example.anyUrl (PostClaim "alice" " 2147483647px") =
  handle Example.anyUrl (PostClaim "alice" (toString 2147483647)).
Proof.
  assert (Z.abs 2147483647 ≤ 2 ^ 53) as Hsafe by (by vm_compute).
  pose proof (client_ids_are_read_back Example.anyUrl (PostClaim "alice" "1") 2147483647
                Hsafe) as (Hread & _ & Hsame).
  split; [by vm_compute|]. split; [exact Hread|].
  apply (Hsame "1" " 2147483647px"); [reflexivity|by vm_compute].
Defined.

(** ** Signing in: [upsertUser] and the users table *)

Lemma head_filter_replace {A} (P : A → Prop) `{!∀ x, Decision (P x)} (row : A) (l : list A) :
  P row → filter P l ≠ [] →
  head (filter P ((λ x, if decide (P x) then row else x) <$> l)) = Some row.
Proof.
  intros Hrow. induction l as [|a l IH]; [done|]. intros Hne. rewrite fmap_cons.
  destruct (decide (P a)) as [Ha|Ha].
  - by rewrite filter_cons_True.
  - rewrite filter_cons_False by done. rewrite filter_cons_False in Hne by done. auto.
Qed.

Lemma upsertUser_users userData row w w' :
  upsertUser userData w = (inr row, w') →
  User.id row = UpsertUser.id userData ∧ text (UpsertUser.id userData) ∧
  userById (UpsertUser.id userData) (db w') = Some row ∧
  (∀ x, x ∈ userIds (db w) → x ∈ userIds (db w')).
Proof.
  unfold upsertUser. case_bool_decide as Ht; [done|]. case_bool_decide; [done|].
  destruct Ht as [Ht _].
  destruct (userById _ _) as [old|] eqn:E; intros [= <- <-]; cbn.
  - assert (User.id old = UpsertUser.id userData) as Hold.
    { by apply head_filter_Some in E as [_ ?]. }
    split; [done|]. split; [done|]. split.
    + unfold userById. cbn. rewrite Hold.
      apply (head_filter_replace (λ u, User.id u = UpsertUser.id userData)); [done|].
      intros Hnil. unfold userById in E. by rewrite Hnil in E.
    + unfold userIds. cbn. by rewrite fmap_replace_key.
  - split; [done|]. split; [done|]. split.
    + unfold userById in *. cbn [db set_db set_users users]. rewrite filter_app.
      apply head_None in E. rewrite E, app_nil_l, filter_cons_True by done. done.
    + intros x Hx. unfold userIds. cbn. rewrite fmap_app. apply elem_of_app. by left.
Qed.

(** X3. A sign-in that succeeds leaves the row it returns under the id of
    the session, where [getUser] and GET /api/auth/user find it; no user
    that had a row loses it. *)
Theorem sign_in_is_found (userData : UpsertUser.t) (row : User.t) (w w' : World) :
  upsertUser userData w = (inr row, w') →
  User.id row = UpsertUser.id userData ∧
  signedIn (UpsertUser.id userData) (db w') ∧
  run (get_auth_user (UpsertUser.id userData)) w' =
    (inr (mkResponse 200 (UserJson (Some row))), w') ∧
  (∀ u, signedIn u (db w) → signedIn u (db w')).
Proof.
  intros (Hid & Ht & Hget & Hsub)%upsertUser_users. split; [done|].
  split; [|split; [|done]].
  - unfold signedIn. apply dec_stable. intros Hn%userById_None. congruence.
  - unfold get_auth_user. rewrite run_try_catch, run_bind, run_select, getUser_text by done.
    by rewrite Hget.
Qed.

Lemma sign_in_is_found_witness :
  signedIn "carol" (db (upsertUser Scenario.carol Example.start).2) ∧
  signedIn "alice" (db (upsertUser Scenario.carol Example.start).2).
Proof.
  destruct (upsertUser Scenario.carol Example.start) as [r w'] eqn:E.
  vm_compute in E. injection E as <- <-.
  pose proof (sign_in_is_found Scenario.carol _ Example.start _ eq_refl)
    as (_ & Hin & _ & Hkeep).
  split; [exact Hin|]. apply Hkeep. by_compute.
Defined.

Lemma signedIn_same u d d' : users d' = users d → signedIn u d → signedIn u d'.
Proof. unfold signedIn, userIds. by intros ->. Qed.

Lemma signedIn_kept u : storage_keeps (signedIn u).
Proof.
  split.
  - intros data w. destruct (upsertUser_db data w) as (_ & _ & _ & _ & _ & _ & Hu).
    unfold signedIn. destruct Hu as [-> | (_ & _ & ->)]; [done|].
    intros Hx. apply elem_of_app. by left.
  - intros data w. apply signedIn_same. unfold createWishlist. cbn.
    repeat case_match; done.
  - intros id u' data w. apply signedIn_same. unfold updateWishlist.
    repeat case_match; done.
  - intros id u' w. apply signedIn_same. unfold deleteWishlist. repeat case_match; done.
  - intros data w. apply signedIn_same. unfold createItem.
    repeat case_match; done.
  - intros id u' data w. apply signedIn_same. unfold updateItem.
    repeat case_match; done.
  - intros id u' w. apply signedIn_same. unfold deleteItem. repeat case_match; done.
  - intros data w. apply signedIn_same. unfold createClaim.
    repeat case_match; done.
  - intros i u' w. apply signedIn_same. unfold deleteClaim. repeat case_match; done.
Qed.

Lemma preserves_residual (P : World → Prop) {A} (p : Prog A) w :
  preserves P p → preserves P (step p w).1.
Proof.
  intros Hp. destruct Hp as [a|e|X stmt k Hs Hk]; cbn; try constructor.
  destruct (stmt w) as [x w']. apply Hk.
Qed.

Section Inflight.
Variable isUrl : string → bool.
Context (Q : DB → Prop) (HQ : storage_keeps Q).

Lemma sys_step_inflight s s' :
  sys_step isUrl s s' →
  Forall (preserves (λ w, Q (db w))) (inflight s) →
  Forall (preserves (λ w, Q (db w))) (inflight s').
Proof.
  intros Hstep Hp. destruct Hstep as [r s|n p s Hn|userData s|t s Ht]; cbn; try done.
  - apply Forall_app. split; [done|]. by apply Forall_singleton, handle_preserves.
  - apply Forall_insert; [done|]. apply preserves_residual.
    eapply Forall_lookup_1; eauto.
Qed.

Lemma reachable_inflight s :
  reachable isUrl s → Forall (preserves (λ w, Q (db w))) (inflight s).
Proof.
  intros (s0 & [_ Hin] & Hsteps).
  assert (Forall (preserves (λ w, Q (db w))) (inflight s0)) as H0
    by (rewrite Hin; constructor).
  clear Hin. induction Hsteps as [|s1 s2 s3 Hstep _ IH]; [done|].
  apply IH. by eapply sys_step_inflight.
Qed.

Lemma reachable_keeps s s' :
  reachable isUrl s → rtc (sys_step isUrl) s s' → Q (db (world s)) → Q (db (world s')).
Proof.
  intros Hr Hsteps HQs.
  assert (sys_inv Q s) as Hinv by (split; [done|by apply reachable_inflight]).
  clear Hr HQs. induction Hsteps as [|s1 s2 s3 Hstep _ IH]; [apply Hinv|].
  apply IH. by eapply sys_step_inv.
Qed.
End Inflight.

(** X4. A user that has a row keeps it: from a state that the server has
    reached, whatever requests and sign-ins follow and however their
    statements are interleaved, a signed-in user is still signed in. *)
Theorem signed_in_stays (isUrl : string → bool) (u : string) (s s' : Sys) :
  reachable isUrl s → rtc (sys_step isUrl) s s' →
  signedIn u (db (world s)) → signedIn u (db (world s')).
Proof. apply reachable_keeps, signedIn_kept. Qed.

(** ** The declared lengths *)








(** ** Creating a wishlist and finding it again *)

Lemma insertWishlistSchema_data body data :
  insertWishlistSchema body = inr data →
  ∃ o, body = Some o ∧
       o !! "name" = Some (JString (InsertWishlistInput.name data)) ∧
       1 ≤ strlen (InsertWishlistInput.name data) ≤ 255 ∧
       zStringOptional (o !! "description") = Some (InsertWishlistInput.description data).
Proof.
  unfold insertWishlistSchema. destruct body as [o|]; [|done].
  unfold zName. destruct (o !! "name") as [[| | |s| |]|] eqn:En; cbn;
    try (destruct (zStringOptional _); done).
  case_bool_decide; [|destruct (zStringOptional _); done].
  destruct (zStringOptional _) as [d|] eqn:Ed; [|done]. intros [= <-]. cbn. eauto.
Qed.

Lemma no_items_of_next_wishlist d :
  db_ok d → filter (λ i, Item.wishlistId i = wishlists_id_seq d) (items d) = [].
Proof.
  intros [Hok _]. apply filter_none. intros i Hi Heq.
  pose proof (ok_items_wishlist_fk _ Hok i Hi) as Hfk.
  apply (ok_wishlists_seq _ Hok) in Hfk. lia.
Qed.

(** The values of a parsed body whose strings hold no U+0000 are taken as
    they are. *)
Lemma wishlistValues_text u data :
  1 ≤ strlen (InsertWishlistInput.name data) ≤ 255 →
  text u → text (InsertWishlistInput.name data) →
  textOpt (InsertWishlistInput.description data) →
  wishlistValues (insertWishlistOf data u) = inr (insertWishlistOf data u).
Proof.
  intros Hl Hu Hn Hd. unfold wishlistValues. cbn.
  rewrite (proj2 (pgText_inr u u)) by done. cbn.
  rewrite varchar_fits by (done || lia). cbn.
  by rewrite (proj2 (optional_pgText_inr _ _) (conj eq_refl Hd)).
Qed.

Section NewWishlist.
Context (u : string) (body : ReqBody) (data : InsertWishlistInput.t) (w : World).
Hypothesis Hdata : insertWishlistSchema body = inr data.
Hypothesis Hok : db_ok (db w).
Hypothesis Hu : signedIn u (db w).
Hypothesis Hname : text (InsertWishlistInput.name data).
Hypothesis Hdesc : textOpt (InsertWishlistInput.description data).
Hypothesis Htext : text (entropy w (draws w)).
Hypothesis Hlen : strlen (entropy w (draws w)) ≤ 64.
Hypothesis Hfresh : entropy w (draws w) ∉ shareTokens (db w).

Lemma post_wishlist_created :
  run (post_wishlist u body) w =
    (inr (mkResponse 201 (WishlistJson (newWishlist u data w))), withNewWishlist u data w).
Proof.
  destruct (insertWishlistSchema_data _ _ Hdata) as (o & _ & _ & Hl & _).
  pose proof (db_ok_user_text _ _ Hok Hu) as Hut.
  unfold post_wishlist. rewrite Hdata. cbn. unfold createWishlist. cbn.
  rewrite wishlistValues_text by done. cbn.
  rewrite (proj2 (shareTokenValue_inr _ _) (conj eq_refl (conj Htext Hlen))). cbn.
  rewrite bool_decide_eq_false_2.
  2:{ intros Hid%(ok_wishlists_seq _ (proj1 Hok)). lia. }
  rewrite (bool_decide_eq_false_2 _ Hfresh).
  rewrite bool_decide_eq_false_2 by (intros H; by apply H).
  done.
Qed.

Lemma new_wishlist_by_token :
  wishlistByShareToken (entropy w (draws w)) (db (withNewWishlist u data w)) =
    Some (newWishlist u data w).
Proof.
  unfold wishlistByShareToken. cbn [db withNewWishlist wishlists set_wishlists].
  rewrite filter_app, filter_none.
  2:{ intros r Hr Heq. apply Hfresh. rewrite <- Heq. by apply list_elem_of_fmap_2. }
  by rewrite app_nil_l, filter_cons_True.
Qed.

Lemma new_wishlist_by_id :
  wishlistById (wishlists_id_seq (db w)) (Some u) (db (withNewWishlist u data w)) =
    Some (newWishlist u data w).
Proof.
  assert (∀ r, r ∈ wishlists (db w) → Wishlist.id r ≠ wishlists_id_seq (db w)) as Hid.
  { intros r Hr Heq. assert (Wishlist.id r ∈ wishlistIds (db w)) as Hin
      by (by apply list_elem_of_fmap_2).
    apply (ok_wishlists_seq _ (proj1 Hok)) in Hin. lia. }
  unfold wishlistById. cbn [db withNewWishlist wishlists set_wishlists].
  destruct (truthy u).
  - rewrite filter_app, filter_none by (intros r Hr [Heq _]; by eapply Hid).
    by rewrite app_nil_l, filter_cons_True.
  - rewrite filter_app, filter_none by (intros r Hr Heq; by eapply Hid).
    by rewrite app_nil_l, filter_cons_True.
Qed.

Lemma new_wishlist_items :
  itemsWithClaims (wishlists_id_seq (db w)) (db (withNewWishlist u data w)) = [].
Proof.
  unfold itemsWithClaims. cbn [db withNewWishlist items set_wishlists next_wishlists_id].
  by rewrite (no_items_of_next_wishlist _ Hok).
Qed.

Lemma new_wishlist_listed :
  filter (λ r, Wishlist.userId r = u) (wishlists (db (withNewWishlist u data w))) =
    (filter (λ r, Wishlist.userId r = u) (wishlists (db w)) ++ [newWishlist u data w])%list.
Proof.
  cbn [db withNewWishlist wishlists set_wishlists].
  by rewrite filter_app, filter_cons_True.
Qed.
End NewWishlist.

(** X6. A valid POST /api/wishlists by a signed-in user, with strings that
    hold no U+0000, with a generated token that is free and is a value of
    its column, and with an id left in the sequence, answers 201 with the
    new row: the next id, the user as owner, the name and description of
    the body, the generated token.  The wishlist is then found, with no
    item, under its token by anyone and under its id by its owner, and the
    owner's list is, in some order, what it was and the new wishlist with
    the counts 0 and 0. *)
Theorem new_wishlist_is_found
    (u : string) (body : ReqBody) (data : InsertWishlistInput.t) (w : World) :
  insertWishlistSchema body = inr data →
  db_ok (db w) → signedIn u (db w) →
  text (InsertWishlistInput.name data) → textOpt (InsertWishlistInput.description data) →
  text (entropy w (draws w)) → strlen (entropy w (draws w)) ≤ 64 →
  entropy w (draws w) ∉ shareTokens (db w) →
  wishlists_id_seq (db w) ≤ 2147483647 →
  let row := newWishlist u data w in
  let w' := withNewWishlist u data w in
  run (post_wishlist u body) w = (inr (mkResponse 201 (WishlistJson row)), w') ∧
  run (get_shared_wishlist (Wishlist.shareToken row)) w' =
    (inr (mkResponse 200 (WishlistWithItemsJson row [])), w') ∧
  run (get_wishlist u (toString (Wishlist.id row))) w' =
    (inr (mkResponse 200 (WishlistWithItemsJson row [])), w') ∧
  ∃ before after,
    run (get_wishlists u) w = (inr (mkResponse 200 (WishlistsJson before)), w) ∧
    run (get_wishlists u) w' = (inr (mkResponse 200 (WishlistsJson after)), w') ∧
    after ≡ₚ (before ++ [WishlistWithCounts.mk row 0 0])%list.
Proof.
  intros Hdata Hok Hu Hname Hdesc Htext Hlen Hfresh Hseq row w'. subst row w'.
  pose proof (db_ok_user_text _ _ Hok Hu) as Hut.
  assert (int4 (wishlists_id_seq (db w))) as H4.
  { pose proof (ok_wishlists_seq_pos _ (proj1 Hok)). unfold int4. lia. }
  split; [|split; [|split]].
  - by apply post_wishlist_created.
  - change (Wishlist.shareToken (newWishlist u data w)) with (entropy w (draws w)).
    rewrite get_shared_wishlist_run by done.
    rewrite (new_wishlist_by_token u data w Hfresh).
    change (Wishlist.id (newWishlist u data w)) with (wishlists_id_seq (db w)).
    by rewrite (new_wishlist_items u data w Hok).
  - change (Wishlist.id (newWishlist u data w)) with (wishlists_id_seq (db w)).
    rewrite (get_wishlist_run _ _ _ _ (parseInt_toString_int4 _ H4)) by done.
    rewrite (new_wishlist_by_id u data w Hok).
    by rewrite (new_wishlist_items u data w Hok).
  - eexists _, _. split; [by apply get_wishlists_run|].
    split; [by apply get_wishlists_run|].
    rewrite (new_wishlist_listed u data w), fmap_app. cbn.
    unfold itemCount, claimedCount. cbn.
    by rewrite (no_items_of_next_wishlist _ Hok).
Qed.

(** ** The owner guard of the writing routes *)

Lemma set_tables_id d :
  set_wishlists (wishlists d) (set_items (items d) (set_claims (claims d) d)) = d.
Proof. by destruct d. Qed.

Lemma set_items_claims_id d : set_items (items d) (set_claims (claims d) d) = d.
Proof. by destruct d. Qed.

Lemma deleteWishlist_none id u w :
  int4 id → text u →
  (∀ r, r ∈ wishlists (db w) → Wishlist.id r = id → Wishlist.userId r ≠ u) →
  deleteWishlist id u w = (inr false, w).
Proof.
  intros H4 Ht H. unfold deleteWishlist.
  rewrite bool_decide_eq_false_2 by (by intros H').
  rewrite bool_decide_eq_false_2 by (by intros H').
  rewrite (filter_none (λ r, Wishlist.id r = id ∧ Wishlist.userId r = u))
    by (intros r Hr [? ?]; by eapply H).
  rewrite (filter_all (λ r, ¬ (Wishlist.id r = id ∧ Wishlist.userId r = u)))
    by (intros r Hr [? ?]; by eapply H).
  cbn. rewrite (filter_all (λ i, Item.wishlistId i ∉ []))
    by (intros; apply not_elem_of_nil).
  rewrite (filter_none (λ i, Item.wishlistId i ∈ []))
    by (intros; apply not_elem_of_nil).
  cbn. rewrite (filter_all (λ c, Claim.itemId c ∉ []))
    by (intros; apply not_elem_of_nil).
  by rewrite set_tables_id, set_db_id.
Qed.

Lemma deleteItem_none id u w :
  int4 id → text u →
  (∀ i, i ∈ items (db w) → Item.id i = id →
        Item.wishlistId i ∉ ownedWishlistIds u (db w)) →
  deleteItem id u w = (inr false, w).
Proof.
  intros H4 Ht H. unfold deleteItem.
  rewrite bool_decide_eq_false_2 by (by intros H').
  rewrite bool_decide_eq_false_2 by (by intros H').
  rewrite (filter_none (λ i, Item.id i = id ∧ Item.wishlistId i ∈ ownedWishlistIds u (db w)))
    by (intros r Hr [? ?]; by eapply H).
  rewrite (filter_all (λ i, ¬ (Item.id i = id ∧ Item.wishlistId i ∈ ownedWishlistIds u (db w))))
    by (intros r Hr [? ?]; by eapply H).
  cbn. rewrite (filter_all (λ c, Claim.itemId c ∉ []))
    by (intros; apply not_elem_of_nil).
  by rewrite set_items_claims_id, set_db_id.
Qed.

(** An update whose values the store does not take fails before any row
    is looked at; one whose values it takes finds no row. *)
Lemma updateWishlist_none id u data w :
  int4 id → text u →
  (∀ r, r ∈ wishlists (db w) → Wishlist.id r = id → Wishlist.userId r ≠ u) →
  updateWishlist id u data w =
    (match wishlistSetValues data with inl e => inl e | inr _ => inr None end, w).
Proof.
  intros H4 Ht H. unfold updateWishlist.
  rewrite bool_decide_eq_false_2 by (by intros H').
  rewrite bool_decide_eq_false_2 by (by intros H').
  destruct (wishlistSetValues data) as [e|v]; [done|].
  rewrite (filter_none (λ r, Wishlist.id r = id ∧ Wishlist.userId r = u))
    by (intros r Hr [? ?]; by eapply H).
  done.
Qed.

Lemma updateItem_none id u data w :
  int4 id → text u →
  (∀ i, i ∈ items (db w) → Item.id i = id →
        Item.wishlistId i ∉ ownedWishlistIds u (db w)) →
  updateItem id u data w =
    (match itemSetValues data with inl e => inl e | inr _ => inr None end, w).
Proof.
  intros H4 Ht H. unfold updateItem.
  rewrite bool_decide_eq_false_2 by (by intros H').
  rewrite bool_decide_eq_false_2 by (by intros H').
  destruct (itemSetValues data) as [e|v]; [done|].
  rewrite (filter_none (λ i, Item.id i = id ∧ Item.wishlistId i ∈ ownedWishlistIds u (db w)))
    by (intros r Hr [? ?]; by eapply H).
  done.
Qed.

(** X7. A wishlist that is not the user's is to the writing routes a
    wishlist that is not there (the id being a value of its [integer]
    column and the user id a string of the store): DELETE of the
    wishlist, and POST of an item to it, answer 404 "Wishlist not found"
    and change nothing, and so does PATCH with a valid body whose values
    the store takes; with values that it does not take (a string with
    U+0000, a price that is too long) PATCH answers 500, the values being
    converted before any row is looked for, and changes nothing.  The same
    holds of DELETE and PATCH of an item that is not in a wishlist of the
    user, with "Item not found". *)
Theorem not_owner_gets_404
    (isUrl : string → bool) (u param : string) (id : Z) (body : ReqBody) (w : World) :
  parseInt param = Some id → int4 id → text u →
  ((∀ r, r ∈ wishlists (db w) → Wishlist.id r = id → Wishlist.userId r ≠ u) →
     run (delete_wishlist u param) w = (inr (NotFound "Wishlist not found"), w) ∧
     (∀ data, insertWishlistSchema_partial body = inr data →
        run (patch_wishlist u param body) w =
          (inr (if taken (wishlistSetValues (partialWishlistOf data))
                then NotFound "Wishlist not found"
                else StoreFailure "Failed to update wishlist"), w)) ∧
     (u ≠ "" →
        run (post_item isUrl u param body) w = (inr (NotFound "Wishlist not found"), w))) ∧
  ((∀ i, i ∈ items (db w) → Item.id i = id →
         Item.wishlistId i ∉ ownedWishlistIds u (db w)) →
     run (delete_item u param) w = (inr (NotFound "Item not found"), w) ∧
     (∀ data, insertItemSchema_partial isUrl body = inr data →
        run (patch_item isUrl u param body) w =
          (inr (if taken (itemSetValues (partialItemOf data))
                then NotFound "Item not found"
                else StoreFailure "Failed to update item"), w))).
Proof.
  intros Hp H4 Ht. split; intros H.
  - split; [|split].
    + unfold delete_wishlist.
      by rewrite Hp, run_try_catch, run_bind, run_await, deleteWishlist_none.
    + intros data Hd. unfold patch_wishlist.
      rewrite Hp, Hd, run_try_catch, run_bind, run_await, updateWishlist_none by done.
      by destruct (wishlistSetValues _).
    + intros Hu. unfold post_item.
      rewrite Hp, run_try_catch, run_bind, run_select, getWishlist_int4 by done.
      by rewrite wishlistById_hidden.
  - split.
    + unfold delete_item.
      by rewrite Hp, run_try_catch, run_bind, run_await, deleteItem_none.
    + intros data Hd. unfold patch_item.
      rewrite Hp, Hd, run_try_catch, run_bind, run_await, updateItem_none by done.
      by destruct (itemSetValues _).
Qed.

(** ** What a request leaves alone *)

Section MoreLists.
Context {A : Type} (P : A → Prop) `{Pdec : !∀ x, Decision (P x)}.

Lemma filter_fmap_fixed (f : A → A) (l : list A) :
  (∀ x, x ∈ l → (P (f x) ↔ P x) ∧ (P x → f x = x)) → filter P (f <$> l) = filter P l.
Proof.
  induction l as [|a l IH]; intros H; [done|]. rewrite fmap_cons.
  destruct (H a) as [Hiff Hfix]; [left|].
  assert (filter P (f <$> l) = filter P l) as IH' by (apply IH; intros x Hx; apply H; by right).
  destruct (decide (P a)) as [Ha|Ha].
  - rewrite !filter_cons_True by tauto. by rewrite Hfix, IH'.
  - rewrite !filter_cons_False by tauto. done.
Qed.

Lemma filter_filter_sub (Q : A → Prop) `{Qdec : !∀ x, Decision (Q x)} (l : list A) :
  (∀ x, x ∈ l → P x → Q x) → filter P (filter Q l) = filter P l.
Proof.
  induction l as [|a l IH]; intros H; [done|].
  assert (filter P (filter Q l) = filter P l) as IH' by (apply IH; intros x Hx; apply H; by right).
  destruct (decide (Q a)) as [Ha|Ha].
  - rewrite (filter_cons_True Q) by done.
    destruct (decide (P a)); [rewrite !filter_cons_True by done | rewrite !filter_cons_False by done];
      by rewrite IH'.
  - rewrite (filter_cons_False Q) by done. rewrite (filter_cons_False P); [done|].
    intros HP. apply Ha, H; [left|done].
Qed.

Lemma filter_snoc_False (l : list A) x : ¬ P x → filter P (l ++ [x])%list = filter P l.
Proof. intros Hx. by rewrite filter_app, filter_cons_False, app_nil_r. Qed.

Lemma filter_snoc_True (l : list A) x : P x → filter P (l ++ [x])%list = (filter P l ++ [x])%list.
Proof. intros Hx. by rewrite filter_app, filter_cons_True. Qed.
End MoreLists.

Lemma untouched_same u d d' :
  users d' = users d → wishlists d' = wishlists d → items d' = items d →
  claims d' = claims d → untouched u d d'.
Proof.
  intros Hu Hw Hi Hc. unfold untouched, wishlistsOfOthers, itemsOfOthers, claimsOfOthers.
  by rewrite Hu, Hw, Hi, Hc.
Qed.

Lemma untouched_refl u d : untouched u d d.
Proof. by apply untouched_same. Qed.

Lemma gone_items_owned id u d x :
  x ∈ Item.id <$> filter (λ i, Item.wishlistId i ∈
        Wishlist.id <$> filter (λ r, Wishlist.id r = id ∧ Wishlist.userId r = u)
                          (wishlists d)) (items d) →
  x ∈ ownedItemIds u d.
Proof.
  intros (i & -> & [Hg Hi]%list_elem_of_filter)%list_elem_of_fmap.
  apply list_elem_of_fmap_2, list_elem_of_filter. split; [|done].
  apply list_elem_of_fmap in Hg as (r & -> & [[_ Hr] Hin]%list_elem_of_filter).
  by apply list_elem_of_fmap_2, list_elem_of_filter.
Qed.

Lemma untouched_createWishlist u data w :
  untouched u (db w) (db (createWishlist (insertWishlistOf data u) w).2).
Proof.
  unfold createWishlist. cbn.
  destruct (andThen _ _) as [e|[v t]] eqn:Ev; [by apply untouched_same|].
  apply createWishlist_values in Ev as (Hv & _).
  apply wishlistValues_inr in Hv as (Hu%pgText_inr & _). cbn in Hu. destruct Hu as [Hu _].
  repeat (case_bool_decide; [by apply untouched_same|]).
  unfold untouched, wishlistsOfOthers, itemsOfOthers, claimsOfOthers. cbn.
  rewrite filter_snoc_False by (cbn; by intros H'). done.
Qed.

Lemma untouched_updateWishlist id u data w :
  untouched u (db w) (db (updateWishlist id u (partialWishlistOf data) w).2).
Proof.
  unfold updateWishlist.
  repeat (case_bool_decide; [by apply untouched_same|]).
  destruct (wishlistSetValues _) as [e|v] eqn:Ev; [by apply untouched_same|].
  apply wishlistSetValues_inr in Ev as (Hu%optional_None & _).
  repeat (case_bool_decide; [by apply untouched_same|]).
  unfold untouched, wishlistsOfOthers, itemsOfOthers, claimsOfOthers. cbn.
  split; [done|]. split; [|done]. apply filter_fmap_fixed. intros r Hr.
  case_decide as Hhit; [|done]. destruct Hhit as [_ Hown]. cbn. rewrite Hu. cbn.
  split; [done|]. by intros Hn.
Qed.

Lemma untouched_deleteWishlist id u w :
  untouched u (db w) (db (deleteWishlist id u w).2).
Proof.
  unfold deleteWishlist. repeat (case_bool_decide; [by apply untouched_refl|]).
  unfold untouched, wishlistsOfOthers, itemsOfOthers, claimsOfOthers. cbn.
  split; [done|]. split; [|split].
  - apply filter_filter_sub. intros r _ Hn [_ Hu]. done.
  - apply filter_filter_sub. intros i _ Hn Hg. apply Hn.
    apply list_elem_of_fmap in Hg as (r & -> & [[_ Hr] Hin]%list_elem_of_filter).
    by apply list_elem_of_fmap_2, list_elem_of_filter.
  - apply filter_filter_sub. intros c _ [_ Hn] Hg. apply Hn.
    by eapply gone_items_owned.
Qed.

Lemma untouched_createItem id u data w :
  id ∈ ownedWishlistIds u (db w) →
  untouched u (db w) (db (createItem (insertItemOf data id) w).2).
Proof.
  intros Hown. unfold createItem. cbn.
  destruct (itemValues _) as [e|v] eqn:Ev; [by apply untouched_same|].
  apply itemValues_inr in Ev as (Hid%integer_inr & _). cbn in Hid. destruct Hid as [Hid _].
  repeat (case_bool_decide; [by apply untouched_same|]).
  unfold untouched, wishlistsOfOthers, itemsOfOthers, claimsOfOthers. cbn.
  rewrite filter_snoc_False by (cbn; rewrite Hid; by intros H'). done.
Qed.

Lemma untouched_updateItem id u data w :
  untouched u (db w) (db (updateItem id u (partialItemOf data) w).2).
Proof.
  unfold updateItem.
  repeat (case_bool_decide; [by apply untouched_same|]).
  destruct (itemSetValues _) as [e|v] eqn:Ev; [by apply untouched_same|].
  apply itemSetValues_inr in Ev as (Hw%optional_None & _).
  repeat (case_bool_decide; [by apply untouched_same|]).
  unfold untouched, wishlistsOfOthers, itemsOfOthers, claimsOfOthers. cbn.
  split; [done|]. split; [done|]. split; [|done]. apply filter_fmap_fixed. intros i Hi.
  case_decide as Hhit; [|done]. destruct Hhit as [_ Hown]. cbn. rewrite Hw. cbn.
  split; [done|]. by intros Hn.
Qed.

Lemma untouched_deleteItem id u w :
  untouched u (db w) (db (deleteItem id u w).2).
Proof.
  unfold deleteItem. repeat (case_bool_decide; [by apply untouched_refl|]).
  unfold untouched, wishlistsOfOthers, itemsOfOthers, claimsOfOthers. cbn.
  split; [done|]. split; [done|]. split.
  - apply filter_filter_sub. intros i _ Hn [_ Hown]. done.
  - apply filter_filter_sub. intros c _ [_ Hn] Hg. apply Hn.
    apply list_elem_of_fmap in Hg as (i & -> & [[_ Hown] Hin]%list_elem_of_filter).
    by apply list_elem_of_fmap_2, list_elem_of_filter.
Qed.

Lemma untouched_createClaim i u w :
  untouched u (db w) (db (createClaim (InsertClaim.mk i u None) w).2).
Proof.
  unfold createClaim. cbn.
  repeat (case_bool_decide; [by apply untouched_same|]).
  unfold untouched, wishlistsOfOthers, itemsOfOthers, claimsOfOthers. cbn.
  rewrite filter_snoc_False by (cbn; by intros [H' _]). done.
Qed.

Lemma untouched_deleteClaim i u w :
  untouched u (db w) (db (deleteClaim i u w).2).
Proof.
  unfold deleteClaim. repeat (case_bool_decide; [by apply untouched_refl|]).
  unfold untouched, wishlistsOfOthers, itemsOfOthers, claimsOfOthers. cbn.
  split; [done|]. split; [done|]. split; [done|].
  apply filter_filter_sub. intros c _ [Hn _] [_ Hu]. done.
Qed.

(** The wishlist that a route has found for its user is the user's. *)
Lemma getWishlist_owned id u d r :
  u ≠ "" → getWishlist id (Some u) d = inr (Some r) →
  int4 id ∧ text u ∧ r ∈ wishlists d ∧ Wishlist.id r = id ∧ Wishlist.userId r = u ∧
  id ∈ ownedWishlistIds u d.
Proof.
  intros Hu. unfold getWishlist. case_bool_decide as H4; [done|].
  case_bool_decide as Ht; [done|]. intros [= E].
  change (wishlistById id (Some u) d = Some r) in E.
  rewrite wishlistById_truthy_userId in E by done.
  apply head_filter_Some in E as [Hin [<- Hown]].
  do 5 (split; [done|]). by apply list_elem_of_fmap_2, list_elem_of_filter.
Qed.

(** X8. No request changes what is not its user's.  After any request made
    with the session of a user [u], handled to its end, the users table,
    the wishlists of the other users, the items of the wishlists that were
    not [u]'s, and the claims of other users on such items are as they
    were before. *)
Theorem others_are_untouched (isUrl : string → bool) (r : Request) (u : string) (w : World) :
  requestUser r = Some u → u ≠ "" →
  untouched u (db w) (db (run (handle isUrl r) w).2).
Proof.
  intros Hr Hu.
  destruct r as [u'|u'|u' id|token|u' body|u' id body|u' id|u' id body|u' id body
                |u' id|u' id|u' id]; cbn [requestUser] in Hr; simplify_eq; cbn [handle].
  - rewrite (proj1 get_routes_world). apply untouched_refl.
  - rewrite (proj1 (proj2 get_routes_world)). apply untouched_refl.
  - rewrite (proj1 (proj2 (proj2 get_routes_world))). apply untouched_refl.
  - unfold post_wishlist. rewrite run_try_catch_failed.
    destruct (insertWishlistSchema body) as [issues|data]; [apply untouched_refl|].
    rewrite run_await_bind by done. apply untouched_createWishlist.
  - unfold patch_wishlist. rewrite run_try_catch_failed.
    destruct (parseInt id) as [n|]; [|apply untouched_refl].
    destruct (insertWishlistSchema_partial body) as [issues|data]; [apply untouched_refl|].
    rewrite run_await_bind by (by intros [x|] w').
    apply untouched_updateWishlist.
  - unfold delete_wishlist. rewrite run_try_catch_failed.
    destruct (parseInt id) as [n|]; [|apply untouched_refl].
    rewrite run_await_bind by (by intros [|] w'). apply untouched_deleteWishlist.
  - unfold post_item. rewrite run_try_catch_failed.
    destruct (parseInt id) as [n|]; [|apply untouched_refl].
    rewrite run_bind, run_select.
    destruct (getWishlist n (Some u) (db w)) as [e|[wl|]] eqn:Ewl; try apply untouched_refl.
    destruct (insertItemSchema isUrl body) as [issues|data]; [apply untouched_refl|].
    rewrite run_await_bind by done. apply untouched_createItem.
    by apply (getWishlist_owned _ _ _ _ Hu Ewl).
  - unfold patch_item. rewrite run_try_catch_failed.
    destruct (parseInt id) as [n|]; [|apply untouched_refl].
    destruct (insertItemSchema_partial isUrl body) as [issues|data]; [apply untouched_refl|].
    rewrite run_await_bind by (by intros [x|] w').
    apply untouched_updateItem.
  - unfold delete_item. rewrite run_try_catch_failed.
    destruct (parseInt id) as [n|]; [|apply untouched_refl].
    rewrite run_await_bind by (by intros [|] w'). apply untouched_deleteItem.
  - unfold post_claim. rewrite run_try_catch_failed.
    destruct (parseInt id) as [n|]; [|apply untouched_refl].
    rewrite run_bind, run_select.
    destruct (getItem n (db w)) as [e|[item|]]; try apply untouched_refl.
    rewrite run_bind, run_select.
    destruct (getClaim n (db w)) as [e|[c|]]; try apply untouched_refl.
    rewrite run_bind, run_query.
    match goal with |- context [if ?b then _ else _] => destruct b end;
      [apply untouched_refl|].
    rewrite run_await_bind by done. apply untouched_createClaim.
  - unfold delete_claim. rewrite run_try_catch_failed.
    destruct (parseInt id) as [n|]; [|apply untouched_refl].
    rewrite run_await_bind by (by intros [|] w'). apply untouched_deleteClaim.
Qed.

(** ** Adding an item: POST /api/wishlists/:wishlistId/items *)



(** The owner of a wishlist of a store of the schema has a row, and the
    id of the wishlist is a value of its column. *)
Lemma owned_wishlist_values id u d :
  db_ok d → id ∈ ownedWishlistIds u d → int4 id ∧ text u ∧ id ∈ wishlistIds d.
Proof.
  intros Hok (r & -> & [<- Hin]%list_elem_of_filter)%list_elem_of_fmap.
  assert (Wishlist.id r ∈ wishlistIds d) as Hid by (by apply list_elem_of_fmap_2).
  split; [by eapply db_ok_wishlist_int4|]. split; [|done].
  apply (ok_users_text _ (proj1 Hok)). by apply (ok_wishlists_user_fk _ (proj1 Hok)).
Qed.

(** An insert that succeeds: the values were taken, the row has the next
    id and is the last of the table. *)
Lemma createItem_inr data w row w' :
  constraints_ok (db w) →
  createItem data w = (inr row, w') ↔
  ∃ v, itemValues data = inr v ∧ InsertItem.wishlistId v ∈ wishlistIds (db w) ∧
       row = Item.mk (items_id_seq (db w)) (InsertItem.wishlistId v) (InsertItem.name v)
               (InsertItem.url v) (InsertItem.description v) (InsertItem.price v)
               (InsertItem.imageUrl v)
               (default (clock w) (InsertItem.createdAt v))
               (default (clock w) (InsertItem.updatedAt v)) ∧
       w' = set_db (set_items (items (db w) ++ [row]) (next_items_id (db w))) w.
Proof.
  intros Hok. unfold createItem. destruct (itemValues data) as [e|v].
  { split; [done|]. by intros (v & ? & _). }
  cbn. rewrite bool_decide_eq_false_2.
  2:{ intros Hid%(ok_items_seq _ Hok). lia. }
  case_bool_decide as Hfk.
  - split; [done|]. intros (v' & [= <-] & Hin & _). done.
  - split.
    + intros [= <- <-]. exists v. split; [done|]. split; [|done].
      first [done | by apply dec_stable].
    + by intros (v' & [= <-] & _ & -> & ->).
Qed.




Section NewItem.
Variable isUrl : string → bool.
Context (u param : string) (id : Z) (body : ReqBody) (w : World).
Hypothesis Hparse : parseInt param = Some id.

(** The route, statement by statement. *)
Lemma post_item_run :
  run (post_item isUrl u param body) w =
    match getWishlist id (Some u) (db w) with
    | inl _ => (inr (StoreFailure "Failed to create item"), w)
    | inr None => (inr (NotFound "Wishlist not found"), w)
    | inr (Some _) =>
        match insertItemSchema isUrl body with
        | inl issues => (inr (mkResponse 400 (ZodError issues)), w)
        | inr data =>
            match createItem (insertItemOf data id) w with
            | (inl _, w') => (inr (StoreFailure "Failed to create item"), w')
            | (inr item, w') => (inr (mkResponse 201 (ItemJson item)), w')
            end
        end
    end.
Proof.
  unfold post_item. rewrite Hparse, run_try_catch, run_bind, run_select.
  destruct (getWishlist id (Some u) (db w)) as [e|[r|]]; try done.
  destruct (insertItemSchema isUrl body) as [issues|data]; [done|].
  rewrite run_bind, run_await. by destruct (createItem _ w) as [[e|item] w'].
Qed.

Hypothesis Hu : u ≠ "".
Hypothesis Hok : db_ok (db w).
Hypothesis Hown : id ∈ ownedWishlistIds u (db w).




End NewItem.


(** ** The views of a wishlist after a new item *)

Lemma itemsWithClaims_snoc d row id' :
  (∀ c, c ∈ claims d → Claim.itemId c ≠ Item.id row) →
  itemsWithClaims id' (set_items (items d ++ [row]) (next_items_id d)) =
    (itemsWithClaims id' d ++
       if decide (Item.wishlistId row = id') then [(row, None, None)] else [])%list.
Proof.
  intros Hc. unfold itemsWithClaims.
  cbn [items set_items claims users next_items_id].
  rewrite filter_app, bind_app. f_equal.
  case_decide as Hid.
  - rewrite filter_cons_True by done. cbn.
    by rewrite (filter_none (λ c, Claim.itemId c = Item.id row)) by done.
  - by rewrite filter_cons_False.
Qed.

(** X10. A new item is shown, unclaimed, in its wishlist: after a 201 of
    POST .../items with the row [row], in a store of the schema, the
    owner's view of the wishlist and the view under its share token show,
    each in some order, the items shown before and the new row with no
    claim;
    the row has an id that no item had, it is in the wishlist of the path,
    the count of its items is one more, the count of the claimed ones the
    same. *)
Theorem new_item_is_listed
    (isUrl : string → bool) (u param : string) (id : Z) (body : ReqBody)
    (row : Item.t) (w w' : World) :
  parseInt param = Some id → u ≠ "" → db_ok (db w) →
  run (post_item isUrl u param body) w = (inr (mkResponse 201 (ItemJson row)), w') →
  let shown (wishlist : Wishlist.t) (l : list ItemWithClaim.t) :=
    inr (mkResponse 200 (WishlistWithItemsJson wishlist l)) in
  (Item.id row ∉ itemIds (db w)) ∧ Item.wishlistId row = id ∧
  ∃ wishlist before after shared,
    run (get_wishlist u param) w = (shown wishlist before, w) ∧
    run (get_wishlist u param) w' = (shown wishlist after, w') ∧
    run (get_shared_wishlist (Wishlist.shareToken wishlist)) w' =
      (shown wishlist shared, w') ∧
    after ≡ₚ (before ++ [ItemWithClaim.mk row None])%list ∧
    shared ≡ₚ (before ++ [ItemWithClaim.mk row None])%list ∧
    itemCount id (db w') = itemCount id (db w) + 1 ∧
    claimedCount id (db w') = claimedCount id (db w).
Proof.
  intros Hp Hu Hok Hrun shown. subst shown.
  rewrite (post_item_run isUrl u param id body w Hp) in Hrun.
  destruct (getWishlist id (Some u) (db w)) as [e|[r|]] eqn:Er; try done.
  destruct (insertItemSchema isUrl body) as [issues|data]; [done|].
  destruct (createItem (insertItemOf data id) w) as [[e|item] w1] eqn:Ec; [done|].
  injection Hrun as <- <-.
  apply (createItem_inr _ _ _ _ (proj1 Hok)) in Ec as (v & Hv & Hin & Hrow & ->).
  apply itemValues_inr in Hv as (Hid%integer_inr & _). cbn in Hid. destruct Hid as [Hid _].
  assert (Item.id item = items_id_seq (db w)) as Hnew by (by rewrite Hrow).
  assert (Item.wishlistId item = id) as Hwl by (by rewrite Hrow).
  assert (∀ c, c ∈ claims (db w) → Claim.itemId c ≠ Item.id item) as Hnc.
  { intros c Hc Heq. pose proof (ok_claims_item_fk _ (proj1 Hok) c Hc) as Hfk.
    apply (ok_items_seq _ (proj1 Hok)) in Hfk. lia. }
  destruct (getWishlist_owned _ _ _ _ Hu Er) as (H4 & Ht & Hr & Hrid & Hru & _).
  assert (text (Wishlist.shareToken r)) as Htok by (by eapply db_ok_token_text).
  split; [|split; [done|]].
  { rewrite Hnew. intros Hi%(ok_items_seq _ (proj1 Hok)). lia. }
  exists r, (formatItem <$> itemsWithClaims id (db w)),
    ((formatItem <$> itemsWithClaims id (db w)) ++ [ItemWithClaim.mk item None])%list,
    ((formatItem <$> itemsWithClaims id (db w)) ++ [ItemWithClaim.mk item None])%list.
  assert (wishlistById id (Some u) (db w) = Some r) as Hget.
  { revert Er. rewrite getWishlist_int4 by done. congruence. }
  split; [|split; [|split; [|split; [|split; [|split]]]]].
  - by rewrite (get_wishlist_run _ _ _ _ Hp), Hget.
  - rewrite (get_wishlist_run _ _ _ _ Hp) by done. cbn [db set_db].
    change (wishlistById id (Some u) (set_items _ _)) with (wishlistById id (Some u) (db w)).
    rewrite Hget, itemsWithClaims_snoc by done. rewrite decide_True by done.
    by rewrite fmap_app.
  - rewrite get_shared_wishlist_run by done. cbn [db set_db].
    change (wishlistByShareToken (Wishlist.shareToken r) (set_items _ _))
      with (wishlistByShareToken (Wishlist.shareToken r) (db w)).
    rewrite (wishlist_by_token _ _ Hok Hr), Hrid, itemsWithClaims_snoc by done.
    rewrite decide_True by done. by rewrite fmap_app.
  - done.
  - done.
  - unfold itemCount. cbn [db set_db items set_items].
    rewrite filter_snoc_True by done. rewrite length_app. cbn. lia.
  - unfold claimedCount. cbn [db set_db items set_items claims next_items_id].
    rewrite filter_snoc_True by done. rewrite bind_app. cbn.
    rewrite (filter_none (λ c, Claim.itemId c = Item.id item)) by done.
    by rewrite !app_nil_r.
Qed.

(** ** The views of a wishlist and the counts *)

Lemma filter_key_unique {A B} (f : A → B) `{!EqDecision B} (l : list A) (k : B) :
  NoDup (f <$> l) →
  filter (λ x, f x = k) l = [] ∨ ∃ x, filter (λ x, f x = k) l = [x].
Proof.
  induction l as [|a l IH]; [by left|]. rewrite fmap_cons. intros [Ha Hl]%NoDup_cons.
  destruct (decide (f a = k)) as [Hk|Hk].
  - right. exists a. rewrite filter_cons_True by done. f_equal.
    apply filter_none. intros x Hx Hfx. apply Ha. rewrite Hk, <- Hfx.
    by apply list_elem_of_fmap_2.
  - rewrite filter_cons_False by done. auto.
Qed.

Lemma claim_user_found d c :
  db_ok d → c ∈ claims d →
  ∃ usr, filter (λ x, User.id x = Claim.userId c) (users d) = [usr].
Proof.
  intros [Hok _] Hc.
  destruct (filter_key_unique User.id (users d) (Claim.userId c) (ok_users_pkey _ Hok))
    as [Hnil|Hone]; [|done].
  exfalso. pose proof (ok_claims_user_fk _ Hok c Hc) as Hfk.
  apply list_elem_of_fmap in Hfk as (usr & Heq & Hin).
  by eapply (filter_nil_not_elem_of _ _ usr Hnil).
Qed.

(** The rows of the two left joins for one item, under the constraints. *)
Lemma item_rows d i :
  db_ok d →
  (filter (λ c, Claim.itemId c = Item.id i) (claims d) = [] ∧
   ItemWithClaim.claim (viewOf d i) = None) ∨
  (∃ c usr, filter (λ c, Claim.itemId c = Item.id i) (claims d) = [c] ∧
            filter (λ x, User.id x = Claim.userId c) (users d) = [usr] ∧
            ItemWithClaim.claim (viewOf d i) = Some (c, usr)).
Proof.
  intros Hok.
  destruct (filter_key_unique Claim.itemId (claims d) (Item.id i)
              (ok_claims_item_unique _ (proj1 Hok))) as [Hnil|[c Hone]].
  - left. split; [done|]. unfold viewOf, claimByItemId. cbn. by rewrite Hnil.
  - right. assert (c ∈ claims d) as Hc.
    { assert (c ∈ filter (λ c, Claim.itemId c = Item.id i) (claims d)) as Hin
        by (rewrite Hone; left).
      by apply list_elem_of_filter in Hin as [_ ?]. }
    destruct (claim_user_found _ _ Hok Hc) as [usr Husr].
    exists c, usr. split; [done|]. split; [done|].
    unfold viewOf, claimByItemId, userById. cbn. rewrite Hone. cbn. by rewrite Husr.
Qed.

Lemma itemsWithClaims_views d id :
  db_ok d →
  formatItem <$> itemsWithClaims id d =
    viewOf d <$> filter (λ i, Item.wishlistId i = id) (items d).
Proof.
  intros Hok. unfold itemsWithClaims.
  induction (filter (λ i, Item.wishlistId i = id) (items d)) as [|i l IH]; [done|].
  rewrite bind_cons, fmap_app, IH, fmap_cons. f_equal.
  destruct (item_rows d i Hok) as [[Hnil Hv]|(c & usr & Hc & Husr & Hv)].
  - rewrite Hnil. cbn. f_equal. destruct (viewOf d i) as [i' cl] eqn:E.
    unfold viewOf in E. injection E as <- <-. by rewrite <- Hv.
  - rewrite Hc. cbn. rewrite Husr. cbn. f_equal. by rewrite <- Hv.
Qed.

Lemma view_claimed d i :
  db_ok d → is_Some (ItemWithClaim.claim (viewOf d i)) ↔ Item.id i ∈ claimedItemIds d.
Proof.
  intros Hok. destruct (item_rows d i Hok) as [[Hnil Hv]|(c & usr & Hc & Husr & Hv)].
  - rewrite Hv. split; [by intros [? ?]|]. intros (c & Heq & Hin)%list_elem_of_fmap.
    exfalso. by eapply (filter_nil_not_elem_of _ _ c Hnil).
  - rewrite Hv. split; [|by eexists]. intros _.
    assert (c ∈ filter (λ c, Claim.itemId c = Item.id i) (claims d)) as Hin
      by (rewrite Hc; left).
    apply list_elem_of_filter in Hin as [<- Hin]. by apply list_elem_of_fmap_2.
Qed.

Lemma view_claim_rows d i c usr :
  ItemWithClaim.claim (viewOf d i) = Some (c, usr) →
  c ∈ claims d ∧ Claim.itemId c = Item.id i ∧ usr ∈ users d ∧ User.id usr = Claim.userId c.
Proof.
  unfold viewOf. cbn.
  destruct (claimByItemId _ _) as [c'|] eqn:Ec; [|done]. cbn.
  destruct (userById _ _) as [usr'|] eqn:Eu; [|done]. cbn. intros [= <- <-].
  apply head_filter_Some in Ec as [? ?]. apply head_filter_Some in Eu as [? ?]. done.
Qed.

Lemma claimedCount_views d id :
  db_ok d →
  WishlistPage.claimedCount (formatItem <$> itemsWithClaims id d) = claimedCount id d ∧
  WishlistPage.totalCount (formatItem <$> itemsWithClaims id d) = itemCount id d ∧
  0 ≤ claimedCount id d ≤ itemCount id d.
Proof.
  intros Hok. rewrite itemsWithClaims_views by done.
  unfold WishlistPage.claimedCount, WishlistPage.totalCount, claimedCount, itemCount.
  rewrite length_fmap. split; [|split; [done|]].
  - f_equal. induction (filter (λ i, Item.wishlistId i = id) (items d)) as [|i l IH];
      [done|].
    rewrite bind_cons, length_app, fmap_cons, <- IH.
    destruct (item_rows d i Hok) as [[Hnil Hv]|(c & usr & Hc & Husr & Hv)].
    + rewrite Hnil, filter_cons_False; [done|]. rewrite Hv. by intros [? ?].
    + rewrite Hc, filter_cons_True; [done|]. rewrite Hv. by eexists.
  - split; [lia|]. apply inj_le.
    induction (filter (λ i, Item.wishlistId i = id) (items d)) as [|i l IH];
      [done|].
    rewrite bind_cons, length_app. cbn [length].
    destruct (item_rows d i Hok) as [[Hnil Hv]|(c & usr & Hc & Husr & Hv)].
    + rewrite Hnil. cbn. lia.
    + rewrite Hc. cbn. lia.
Qed.

(** The owner of a wishlist of the store reads it under its id. *)
Lemma owner_reads_wishlist r w :
  db_ok (db w) → r ∈ wishlists (db w) →
  run (get_wishlist (Wishlist.userId r) (toString (Wishlist.id r))) w =
    (inr (mkResponse 200 (WishlistWithItemsJson r
            (formatItem <$> itemsWithClaims (Wishlist.id r) (db w)))), w).
Proof.
  intros Hok Hr.
  assert (int4 (Wishlist.id r)) as H4
    by (eapply db_ok_wishlist_int4; [done|by apply list_elem_of_fmap_2]).
  assert (text (Wishlist.userId r)) as Ht.
  { apply (ok_users_text _ (proj1 Hok)). by apply (ok_wishlists_user_fk _ (proj1 Hok)). }
  rewrite (get_wishlist_run _ _ _ _ (parseInt_toString_int4 _ H4)) by done.
  destruct (wishlist_by_id _ _ Hok Hr) as [_ ->].
  by rewrite bool_decide_eq_true_2 by (by right).
Qed.

Lemma anyone_reads_shared r w :
  db_ok (db w) → r ∈ wishlists (db w) →
  run (get_shared_wishlist (Wishlist.shareToken r)) w =
    (inr (mkResponse 200 (WishlistWithItemsJson r
            (formatItem <$> itemsWithClaims (Wishlist.id r) (db w)))), w).
Proof.
  intros Hok Hr. rewrite get_shared_wishlist_run by (by eapply db_ok_token_text).
  by rewrite (wishlist_by_token _ _ Hok Hr).
Qed.

(** X11. In a store of the schema the two views of a wishlist show each
    of its items exactly once (in an order that no query fixes), with the
    claim on it and the claiming user when the item is claimed and with no
    claim when it is not; the shared view of a wishlist shows the wishlist
    and the items that the owner's view of it shows. *)
Theorem views_show_each_item_once (id : Z) (d : DB) :
  db_ok d →
  formatItem <$> itemsWithClaims id d ≡ₚ
    viewOf d <$> filter (λ i, Item.wishlistId i = id) (items d) ∧
  (∀ i, is_Some (ItemWithClaim.claim (viewOf d i)) ↔ Item.id i ∈ claimedItemIds d) ∧
  (∀ i c usr, ItemWithClaim.claim (viewOf d i) = Some (c, usr) →
              c ∈ claims d ∧ Claim.itemId c = Item.id i ∧
              usr ∈ users d ∧ User.id usr = Claim.userId c) ∧
  (∀ r w, db w = d → r ∈ wishlists d → Wishlist.id r = id →
     ∃ shared owned,
       run (get_shared_wishlist (Wishlist.shareToken r)) w =
         (inr (mkResponse 200 (WishlistWithItemsJson r shared)), w) ∧
       run (get_wishlist (Wishlist.userId r) (toString id)) w =
         (inr (mkResponse 200 (WishlistWithItemsJson r owned)), w) ∧
       shared ≡ₚ owned ∧
       owned ≡ₚ viewOf d <$> filter (λ i, Item.wishlistId i = id) (items d)).
Proof.
  intros Hok. split; [|split; [|split]].
  - by rewrite itemsWithClaims_views.
  - intros i. by apply view_claimed.
  - apply view_claim_rows.
  - intros r w <- Hr <-. eexists _, _.
    split; [by apply anyone_reads_shared|]. split; [by apply owner_reads_wishlist|].
    split; [done|]. by rewrite itemsWithClaims_views.
Qed.

(** X12. The counts of the home page are the counts of the wishlist page:
    for each wishlist that GET /api/wishlists lists for [u], with its
    [itemCount] and [claimedCount], GET /api/wishlists/:id answers with
    that wishlist and a list of items whose length is the [itemCount] and
    of which [claimedCount] have a claim; and no more items are claimed
    than there are. *)
Theorem page_counts_agree (u : string) (w : World) (e : WishlistWithCounts.t) :
  db_ok (db w) →
  (∃ l, run (get_wishlists u) w = (inr (mkResponse 200 (WishlistsJson l)), w) ∧ e ∈ l) →
  ∃ views,
    run (get_wishlist u (toString (Wishlist.id (WishlistWithCounts.wishlist e)))) w =
      (inr (mkResponse 200
              (WishlistWithItemsJson (WishlistWithCounts.wishlist e) views)), w) ∧
    WishlistPage.totalCount views = WishlistWithCounts.itemCount e ∧
    WishlistPage.claimedCount views = WishlistWithCounts.claimedCount e ∧
    0 ≤ WishlistWithCounts.claimedCount e ≤ WishlistWithCounts.itemCount e.
Proof.
  intros Hok (l & Hrun & He).
  assert (text u) as Ht.
  { apply dec_stable. intros Hn. revert Hrun. unfold get_wishlists, getWishlists.
    rewrite run_try_catch, run_bind, run_select.
    by rewrite bool_decide_eq_true_2 by done. }
  rewrite get_wishlists_run in Hrun by done.
  injection Hrun as <-.
  apply list_elem_of_fmap in He as (r & -> & [Hu Hr]%list_elem_of_filter). cbn.
  destruct (claimedCount_views (db w) (Wishlist.id r) Hok) as (Hc & Hn & Hle).
  eexists. split; [|split; [exact Hn|split; [exact Hc|exact Hle]]].
  rewrite <- Hu. by apply owner_reads_wishlist.
Qed.

(** ** The buttons of an item card *)




(** ** The forms of the client and the schemas of the server *)

Lemma withField_lookup key value o k :
  withField key value o !! k =
    if decide (key = k)
    then match value with Some s => Some (JString s) | None => o !! k end
    else o !! k.
Proof.
  unfold withField. destruct value as [s|]; case_decide; subst; try done.
  - by rewrite lookup_insert_eq.
  - by rewrite lookup_insert_ne.
Qed.

Lemma zName_again v s : zName v = Some s → zName (Some (JString s)) = Some s.
Proof.
  unfold zName. destruct v as [[| | |s'| |]|]; try done.
  case_bool_decide; [|done]. intros [= <-]. by rewrite bool_decide_eq_true_2.
Qed.

Lemma zStringOptional_again x :
  zStringOptional (match x with Some s => Some (JString s) | None => None end) = Some x.
Proof. by destruct x. Qed.

Lemma zUrlOptional_again isUrl v x :
  zUrlOptional isUrl v = Some x →
  zUrlOptional isUrl (match x with Some s => Some (JString s) | None => None end) = Some x.
Proof.
  unfold zUrlOptional. destruct v as [[| | |s| |]|]; try done.
  - destruct (isUrl s || bool_decide (s = "")) eqn:E; [|done]. intros [= <-]. by rewrite E.
  - by intros [= <-].
Qed.

Lemma wishlistBody_lookup data :
  ∃ o, wishlistBody data = Some o ∧
       o !! "name" = Some (JString (InsertWishlistInput.name data)) ∧
       o !! "description" =
         match InsertWishlistInput.description data with
         | Some s => Some (JString s) | None => None
         end.
Proof.
  eexists. split; [reflexivity|]. rewrite !withField_lookup.
  split; [|by destruct (InsertWishlistInput.description data)].
  rewrite decide_False by done. by rewrite lookup_insert_eq.
Qed.

Lemma itemBody_lookup data :
  ∃ o, itemBody data = Some o ∧
       o !! "name" = Some (JString (InsertItemInput.name data)) ∧
       o !! "url" =
         match InsertItemInput.url data with Some s => Some (JString s) | None => None end ∧
       o !! "description" =
         match InsertItemInput.description data with
         | Some s => Some (JString s) | None => None
         end ∧
       o !! "price" =
         match InsertItemInput.price data with Some s => Some (JString s) | None => None end ∧
       o !! "imageUrl" =
         match InsertItemInput.imageUrl data with
         | Some s => Some (JString s) | None => None
         end.
Proof.
  eexists. split; [reflexivity|]. rewrite !withField_lookup.
  split; [|split; [|split; [|split]]].
  - repeat (rewrite decide_False by done). by rewrite lookup_insert_eq.
  - repeat (rewrite decide_False by done). rewrite decide_True by done.
    by destruct (InsertItemInput.url data).
  - repeat (rewrite decide_False by done). rewrite decide_True by done.
    destruct (InsertItemInput.description data); [done|].
    repeat (rewrite decide_False by done). done.
  - repeat (rewrite decide_False by done). rewrite decide_True by done.
    destruct (InsertItemInput.price data); [done|].
    repeat (rewrite decide_False by done). done.
  - rewrite decide_True by done.
    destruct (InsertItemInput.imageUrl data); [done|].
    repeat (rewrite decide_False by done). done.
Qed.

Lemma insertItemSchema_fields isUrl body data :
  insertItemSchema isUrl body = inr data →
  ∃ o, body = Some o ∧
       zName (o !! "name") = Some (InsertItemInput.name data) ∧
       zUrlOptional isUrl (o !! "url") = Some (InsertItemInput.url data) ∧
       zStringOptional (o !! "description") = Some (InsertItemInput.description data) ∧
       zStringOptional (o !! "price") = Some (InsertItemInput.price data) ∧
       zUrlOptional isUrl (o !! "imageUrl") = Some (InsertItemInput.imageUrl data).
Proof.
  unfold insertItemSchema. destruct body as [o|]; [|done].
  destruct (zName (o !! "name")) as [n|] eqn:En; [|repeat case_match; done].
  destruct (zUrlOptional isUrl (o !! "url")) as [x|] eqn:Ex; [|repeat case_match; done].
  destruct (zStringOptional (o !! "description")) as [d|] eqn:Ed; [|repeat case_match; done].
  destruct (zStringOptional (o !! "price")) as [p|] eqn:Ep; [|repeat case_match; done].
  destruct (zUrlOptional isUrl (o !! "imageUrl")) as [i|] eqn:Ei; [|done].
  intros [= <-]. cbn. by exists o.
Qed.

Lemma insertWishlistSchema_fields body data :
  insertWishlistSchema body = inr data →
  ∃ o, body = Some o ∧ zName (o !! "name") = Some (InsertWishlistInput.name data) ∧
       zStringOptional (o !! "description") = Some (InsertWishlistInput.description data).
Proof.
  unfold insertWishlistSchema. destruct body as [o|]; [|done].
  destruct (zName (o !! "name")) as [n|] eqn:En; [|repeat case_match; done].
  destruct (zStringOptional (o !! "description")) as [d|] eqn:Ed; [|done].
  intros [= <-]. cbn. by exists o.
Qed.

Lemma wishlistBody_accepted form data :
  insertWishlistSchema form = inr data →
  insertWishlistSchema (wishlistBody data) = inr data ∧
  insertWishlistSchema_partial (wishlistBody data) = inr (asPartialWishlist data).
Proof.
  intros (o & _ & Hn%zName_again & _)%insertWishlistSchema_fields.
  destruct (wishlistBody_lookup data) as (o' & -> & Hname & Hdesc).
  unfold insertWishlistSchema, insertWishlistSchema_partial, zNameOptional.
  rewrite Hname, Hdesc, Hn, zStringOptional_again. by destruct data.
Qed.

Lemma itemBody_accepted isUrl form data :
  insertItemSchema isUrl form = inr data →
  insertItemSchema isUrl (itemBody data) = inr data ∧
  insertItemSchema_partial isUrl (itemBody data) = inr (asPartialItem data).
Proof.
  intros (o & _ & Hn%zName_again & Hu%zUrlOptional_again & _ & _ & Hi%zUrlOptional_again)
           %insertItemSchema_fields.
  destruct (itemBody_lookup data) as (o' & -> & Hname & Hurl & Hdesc & Hprice & Himg).
  unfold insertItemSchema, insertItemSchema_partial, zNameOptional.
  rewrite Hname, Hurl, Hdesc, Hprice, Himg, Hn, Hu, Hi, !zStringOptional_again.
  by destruct data.
Qed.

(** X14. What a form of the client sends is accepted by the server.  The
    dialogs validate their values with [insertWishlistSchema] and
    [insertItemSchema] and send the parsed data as the JSON body: the
    schema of the POST route parses that body to the same data, and the
    partial schema of the PATCH route parses it to the same values, none
    left out. *)
Theorem form_data_is_accepted (isUrl : string → bool) :
  (∀ form data, insertWishlistSchema form = inr data →
     insertWishlistSchema (wishlistBody data) = inr data ∧
     insertWishlistSchema_partial (wishlistBody data) = inr (asPartialWishlist data)) ∧
  (∀ form data, insertItemSchema isUrl form = inr data →
     insertItemSchema isUrl (itemBody data) = inr data ∧
     insertItemSchema_partial isUrl (itemBody data) = inr (asPartialItem data)).
Proof. split; [apply wishlistBody_accepted | apply itemBody_accepted]. Qed.

(** The values of a form are what the schema returns for them. *)
Lemma zName_string s n : zName (Some (JString s)) = Some n → n = s.
Proof. unfold zName. case_bool_decide; [|done]. by intros [= <-]. Qed.

Lemma zStringOptional_string x y :
  zStringOptional (match x with Some s => Some (JString s) | None => None end) = Some y →
  y = x.
Proof. destruct x; cbn; by intros [= <-]. Qed.

Lemma zUrlOptional_string isUrl x y :
  zUrlOptional isUrl (match x with Some s => Some (JString s) | None => None end) = Some y →
  y = x.
Proof.
  destruct x as [s|]; cbn; [|by intros [= <-]].
  destruct (isUrl s || bool_decide (s = "")); [|done]. by intros [= <-].
Qed.

Lemma wishlistBody_parsed values data :
  insertWishlistSchema (wishlistBody values) = inr data → data = values.
Proof.
  intros (o & Ho & Hn & Hd)%insertWishlistSchema_fields.
  destruct (wishlistBody_lookup values) as (o' & Ho' & Hname & Hdesc).
  rewrite Ho' in Ho. injection Ho as <-. rewrite Hname in Hn. rewrite Hdesc in Hd.
  apply zName_string in Hn. apply zStringOptional_string in Hd.
  destruct data, values; cbn in *; congruence.
Qed.

Lemma itemBody_parsed isUrl values data :
  insertItemSchema isUrl (itemBody values) = inr data → data = values.
Proof.
  intros (o & Ho & Hn & Hu & Hd & Hp & Hi)%insertItemSchema_fields.
  destruct (itemBody_lookup values) as (o' & Ho' & Hname & Hurl & Hdesc & Hprice & Himg).
  rewrite Ho' in Ho. injection Ho as <-.
  rewrite Hname in Hn. rewrite Hurl in Hu. rewrite Hdesc in Hd. rewrite Hprice in Hp.
  rewrite Himg in Hi.
  apply zName_string in Hn. apply zUrlOptional_string in Hu, Hi.
  apply zStringOptional_string in Hd, Hp.
  destruct data, values; cbn in *; congruence.
Qed.

(** ** The values of an edit as the store takes them *)

Lemma filter_key_row {A B} (f : A → B) `{!EqDecision B} (l : list A) x :
  NoDup (f <$> l) → x ∈ l → filter (λ y, f y = f x) l = [x].
Proof.
  intros Hnd Hx. destruct (filter_key_unique f l (f x) Hnd) as [Hnil|[y Hy]].
  - exfalso. by eapply (filter_nil_not_elem_of _ _ x Hnil).
  - rewrite Hy. f_equal.
    assert (x ∈ filter (λ y, f y = f x) l) as Hin by (by apply list_elem_of_filter).
    rewrite Hy in Hin. by apply list_elem_of_singleton in Hin.
Qed.

Lemma fmap_ext_in {A B} (f g : A → B) (l : list A) :
  (∀ x, x ∈ l → f x = g x) → f <$> l = g <$> l.
Proof.
  induction l as [|a l IH]; intros H; [done|]. rewrite !fmap_cons.
  f_equal; [apply H; left | apply IH; intros x Hx; apply H; by right].
Qed.

Lemma zNameOptional_length v n : zNameOptional v = Some (Some n) → 1 ≤ strlen n ≤ 255.
Proof.
  unfold zNameOptional, zName. destruct v as [[| | |s| |]|]; try done. cbn.
  case_bool_decide; [|done]. by intros [= <-].
Qed.

Lemma insertWishlistSchema_partial_name body data n :
  insertWishlistSchema_partial body = inr data →
  PartialWishlistInput.name data = Some n → 1 ≤ strlen n ≤ 255.
Proof.
  unfold insertWishlistSchema_partial. destruct body as [o|]; [|done].
  destruct (zNameOptional (o !! "name")) as [x|] eqn:En; [|repeat case_match; done].
  destruct (zStringOptional (o !! "description")) as [d|]; [|done].
  intros [= <-]. cbn. intros ->. by eapply zNameOptional_length.
Qed.

Lemma insertItemSchema_partial_name isUrl body data n :
  insertItemSchema_partial isUrl body = inr data →
  PartialItemInput.name data = Some n → 1 ≤ strlen n ≤ 255.
Proof.
  unfold insertItemSchema_partial. destruct body as [o|]; [|done].
  destruct (zNameOptional (o !! "name")) as [x|] eqn:En; [|repeat case_match; done].
  destruct (zUrlOptional isUrl (o !! "url")) as [y|]; [|repeat case_match; done].
  destruct (zStringOptional (o !! "description")) as [d|]; [|repeat case_match; done].
  destruct (zStringOptional (o !! "price")) as [p|]; [|repeat case_match; done].
  destruct (zUrlOptional isUrl (o !! "imageUrl")) as [i|]; [|done].
  intros [= <-]. cbn. intros ->. by eapply zNameOptional_length.
Qed.

(** What [varchar(n)] does with a string. *)
Lemma varchar_storable n column s :
  text s → storable n (Some s) → varchar n column s = inr (stored n s).
Proof.
  intros Ht Hs. unfold varchar, stored.
  rewrite bool_decide_eq_false_2 by (by intros H').
  case_bool_decide as Hl; [done|]. destruct Hs as [?|Hs]; [done|].
  by rewrite bool_decide_eq_true_2.
Qed.

Lemma varchar_refused n column s :
  ¬ (text s ∧ storable n (Some s)) → taken (varchar n column s) = false.
Proof.
  intros Hn. unfold varchar. case_bool_decide as Ht; [done|].
  case_bool_decide as Hl; [exfalso; apply Hn; split; [done|by left]|].
  case_bool_decide as Hs; [exfalso; apply Hn; split; [done|by right]|]. done.
Qed.

Lemma stored_fits n s : strlen s ≤ n → stored n s = s.
Proof. intros H. unfold stored. by rewrite bool_decide_eq_true_2. Qed.

(** The values of the parsed data of a PATCH, as the store takes them. *)
Lemma wishlistSetValues_partial data :
  (∀ n, PartialWishlistInput.name data = Some n → strlen n ≤ 255) →
  partialWishlistText data →
  wishlistSetValues (partialWishlistOf data) = inr (partialWishlistOf data).
Proof.
  intros Hl [Hn Hd]. unfold wishlistSetValues, partialWishlistOf. cbn.
  destruct data as [[n|] [d|]]; cbn in *.
  all: rewrite ?varchar_fits by auto; cbn.
  all: rewrite ?(proj2 (pgText_inr _ _) (conj eq_refl Hd)); done.
Qed.

Lemma wishlistSetValues_refused data :
  ¬ partialWishlistText data → taken (wishlistSetValues (partialWishlistOf data)) = false.
Proof.
  intros Hn. unfold wishlistSetValues, partialWishlistOf. cbn.
  destruct data as [[n|] [d|]]; cbn in *.
  all: repeat match goal with
       | |- context [varchar ?n ?c ?s] =>
           let E := fresh in destruct (varchar n c s) eqn:E; cbn;
           [done|apply varchar_inr_text in E]
       | |- context [pgText ?s] =>
           let E := fresh in destruct (pgText s) eqn:E; cbn;
           [done|apply pgText_inr in E as [-> ?]]
       end.
  all: exfalso; apply Hn; by split.
Qed.

Lemma varchar_taken n column s s' :
  varchar n column s = inr s' → text s ∧ storable n (Some s).
Proof.
  intros E. destruct (decide (text s ∧ storable n (Some s))) as [?|Hn]; [done|].
  apply (varchar_refused n column) in Hn. by rewrite E in Hn.
Qed.

Lemma set_text_inr x :
  textOpt x → optional (optional pgText) (Some <$> x) = inr (Some <$> x).
Proof.
  destruct x as [s|]; cbn; [|done]. intros Ht.
  by rewrite (proj2 (pgText_inr s s) (conj eq_refl Ht)).
Qed.

Lemma set_text_taken x y : optional (optional pgText) (Some <$> x) = inr y → textOpt x.
Proof.
  destruct x as [s|]; cbn; [|done]. destruct (pgText s) as [e|s'] eqn:E; [done|].
  intros _. by apply pgText_inr in E as [_ ?].
Qed.

Lemma set_varchar_inr n column x :
  textOpt x → storable n x →
  optional (optional (varchar n column)) (Some <$> x) = inr (Some <$> (stored n <$> x)).
Proof.
  destruct x as [s|]; cbn; [|done]. intros Ht Hs. by rewrite varchar_storable.
Qed.

Lemma set_varchar_taken n column x y :
  optional (optional (varchar n column)) (Some <$> x) = inr y → textOpt x ∧ storable n x.
Proof.
  destruct x as [s|]; cbn; [|done]. destruct (varchar n column s) as [e|s'] eqn:E; [done|].
  intros _. by eapply varchar_taken.
Qed.

Lemma set_name_taken n column x y :
  optional (varchar n column) x = inr y → textOpt x.
Proof.
  destruct x as [s|]; cbn; [|done]. destruct (varchar n column s) as [e|s'] eqn:E; [done|].
  intros _. by eapply varchar_inr_text.
Qed.

Lemma itemSetValues_partial data :
  (∀ n, PartialItemInput.name data = Some n → strlen n ≤ 255) →
  partialItemText data → storable 100 (PartialItemInput.price data) →
  itemSetValues (partialItemOf data) = inr (partialItemOf (priceStored data)).
Proof.
  intros Hl (Hn & Hu & Hd & Hp & Hi) Hs. unfold itemSetValues, partialItemOf. cbn.
  rewrite optional_varchar_fits; [cbn|done|].
  2:{ destruct (PartialItemInput.name data) as [n|]; [|done]. cbn. by apply Hl. }
  rewrite (set_text_inr _ Hu). cbn. rewrite (set_text_inr _ Hd). cbn.
  rewrite (set_varchar_inr _ _ _ Hp Hs). cbn. rewrite (set_text_inr _ Hi). done.
Qed.

Lemma itemSetValues_refused data :
  ¬ (partialItemText data ∧ storable 100 (PartialItemInput.price data)) →
  taken (itemSetValues (partialItemOf data)) = false.
Proof.
  intros Hn. destruct (itemSetValues (partialItemOf data)) as [e|v] eqn:E; [done|].
  exfalso. apply Hn.
  apply itemSetValues_inr in E as (_ & En & Eu & Ed & Ep & Ei & _). cbn in *.
  apply set_name_taken in En. apply set_text_taken in Eu, Ed, Ei.
  apply set_varchar_taken in Ep as [? ?]. by repeat split.
Qed.

(** ** Saving an edit: PATCH /api/wishlists/:id and PATCH /api/items/:id *)

Section Edit.
Context (u : string) (w : World).
Hypothesis Hok : db_ok (db w).

Lemma updateWishlist_saved r data :
  r ∈ wishlists (db w) → Wishlist.userId r = u →
  wishlistSetValues (partialWishlistOf data) = inr (partialWishlistOf data) →
  let r' := editedWishlist data (clock w) r in
  updateWishlist (Wishlist.id r) u (partialWishlistOf data) w =
    (inr (Some r'),
     set_db (set_wishlists
               ((λ x, if decide (Wishlist.id x = Wishlist.id r) then r' else x)
                  <$> wishlists (db w)) (db w)) w).
Proof.
  intros Hr Hu Hv r'. subst r'. unfold updateWishlist.
  assert (int4 (Wishlist.id r)) as H4
    by (eapply db_ok_wishlist_int4; [done|by apply list_elem_of_fmap_2]).
  assert (text u) as Ht.
  { rewrite <- Hu. apply (ok_users_text _ (proj1 Hok)).
    by apply (ok_wishlists_user_fk _ (proj1 Hok)). }
  rewrite bool_decide_eq_false_2 by (by intros H').
  rewrite bool_decide_eq_false_2 by (by intros H').
  rewrite Hv.
  assert (∀ x, x ∈ wishlists (db w) → Wishlist.id x = Wishlist.id r → x = r) as Huniq.
  { intros x Hx Heq. eapply NoDup_fmap_elem_inj; eauto.
    apply (ok_wishlists_pkey _ (proj1 Hok)). }
  rewrite (filter_ext_in (λ x, Wishlist.id x = Wishlist.id r ∧ Wishlist.userId x = u)
             (λ x, Wishlist.id x = Wishlist.id r)).
  2:{ intros x Hx. split; [by intros [? _]|]. intros Heq. split; [done|].
      by rewrite (Huniq x Hx Heq). }
  rewrite (filter_key_row Wishlist.id _ r (ok_wishlists_pkey _ (proj1 Hok)) Hr).
  match goal with
  | |- context [set_wishlists (?f <$> _)] =>
      rewrite (fmap_ext_in f (λ x, if decide (Wishlist.id x = Wishlist.id r)
                                   then editedWishlist data (clock w) r else x))
  end.
  2:{ intros x Hx. destruct (decide (Wishlist.id x = Wishlist.id r)) as [Heq|Hne].
      - rewrite (Huniq x Hx Heq), decide_True by done. done.
      - rewrite decide_False by (by intros [? _]). done. }
  cbn [fmap list_fmap].
  rewrite bool_decide_eq_false_2 by done.
  rewrite bool_decide_eq_false_2.
  2:{ intros Hnd. apply Hnd.
      assert (Wishlist.shareToken <$>
                ((λ x, if decide (Wishlist.id x = Wishlist.id r)
                       then editedWishlist data (clock w) r else x) <$> wishlists (db w)) =
              Wishlist.shareToken <$> wishlists (db w)) as ->;
        [|apply (ok_share_token_unique _ (proj1 Hok))].
      rewrite <- list_fmap_compose. apply fmap_ext_in. intros x Hx. cbn.
      case_decide as Heq; [|done]. by rewrite (Huniq x Hx Heq). }
  rewrite bool_decide_eq_false_2.
  2:{ intros [Hx|Hx%Exists_nil]%Exists_cons; [|done]. apply Hx. cbn.
      apply (ok_wishlists_user_fk _ (proj1 Hok) r Hr). }
  done.
Qed.

Lemma updateItem_saved i data data' :
  i ∈ items (db w) → Item.wishlistId i ∈ ownedWishlistIds u (db w) →
  itemSetValues (partialItemOf data) = inr (partialItemOf data') →
  let i' := editedItem data' (clock w) i in
  updateItem (Item.id i) u (partialItemOf data) w =
    (inr (Some i'),
     set_db (set_items
               ((λ x, if decide (Item.id x = Item.id i) then i' else x)
                  <$> items (db w)) (db w)) w).
Proof.
  intros Hi Hown Hv i'. subst i'. unfold updateItem.
  assert (int4 (Item.id i)) as H4
    by (eapply db_ok_item_int4; [done|by apply list_elem_of_fmap_2]).
  destruct (owned_wishlist_values _ _ _ Hok Hown) as (_ & Ht & _).
  rewrite bool_decide_eq_false_2 by (by intros H').
  rewrite bool_decide_eq_false_2 by (by intros H').
  rewrite Hv.
  assert (∀ x, x ∈ items (db w) → Item.id x = Item.id i → x = i) as Huniq.
  { intros x Hx Heq. eapply NoDup_fmap_elem_inj; eauto.
    apply (ok_items_pkey _ (proj1 Hok)). }
  rewrite (filter_ext_in
             (λ x, Item.id x = Item.id i ∧ Item.wishlistId x ∈ ownedWishlistIds u (db w))
             (λ x, Item.id x = Item.id i)).
  2:{ intros x Hx. split; [by intros [? _]|]. intros Heq. split; [done|].
      by rewrite (Huniq x Hx Heq). }
  rewrite (filter_key_row Item.id _ i (ok_items_pkey _ (proj1 Hok)) Hi).
  match goal with
  | |- context [set_items (?f <$> _)] =>
      rewrite (fmap_ext_in f (λ x, if decide (Item.id x = Item.id i)
                                   then editedItem data' (clock w) i else x))
  end.
  2:{ intros x Hx. destruct (decide (Item.id x = Item.id i)) as [Heq|Hne].
      - rewrite (Huniq x Hx Heq), decide_True by done. done.
      - rewrite decide_False by (by intros [? _]). done. }
  cbn [fmap list_fmap].
  rewrite bool_decide_eq_false_2 by done.
  rewrite bool_decide_eq_false_2.
  2:{ intros [Hx|Hx%Exists_nil]%Exists_cons; [|done]. apply Hx. cbn.
      apply (ok_items_wishlist_fk _ (proj1 Hok) i Hi). }
  done.
Qed.

(** An update whose values the store does not take. *)
Lemma patch_wishlist_refused param id body data :
  parseInt param = Some id → insertWishlistSchema_partial body = inr data →
  taken (wishlistSetValues (partialWishlistOf data)) = false →
  run (patch_wishlist u param body) w =
    (inr (StoreFailure "Failed to update wishlist"), w).
Proof.
  intros Hp Hb Hv. unfold patch_wishlist.
  rewrite Hp, Hb, run_try_catch, run_bind, run_await. unfold updateWishlist.
  repeat (case_bool_decide; [done|]).
  by destruct (wishlistSetValues _).
Qed.

Lemma patch_item_refused isUrl param id body data :
  parseInt param = Some id → insertItemSchema_partial isUrl body = inr data →
  taken (itemSetValues (partialItemOf data)) = false →
  run (patch_item isUrl u param body) w =
    (inr (StoreFailure "Failed to update item"), w).
Proof.
  intros Hp Hb Hv. unfold patch_item.
  rewrite Hp, Hb, run_try_catch, run_bind, run_await. unfold updateItem.
  repeat (case_bool_decide; [done|]).
  by destruct (itemSetValues _).
Qed.

Lemma saved_wishlist_by_token r r' :
  r ∈ wishlists (db w) → Wishlist.shareToken r' = Wishlist.shareToken r →
  getWishlistByShareToken (Wishlist.shareToken r)
    (set_wishlists ((λ x, if decide (Wishlist.id x = Wishlist.id r) then r' else x)
                      <$> wishlists (db w)) (db w)) = inr (Some r').
Proof.
  intros Hr Htok.
  rewrite getWishlistByShareToken_text by (by eapply db_ok_token_text). f_equal.
  unfold wishlistByShareToken. cbn [wishlists set_wishlists].
  apply head_filter_unique.
  - intros y (x & -> & Hx)%list_elem_of_fmap. case_decide as Heq; [done|].
    intros Ht. exfalso. apply Heq. f_equal.
    eapply NoDup_fmap_elem_inj; eauto. apply (ok_share_token_unique _ (proj1 Hok)).
  - apply list_elem_of_fmap. exists r. by rewrite decide_True.
  - done.
Qed.

Lemma saved_item_by_id i i' :
  i ∈ items (db w) → Item.id i' = Item.id i →
  getItem (Item.id i)
    (set_items ((λ x, if decide (Item.id x = Item.id i) then i' else x) <$> items (db w))
       (db w)) = inr (Some i').
Proof.
  intros Hi Hid.
  rewrite getItem_int4
    by (eapply db_ok_item_int4; [done|by apply list_elem_of_fmap_2]).
  f_equal. unfold itemById. cbn [items set_items].
  apply head_filter_unique; [| |done].
  - intros y (x & -> & Hx)%list_elem_of_fmap. case_decide as Heq; [done|].
    intros Hid'. by destruct Heq.
  - apply list_elem_of_fmap. exists i. by rewrite decide_True.
Qed.
End Edit.

(** X15. PATCH of a wishlist by its owner with a valid body, in a store
    of the schema: when the strings of the body hold no U+0000, the answer
    is 200 with the row as it is saved, which has the name and description
    of the body where the body gives them, the time of the update, and
    everything else as before; the wishlists of the table are then the
    others, unchanged, and the saved row, and the share link still leads to
    the wishlist.  When a string of the body holds U+0000, the answer is
    500 "Failed to update wishlist" and nothing is changed. *)
Theorem edit_wishlist_is_saved
    (u param : string) (body : ReqBody) (data : PartialWishlistInput.t)
    (r : Wishlist.t) (w : World) :
  db_ok (db w) →
  r ∈ wishlists (db w) → Wishlist.userId r = u → parseInt param = Some (Wishlist.id r) →
  insertWishlistSchema_partial body = inr data →
  let r' := editedWishlist data (clock w) r in
  let w' := (run (patch_wishlist u param body) w).2 in
  (partialWishlistText data →
     run (patch_wishlist u param body) w = (inr (mkResponse 200 (WishlistJson r')), w') ∧
     wishlists (db w') ≡ₚ
       (λ x, if decide (Wishlist.id x = Wishlist.id r) then r' else x) <$> wishlists (db w) ∧
     getWishlistByShareToken (Wishlist.shareToken r) (db w') = inr (Some r')) ∧
  (¬ partialWishlistText data →
     run (patch_wishlist u param body) w =
       (inr (StoreFailure "Failed to update wishlist"), w)).
Proof.
  intros Hok Hr Hu Hp Hb r' w'. subst r' w'. split.
  - intros Htext.
    assert (run (patch_wishlist u param body) w =
              (inr (mkResponse 200 (WishlistJson (editedWishlist data (clock w) r))),
               set_db (set_wishlists
                         ((λ x, if decide (Wishlist.id x = Wishlist.id r)
                                then editedWishlist data (clock w) r else x)
                            <$> wishlists (db w)) (db w)) w)) as Hrun.
    { unfold patch_wishlist. rewrite Hp, Hb, run_try_catch, run_bind, run_await.
      rewrite (updateWishlist_saved u w Hok r data Hr Hu); [done|].
      apply wishlistSetValues_partial; [|done].
      intros n Hn. by destruct (insertWishlistSchema_partial_name _ _ _ Hb Hn). }
    rewrite Hrun. split; [done|]. split; [done|].
    cbn [snd db set_db]. by apply saved_wishlist_by_token.
  - intros Hn. apply (patch_wishlist_refused u w param _ body data Hp Hb).
    by apply wishlistSetValues_refused.
Qed.

(** X16. PATCH of an item by the owner of its wishlist with a valid body,
    in a store of the schema: when the strings of the body hold no U+0000
    and the price of the body is one that its column holds (at most 100
    characters, or spaces only beyond them, which are cut off), the answer
    is 200 with the row as it is saved (the values of the body where it
    gives them, the time of the update, everything else as before), the
    items of the table are then the others, unchanged, and the saved row,
    and the item is found as saved; otherwise the answer is 500 "Failed to
    update item" and nothing is changed. *)
Theorem edit_item_is_saved
    (isUrl : string → bool) (u param : string) (body : ReqBody)
    (data : PartialItemInput.t) (i : Item.t) (w : World) :
  db_ok (db w) →
  i ∈ items (db w) → Item.wishlistId i ∈ ownedWishlistIds u (db w) →
  parseInt param = Some (Item.id i) →
  insertItemSchema_partial isUrl body = inr data →
  let i' := editedItem (priceStored data) (clock w) i in
  let w' := (run (patch_item isUrl u param body) w).2 in
  (partialItemText data → storable 100 (PartialItemInput.price data) →
     run (patch_item isUrl u param body) w = (inr (mkResponse 200 (ItemJson i')), w') ∧
     items (db w') ≡ₚ
       (λ x, if decide (Item.id x = Item.id i) then i' else x) <$> items (db w) ∧
     getItem (Item.id i) (db w') = inr (Some i')) ∧
  (¬ (partialItemText data ∧ storable 100 (PartialItemInput.price data)) →
     run (patch_item isUrl u param body) w =
       (inr (StoreFailure "Failed to update item"), w)).
Proof.
  intros Hok Hi Hown Hp Hb i' w'. subst i' w'.
  assert (∀ n, PartialItemInput.name data = Some n → strlen n ≤ 255) as Hname.
  { intros n Hn. by destruct (insertItemSchema_partial_name _ _ _ _ Hb Hn). }
  split.
  - intros Htext Hs.
    pose proof (updateItem_saved u w Hok i data (priceStored data) Hi Hown
                  (itemSetValues_partial data Hname Htext Hs)) as Hupd.
    cbn zeta in Hupd.
    unfold patch_item. rewrite Hp, Hb, run_try_catch, run_bind, run_await, Hupd.
    split; [done|]. split; [done|]. cbn [snd db set_db]. by apply saved_item_by_id.
  - intros Hn. apply (patch_item_refused u w isUrl param _ body data Hp Hb).
    by apply itemSetValues_refused.
Qed.

(** ** Saving an edit form that was not changed *)

(** X17. Opening the edit dialog of an item and saving it unchanged is not
    without effect: the form starts from [item.url || ""] and the like, and
    the PATCH sets every key of the body, so each optional column that was
    NULL is saved as the empty string.  For the owner, in a store that
    meets the schema, whenever the form accepts its initial values the
    answer is 200 with a row that has the name as before and the url,
    description, price and image url of the item, or [""] where the item
    had none.  The same holds of the description of a wishlist. *)
Theorem unchanged_edit_writes_empty_strings
    (isUrl : string → bool) (u : string) (w : World) :
  db_ok (db w) → lengths_ok (db w) →
  (∀ i data, i ∈ items (db w) → Item.wishlistId i ∈ ownedWishlistIds u (db w) →
     insertItemSchema isUrl (itemBody (editItemDefaults i)) = inr data →
     ∃ i' w',
       run (patch_item isUrl u (toString (Item.id i)) (itemBody data)) w =
         (inr (mkResponse 200 (ItemJson i')), w') ∧
       getItem (Item.id i) (db w') = inr (Some i') ∧
       item_frame i i' ∧
       Item.name i' = Item.name i ∧
       Item.url i' = Some (default "" (Item.url i)) ∧
       Item.description i' = Some (default "" (Item.description i)) ∧
       Item.price i' = Some (default "" (Item.price i)) ∧
       Item.imageUrl i' = Some (default "" (Item.imageUrl i))) ∧
  (∀ r data, r ∈ wishlists (db w) → Wishlist.userId r = u →
     insertWishlistSchema (wishlistBody (editWishlistDefaults r)) = inr data →
     ∃ r' w',
       run (patch_wishlist u (toString (Wishlist.id r)) (wishlistBody data)) w =
         (inr (mkResponse 200 (WishlistJson r')), w') ∧
       getWishlistByShareToken (Wishlist.shareToken r) (db w') = inr (Some r') ∧
       wishlist_frame r r' ∧
       Wishlist.name r' = Wishlist.name r ∧
       Wishlist.description r' = Some (default "" (Wishlist.description r))).
Proof.
  intros Hok Hlen. split.
  - intros i data Hi Hown Hform.
    pose proof (itemBody_parsed _ _ _ Hform) as ->.
    destruct (itemBody_accepted _ _ _ Hform) as [_ Hpartial].
    destruct (proj2 Hlen i Hi) as (Hnl & Hpl & Hnt & Hut & Hdt & Hpt & Hit).
    assert (int4 (Item.id i)) as H4
      by (eapply db_ok_item_int4; [done|by apply list_elem_of_fmap_2]).
    assert (∀ o, textOpt o → text (default "" o)) as Hdef by (by intros [s|]).
    assert (strlen (default "" (Item.price i)) ≤ 100) as Hprice.
    { destruct (Item.price i); [done|]. cbn. unfold strlen. cbn. lia. }
    pose proof (updateItem_saved u w Hok i (asPartialItem (editItemDefaults i))
                  (asPartialItem (editItemDefaults i)) Hi Hown) as Hupd.
    cbn zeta in Hupd.
    eexists _, _. split; [|split].
    + unfold patch_item.
      rewrite (parseInt_toString_int4 _ H4), Hpartial, run_try_catch, run_bind, run_await.
      rewrite Hupd; [reflexivity|].
      rewrite itemSetValues_partial.
      * unfold priceStored. cbn. by rewrite stored_fits.
      * by intros n [= <-].
      * unfold partialItemText. cbn. auto 10.
      * cbn. by left.
    + cbn [snd db set_db]. by apply saved_item_by_id.
    + by repeat split.
  - intros r data Hr Hu Hform.
    pose proof (wishlistBody_parsed _ _ Hform) as ->.
    destruct (wishlistBody_accepted _ _ Hform) as [_ Hpartial].
    destruct (proj1 Hlen r Hr) as (Hnl & Htl & Hnt & Hdt & Htt).
    assert (int4 (Wishlist.id r)) as H4
      by (eapply db_ok_wishlist_int4; [done|by apply list_elem_of_fmap_2]).
    pose proof (updateWishlist_saved u w Hok r (asPartialWishlist (editWishlistDefaults r))
                  Hr Hu) as Hupd.
    cbn zeta in Hupd.
    eexists _, _. split; [|split].
    + unfold patch_wishlist.
      rewrite (parseInt_toString_int4 _ H4), Hpartial, run_try_catch, run_bind, run_await.
      rewrite Hupd; [reflexivity|].
      apply wishlistSetValues_partial.
      * by intros n [= <-].
      * split; cbn; [done|]. by destruct (Wishlist.description r).
    + cbn [snd db set_db]. by apply saved_wishlist_by_token.
    + by repeat split.
Qed.

(** ** Claiming, unclaiming and claiming again *)



(** ** After a wishlist is deleted *)

Lemma bind_ext_in {A B} (f g : A → list B) (l : list A) :
  (∀ x, x ∈ l → f x = g x) → l ≫= f = l ≫= g.
Proof.
  induction l as [|a l IH]; intros H; [done|]. rewrite !bind_cons.
  f_equal; [apply H; left | apply IH; intros x Hx; apply H; by right].
Qed.

Section Deleted.
Context (u : string) (r : Wishlist.t) (w : World).
Hypothesis Hok : db_ok (db w).
Hypothesis Hr : r ∈ wishlists (db w).
Hypothesis Hu : Wishlist.userId r = u.

Lemma deleted_hit x :
  x ∈ wishlists (db w) →
  Wishlist.id x = Wishlist.id r ∧ Wishlist.userId x = u ↔ Wishlist.id x = Wishlist.id r.
Proof.
  intros Hx. split; [by intros [? _]|]. intros Heq. split; [done|].
  assert (x = r) as ->
    by (eapply NoDup_fmap_elem_inj; eauto; apply (ok_wishlists_pkey _ (proj1 Hok))).
  done.
Qed.

Lemma deleted_gone :
  Wishlist.id <$> filter (λ x, Wishlist.id x = Wishlist.id r ∧ Wishlist.userId x = u)
                    (wishlists (db w)) = [Wishlist.id r].
Proof.
  rewrite (filter_ext_in _ (λ x, Wishlist.id x = Wishlist.id r)) by apply deleted_hit.
  by rewrite (filter_key_row Wishlist.id _ r (ok_wishlists_pkey _ (proj1 Hok)) Hr).
Qed.

Lemma deleteWishlist_db :
  deleteWishlist (Wishlist.id r) u w =
    (inr true,
     set_db (set_wishlists (filter (λ x, Wishlist.id x ≠ Wishlist.id r) (wishlists (db w)))
               (set_items (filter (λ i, Item.wishlistId i ≠ Wishlist.id r) (items (db w)))
                  (set_claims
                     (filter (λ c, Claim.itemId c ∉
                                Item.id <$> filter (λ i, Item.wishlistId i = Wishlist.id r)
                                              (items (db w)))
                        (claims (db w))) (db w)))) w).
Proof.
  unfold deleteWishlist.
  rewrite bool_decide_eq_false_2.
  2:{ intros H'. apply H'. eapply db_ok_wishlist_int4; [done|by apply list_elem_of_fmap_2]. }
  rewrite bool_decide_eq_false_2.
  2:{ intros H'. apply H'. rewrite <- Hu. apply (ok_users_text _ (proj1 Hok)).
      by apply (ok_wishlists_user_fk _ (proj1 Hok)). }
  rewrite deleted_gone.
  rewrite bool_decide_eq_true_2 by done. f_equal. f_equal.
  assert (filter (λ i, Item.wishlistId i ∈ [Wishlist.id r]) (items (db w)) =
          filter (λ i, Item.wishlistId i = Wishlist.id r) (items (db w))) as ->.
  { apply filter_ext_in. intros i _. by rewrite list_elem_of_singleton. }
  f_equal; [|f_equal].
  - apply filter_ext_in. intros x Hx. by rewrite deleted_hit.
  - apply filter_ext_in. intros i _. by rewrite list_elem_of_singleton.
Qed.

Lemma deleted_items_kept id' :
  id' ≠ Wishlist.id r →
  itemsWithClaims id' (db (deleteWishlist (Wishlist.id r) u w).2) =
    itemsWithClaims id' (db w).
Proof.
  intros Hid. rewrite deleteWishlist_db. unfold itemsWithClaims.
  cbn [snd db set_db items set_items claims set_claims users set_wishlists].
  rewrite filter_filter_sub by (intros i _ -> ; done).
  apply bind_ext_in. intros i [Hwl Hi]%list_elem_of_filter.
  rewrite filter_filter_sub; [done|]. intros c Hc Heq.
  intros (j & Hj & [Hjw Hjin]%list_elem_of_filter)%list_elem_of_fmap.
  assert (j = i) as ->.
  { eapply NoDup_fmap_elem_inj; eauto; [apply (ok_items_pkey _ (proj1 Hok))|congruence]. }
  congruence.
Qed.
End Deleted.

(** X19. After its owner has deleted a wishlist (204) the wishlist is
    found neither under its share link nor under its id by anyone (a user
    id that is no string of the store is answered 500 as before), and a
    claim on one of its items is answered "Item not found"; every other
    wishlist is still there, and its view, with its items and their
    claims, is what it was. *)
Theorem deleted_wishlist_is_gone (u param : string) (r : Wishlist.t) (w : World) :
  db_ok (db w) → r ∈ wishlists (db w) → Wishlist.userId r = u →
  parseInt param = Some (Wishlist.id r) →
  let w' := (run (delete_wishlist u param) w).2 in
  (run (delete_wishlist u param) w).1 = inr NoContent ∧
  run (get_shared_wishlist (Wishlist.shareToken r)) w' =
    (inr (NotFound "Wishlist not found"), w') ∧
  (∀ v, run (get_wishlist v param) w' =
          (inr (if bool_decide (text v) then NotFound "Wishlist not found"
                else StoreFailure "Failed to fetch wishlist"), w')) ∧
  (∀ v p i, i ∈ items (db w) → Item.wishlistId i = Wishlist.id r →
            parseInt p = Some (Item.id i) →
            run (post_claim v p) w' = (inr (NotFound "Item not found"), w')) ∧
  wishlists (db w') = filter (λ x, Wishlist.id x ≠ Wishlist.id r) (wishlists (db w)) ∧
  (∀ id', id' ≠ Wishlist.id r → itemsWithClaims id' (db w') = itemsWithClaims id' (db w)).
Proof.
  intros Hok Hr Hu Hp w'.
  assert (int4 (Wishlist.id r)) as H4
    by (eapply db_ok_wishlist_int4; [done|by apply list_elem_of_fmap_2]).
  assert (run (delete_wishlist u param) w =
            (inr NoContent, (deleteWishlist (Wishlist.id r) u w).2)) as Hrun.
  { unfold delete_wishlist. rewrite Hp, run_try_catch, run_bind, run_await.
    by rewrite (deleteWishlist_db u r w Hok Hr Hu). }
  subst w'. rewrite Hrun. cbn [fst snd].
  assert (∀ x, x ∈ wishlists (db (deleteWishlist (Wishlist.id r) u w).2) →
               x ∈ wishlists (db w) ∧ Wishlist.id x ≠ Wishlist.id r) as Hleft.
  { intros x. rewrite (deleteWishlist_db u r w Hok Hr Hu).
    cbn [snd db set_db wishlists set_wishlists].
    intros [? ?]%list_elem_of_filter. done. }
  split; [done|]. split; [|split; [|split; [|split]]].
  - rewrite get_shared_wishlist_run by (by eapply db_ok_token_text).
    unfold wishlistByShareToken.
    rewrite filter_none; [done|]. intros x [Hx Hne]%Hleft Ht. apply Hne. f_equal.
    eapply NoDup_fmap_elem_inj; eauto. apply (ok_share_token_unique _ (proj1 Hok)).
  - intros v. case_bool_decide as Hv.
    + rewrite (get_wishlist_run _ _ _ _ Hp) by done.
      assert (wishlistById (Wishlist.id r) (Some v)
                (db (deleteWishlist (Wishlist.id r) u w).2) = None) as ->; [|done].
      unfold wishlistById. destruct (truthy v).
      * rewrite filter_none; [done|]. by intros x [Hx Hne]%Hleft [Heq _].
      * rewrite filter_none; [done|]. by intros x [Hx Hne]%Hleft Heq.
    + unfold get_wishlist, getWishlist. rewrite Hp, run_try_catch, run_bind, run_select.
      rewrite bool_decide_eq_false_2 by (by intros H').
      by rewrite bool_decide_eq_true_2 by done.
  - intros v p i Hi Hwl Hpi.
    apply (post_claim_not_found v p _ _ Hpi).
    { eapply db_ok_item_int4; [done|by apply list_elem_of_fmap_2]. }
    rewrite (deleteWishlist_db u r w Hok Hr Hu). unfold itemIds.
    cbn [snd db set_db items set_items set_wishlists].
    intros (j & Hj & [Hjw Hjin]%list_elem_of_filter)%list_elem_of_fmap.
    assert (j = i) as ->.
    { eapply NoDup_fmap_elem_inj; eauto. apply (ok_items_pkey _ (proj1 Hok)). }
    done.
  - by rewrite (deleteWishlist_db u r w Hok Hr Hu).
  - intros id' Hid. by apply deleted_items_kept.
Qed.

(** ** After an item is deleted *)

(** X20. After the owner of its wishlist has deleted an item (204), the
    item is not found (a claim on it is answered "Item not found"); the
    other items are all there, unchanged and in their order, and each is
    shown with the claim it had. *)
Theorem deleted_item_is_gone (u param : string) (i : Item.t) (w : World) :
  db_ok (db w) → i ∈ items (db w) → Item.wishlistId i ∈ ownedWishlistIds u (db w) →
  parseInt param = Some (Item.id i) →
  let w' := (run (delete_item u param) w).2 in
  (run (delete_item u param) w).1 = inr NoContent ∧
  (∀ v, run (post_claim v param) w' = (inr (NotFound "Item not found"), w')) ∧
  items (db w') = filter (λ j, Item.id j ≠ Item.id i) (items (db w)) ∧
  wishlists (db w') = wishlists (db w) ∧
  (∀ j, Item.id j ≠ Item.id i → viewOf (db w') j = viewOf (db w) j).
Proof.
  intros Hok Hi Hown Hp w'.
  assert (int4 (Item.id i)) as H4
    by (eapply db_ok_item_int4; [done|by apply list_elem_of_fmap_2]).
  destruct (owned_wishlist_values _ _ _ Hok Hown) as (_ & Ht & _).
  assert (∀ x, x ∈ items (db w) →
            Item.id x = Item.id i ∧ Item.wishlistId x ∈ ownedWishlistIds u (db w) ↔
            Item.id x = Item.id i) as Hhit.
  { intros x Hx. split; [by intros [? _]|]. intros Heq. split; [done|].
    assert (x = i) as ->
      by (eapply NoDup_fmap_elem_inj; eauto; apply (ok_items_pkey _ (proj1 Hok))).
    done. }
  assert (deleteItem (Item.id i) u w =
            (inr true,
             set_db (set_items (filter (λ j, Item.id j ≠ Item.id i) (items (db w)))
                       (set_claims (filter (λ c, Claim.itemId c ≠ Item.id i) (claims (db w)))
                          (db w))) w)) as Hdel.
  { unfold deleteItem.
    rewrite bool_decide_eq_false_2 by (by intros H').
    rewrite bool_decide_eq_false_2 by (by intros H').
    rewrite (filter_ext_in _ (λ x, Item.id x = Item.id i) (items (db w))) by apply Hhit.
    rewrite (filter_key_row Item.id _ i (ok_items_pkey _ (proj1 Hok)) Hi).
    cbn [fmap list_fmap]. rewrite bool_decide_eq_true_2 by done.
    f_equal. f_equal. f_equal; [|f_equal].
    - apply filter_ext_in. intros x Hx. by rewrite Hhit.
    - apply filter_ext_in. intros c _. by rewrite list_elem_of_singleton. }
  assert (run (delete_item u param) w = (inr NoContent, (deleteItem (Item.id i) u w).2))
    as Hrun.
  { unfold delete_item. rewrite Hp, run_try_catch, run_bind, run_await. by rewrite Hdel. }
  subst w'. rewrite Hrun, Hdel. cbn [fst snd].
  split; [done|]. split; [|split; [done|split; [done|]]].
  - intros v. apply (post_claim_not_found v param _ _ Hp H4). unfold itemIds.
    cbn [db set_db items set_items].
    intros (j & Hj & [Hne _]%list_elem_of_filter)%list_elem_of_fmap. done.
  - intros j Hne. unfold viewOf, claimByItemId, userById.
    cbn [db set_db items set_items claims set_claims users].
    rewrite filter_filter_sub; [done|]. intros c _ Heq. congruence.
Qed.

(** ** What a request can be answered *)

Lemma deleteWishlist_false id u w w' :
  deleteWishlist id u w = (inr false, w') → w' = w.
Proof.
  unfold deleteWishlist. case_bool_decide as H4; [done|]. case_bool_decide as Ht; [done|].
  intros [= Hf Hw]. rewrite <- Hw. apply bool_decide_eq_false in Hf.
  enough (deleteWishlist id u w = (inr false, w)) as E.
  { unfold deleteWishlist in E. rewrite !bool_decide_eq_false_2 in E by (by intros H').
    by injection E. }
  apply deleteWishlist_none; [done|done|]. intros r Hr Hid Hu.
  apply Hf. intros Hnil%fmap_nil_inv.
  by eapply (filter_nil_not_elem_of _ _ r Hnil).
Qed.

Lemma deleteItem_false id u w w' :
  deleteItem id u w = (inr false, w') → w' = w.
Proof.
  unfold deleteItem. case_bool_decide as H4; [done|]. case_bool_decide as Ht; [done|].
  intros [= Hf Hw]. rewrite <- Hw. apply bool_decide_eq_false in Hf.
  enough (deleteItem id u w = (inr false, w)) as E.
  { unfold deleteItem in E. rewrite !bool_decide_eq_false_2 in E by (by intros H').
    by injection E. }
  apply deleteItem_none; [done|done|]. intros i Hi Hid Hown.
  apply Hf. intros Hnil%fmap_nil_inv.
  by eapply (filter_nil_not_elem_of _ _ i Hnil).
Qed.

Lemma deleteClaim_false i u w w' :
  deleteClaim i u w = (inr false, w') → w' = w.
Proof.
  unfold deleteClaim. case_bool_decide as H4; [done|]. case_bool_decide as Ht; [done|].
  intros [= Hf Hw]. rewrite <- Hw. apply bool_decide_eq_false in Hf.
  apply dec_stable in Hf. rewrite filter_all; [by rewrite set_claims_id, set_db_id|].
  intros c Hc Hhit. by eapply (filter_nil_not_elem_of _ _ c Hf).
Qed.

Lemma updateWishlist_cases id u data w :
  updateWishlist id u data w = (inr None, w) ∨
  (∃ e, updateWishlist id u data w = (inl e, w)) ∨
  (∃ r w', updateWishlist id u data w = (inr (Some r), w')).
Proof.
  unfold updateWishlist.
  repeat (case_bool_decide; [right; left; by eexists|]).
  destruct (wishlistSetValues data) as [e|v]; [right; left; by eexists|].
  case_bool_decide as Hnil; [by left|]. right.
  repeat (case_bool_decide; [left; by eexists|]). right.
  destruct (_ <$> filter _ _) as [|x l]; [done|]. by eexists _, _.
Qed.

Lemma updateItem_cases id u data w :
  updateItem id u data w = (inr None, w) ∨
  (∃ e, updateItem id u data w = (inl e, w)) ∨
  (∃ i w', updateItem id u data w = (inr (Some i), w')).
Proof.
  unfold updateItem.
  repeat (case_bool_decide; [right; left; by eexists|]).
  destruct (itemSetValues data) as [e|v]; [right; left; by eexists|].
  case_bool_decide as Hnil; [by left|]. right.
  repeat (case_bool_decide; [left; by eexists|]). right.
  destruct (_ <$> filter _ _) as [|x l]; [done|]. by eexists _, _.
Qed.

Ltac answer :=
  eexists; split; [reflexivity|]; split;
    [unfold statuses; set_solver | by intros [?|?]].

(** X21. Every request is answered, with one of the statuses 200, 201,
    204, 400, 404 and 500; and a request that is answered 400 or 404 has
    changed nothing. *)
Theorem rejected_requests_change_nothing (isUrl : string → bool) (r : Request) (w : World) :
  ∃ resp, (run (handle isUrl r) w).1 = inr resp ∧ status resp ∈ statuses ∧
          (status resp = 400 ∨ status resp = 404 → (run (handle isUrl r) w).2 = w).
Proof.
  destruct r as [u|u|u id|token|u body|u id body|u id|u id body|u id body
                |u id|u id|u id]; cbn [handle].
  - unfold get_auth_user. rewrite run_try_catch, run_bind, run_select.
    destruct (getUser u (db w)); answer.
  - unfold get_wishlists. rewrite run_try_catch, run_bind, run_select.
    destruct (getWishlists u (db w)); [answer|]. rewrite run_bind, run_allWithCounts.
    answer.
  - unfold get_wishlist. rewrite run_try_catch.
    destruct (parseInt id) as [n|]; [|answer].
    rewrite run_bind, run_select. destruct (getWishlist _ _ _) as [e|[x|]]; answer.
  - unfold get_shared_wishlist. rewrite run_try_catch, run_bind, run_select.
    destruct (getWishlistByShareToken _ _) as [e|[x|]]; answer.
  - unfold post_wishlist. rewrite run_try_catch.
    destruct (insertWishlistSchema body) as [issues|data]; [answer|].
    rewrite run_bind, run_await.
    destruct (createWishlist _ w) as [[e|x] w']; answer.
  - unfold patch_wishlist. rewrite run_try_catch.
    destruct (parseInt id) as [n|]; [|answer].
    destruct (insertWishlistSchema_partial body) as [issues|data]; [answer|].
    rewrite run_bind, run_await.
    destruct (updateWishlist_cases n u (partialWishlistOf data) w)
      as [->|[[e ->]|(x & w' & ->)]]; answer.
  - unfold delete_wishlist. rewrite run_try_catch.
    destruct (parseInt id) as [n|]; [|answer].
    rewrite run_bind, run_await.
    destruct (deleteWishlist n u w) as [[e|[|]] w'] eqn:E; [answer|answer|].
    rewrite (deleteWishlist_false _ _ _ _ E). answer.
  - unfold post_item. rewrite run_try_catch.
    destruct (parseInt id) as [n|]; [|answer].
    rewrite run_bind, run_select. destruct (getWishlist _ _ _) as [e|[x|]]; [answer| |answer].
    destruct (insertItemSchema isUrl body) as [issues|data]; [answer|].
    rewrite run_bind, run_await.
    destruct (createItem _ w) as [[e|x'] w']; answer.
  - unfold patch_item. rewrite run_try_catch.
    destruct (parseInt id) as [n|]; [|answer].
    destruct (insertItemSchema_partial isUrl body) as [issues|data]; [answer|].
    rewrite run_bind, run_await.
    destruct (updateItem_cases n u (partialItemOf data) w)
      as [->|[[e ->]|(x & w' & ->)]]; answer.
  - unfold delete_item. rewrite run_try_catch.
    destruct (parseInt id) as [n|]; [|answer].
    rewrite run_bind, run_await.
    destruct (deleteItem n u w) as [[e|[|]] w'] eqn:E; [answer|answer|].
    rewrite (deleteItem_false _ _ _ _ E). answer.
  - unfold post_claim. rewrite run_try_catch.
    destruct (parseInt id) as [n|]; [|answer].
    rewrite run_bind, run_select. destruct (getItem n (db w)) as [e|[x|]]; [answer| |answer].
    rewrite run_bind, run_select. destruct (getClaim n (db w)) as [e|[c|]]; [answer|answer|].
    rewrite run_bind, run_query.
    match goal with |- context [if ?b then _ else _] => destruct b end; [answer|].
    rewrite run_bind, run_await.
    destruct (createClaim _ w) as [[e|x'] w']; answer.
  - unfold delete_claim. rewrite run_try_catch.
    destruct (parseInt id) as [n|]; [|answer].
    rewrite run_bind, run_await.
    destruct (deleteClaim n u w) as [[e|[|]] w'] eqn:E; [answer|answer|].
    rewrite (deleteClaim_false _ _ _ _ E). answer.
Qed.

(** * The further properties on the running example *)

Lemma example_later_steps : rtc (sys_step Example.anyUrl) Example.served Scenario.later.
Proof.
  sys_go ltac:(apply (sys_request _ (DeleteClaim "alice" "1"))).
  sys_go ltac:(eapply (sys_statement _ 3); reflexivity).
  apply rtc_refl.
Qed.

(** alice is still signed in after she has taken her claim back. *)
Lemma signed_in_stays_witness : signedIn "alice" (db (world Scenario.later)).
Proof.
  refine (signed_in_stays Example.anyUrl "alice" Example.served Scenario.later
            example_served_reachable example_later_steps _).
  by_compute.
Defined.

(** alice creates the wishlist "Christmas" and opens its share link. *)
Lemma new_wishlist_is_found_witness :
  let row := newWishlist "alice" Scenario.christmas Scenario.fresh in
  let w' := withNewWishlist "alice" Scenario.christmas Scenario.fresh in
  run (post_wishlist "alice" (Example.body [("name", JString "Christmas")])) Scenario.fresh =
    (inr (mkResponse 201 (WishlistJson row)), w') ∧
  run (get_shared_wishlist "a81d") w' =
    (inr (mkResponse 200 (WishlistWithItemsJson row [])), w') ∧
  run (get_wishlist "alice" "2") w' =
    (inr (mkResponse 200 (WishlistWithItemsJson row [])), w').
Proof.
  assert (insertWishlistSchema (Example.body [("name", JString "Christmas")]) =
            inr Scenario.christmas) as Hbody by (vm_compute; reflexivity).
  assert (signedIn "alice" (db Scenario.fresh)) as Hin by by_compute.
  assert (text (entropy Scenario.fresh (draws Scenario.fresh))) as Htext by by_compute.
  assert (strlen (entropy Scenario.fresh (draws Scenario.fresh)) ≤ 64) as Hlen by by_compute.
  assert (entropy Scenario.fresh (draws Scenario.fresh) ∉ shareTokens (db Scenario.fresh))
    as Hfresh by by_compute.
  assert (wishlists_id_seq (db Scenario.fresh) ≤ 2147483647) as Hseq by (cbn; lia).
  pose proof (new_wishlist_is_found "alice" _ Scenario.christmas Scenario.fresh
                Hbody example_store_ok Hin) as H.
  cbv zeta in H.
  destruct H as (Hpost & Hshared & Hid & _);
    [by_compute | exact I | exact Htext | exact Hlen | exact Hfresh | exact Hseq |].
  split; [exact Hpost|]. split; [exact Hshared | exact Hid].
Defined.

(** alice tries to delete the wishlist of [owner], to rename it and to add
    an item to it. *)
Lemma not_owner_gets_404_witness :
  run (delete_wishlist "alice" "1") Example.start =
    (inr (NotFound "Wishlist not found"), Example.start) ∧
  run (patch_wishlist "alice" "1" (Example.body [("name", JString "Fortieth")]))
      Example.start =
    (inr (NotFound "Wishlist not found"), Example.start) ∧
  run (post_item Example.anyUrl "alice" "1" (Example.body [("name", JString "Socks")]))
      Example.start =
    (inr (NotFound "Wishlist not found"), Example.start).
Proof.
  assert (int4 1) as H4 by (unfold int4; lia).
  assert (text "alice") as Ht by by_compute.
  assert (∀ r, r ∈ wishlists (db Example.start) → Wishlist.id r = 1 →
               Wishlist.userId r ≠ "alice") as Hnot.
  { intros r ->%list_elem_of_singleton _. discriminate. }
  split; [|split].
  - exact (proj1 (proj1 (not_owner_gets_404 Example.anyUrl "alice" "1" 1 None Example.start
                           eq_refl H4 Ht) Hnot)).
  - exact (proj1 (proj2 (proj1 (not_owner_gets_404 Example.anyUrl "alice" "1" 1
                           (Example.body [("name", JString "Fortieth")]) Example.start
                           eq_refl H4 Ht) Hnot)) Scenario.rename eq_refl).
  - refine (proj2 (proj2 (proj1 (not_owner_gets_404 Example.anyUrl "alice" "1" 1
                           (Example.body [("name", JString "Socks")]) Example.start
                           eq_refl H4 Ht) Hnot)) _).
    discriminate.
Defined.

(** The owner deletes the wishlist on which alice has a claim. *)
Lemma others_are_untouched_witness :
  untouched "owner" (db Example.claimed)
    (db (run (handle Example.anyUrl (DeleteWishlist "owner" "1")) Example.claimed).2).
Proof.
  refine (others_are_untouched Example.anyUrl (DeleteWishlist "owner" "1") "owner"
            Example.claimed eq_refl _).
  discriminate.
Defined.


Lemma new_item_is_listed_witness :
  let w' := (run (post_item Example.anyUrl "owner" "1"
                    (Example.body [("name", JString "Socks")])) Example.start).2 in
  itemCount 1 (db w') = itemCount 1 (db Example.start) + 1 ∧
  claimedCount 1 (db w') = claimedCount 1 (db Example.start).
Proof.
  assert ("owner" ≠ "") as Hu by discriminate.
  pose proof (new_item_is_listed Example.anyUrl "owner" "1" 1
                (Example.body [("name", JString "Socks")])
                (newItem 1 Scenario.socks Example.start) Example.start
                (withNewItem 1 Scenario.socks Example.start)
                eq_refl Hu example_store_ok) as H.
  cbv zeta in H.
  destruct H as (_ & _ & wishlist & before & after & shared & _ & _ & _ & _ & _ &
                 Hcount & Hclaimed); [vm_compute; reflexivity|].
  split; [exact Hcount | exact Hclaimed].
Defined.

(** The view of "Birthday" while alice has the headphones. *)
Lemma views_show_each_item_once_witness :
  formatItem <$> itemsWithClaims 1 (db Example.claimed) ≡ₚ [Scenario.claimedCard] ∧
  ∃ shared owned,
    run (get_shared_wishlist "5f2c") Example.claimed =
      (inr (mkResponse 200 (WishlistWithItemsJson Example.birthday shared)),
       Example.claimed) ∧
    run (get_wishlist "owner" (toString 1)) Example.claimed =
      (inr (mkResponse 200 (WishlistWithItemsJson Example.birthday owned)),
       Example.claimed) ∧
    shared ≡ₚ owned.
Proof.
  destruct (views_show_each_item_once 1 (db Example.claimed) example_claimed_ok)
    as (Hviews & _ & _ & Hshared).
  split; [exact Hviews|].
  destruct (Hshared Example.birthday Example.claimed eq_refl) as
    (shared & owned & H1 & H2 & H3 & _); [by apply list_elem_of_singleton|reflexivity|].
  by exists shared, owned.
Defined.

Lemma page_counts_agree_witness :
  ∃ views,
    run (get_wishlist "owner" (toString 1)) Example.claimed =
      (inr (mkResponse 200 (WishlistWithItemsJson Example.birthday views)), Example.claimed) ∧
    WishlistPage.totalCount views = 1 ∧
    WishlistPage.claimedCount views = 1 ∧
    0 ≤ 1 ≤ 1.
Proof.
  refine (page_counts_agree "owner" Example.claimed
            (WishlistWithCounts.mk Example.birthday 1 1) example_claimed_ok _).
  exists [WishlistWithCounts.mk Example.birthday 1 1].
  split; [vm_compute; reflexivity | by apply list_elem_of_singleton].
Defined.


(** The owner renames the wishlist, and changes the price of the
    headphones; a price of 101 digits is refused. *)
Lemma edit_wishlist_is_saved_witness :
  let w' := (run (patch_wishlist "owner" "1" (Example.body [("name", JString "Fortieth")]))
               Example.start).2 in
  run (patch_wishlist "owner" "1" (Example.body [("name", JString "Fortieth")]))
      Example.start =
    (inr (mkResponse 200
            (WishlistJson (editedWishlist Scenario.rename 100 Example.birthday))), w') ∧
  getWishlistByShareToken "5f2c" (db w') =
    inr (Some (editedWishlist Scenario.rename 100 Example.birthday)).
Proof.
  assert (Example.birthday ∈ wishlists (db Example.start)) as Hr
    by (by apply list_elem_of_singleton).
  assert (insertWishlistSchema_partial (Example.body [("name", JString "Fortieth")]) =
            inr Scenario.rename) as Hbody by (vm_compute; reflexivity).
  pose proof (edit_wishlist_is_saved "owner" "1" _ Scenario.rename Example.birthday
                Example.start example_store_ok Hr eq_refl eq_refl Hbody)
    as H.
  cbv zeta in H. destruct H as [Hsaved _].
  destruct Hsaved as (Hrun & _ & Htoken); [by_compute|].
  split; [exact Hrun | exact Htoken].
Defined.

Lemma edit_item_is_saved_witness :
  let w' := (run (patch_item Example.anyUrl "owner" "1"
                    (Example.body [("price", JString "$89.99")])) Example.start).2 in
  run (patch_item Example.anyUrl "owner" "1" (Example.body [("price", JString "$89.99")]))
      Example.start =
    (inr (mkResponse 200 (ItemJson (editedItem Scenario.reprice 100 Example.headphones))),
     w') ∧
  getItem 1 (db w') = inr (Some (editedItem Scenario.reprice 100 Example.headphones)) ∧
  run (patch_item Example.anyUrl "owner" "1"
         (Example.body [("price", JString Scenario.tooLong)])) Example.start =
    (inr (StoreFailure "Failed to update item"), Example.start).
Proof.
  assert (Example.headphones ∈ items (db Example.start)) as Hi
    by (by apply list_elem_of_singleton).
  assert (Item.wishlistId Example.headphones ∈ ownedWishlistIds "owner" (db Example.start))
    as Hown by by_compute.
  split; [|split].
  1,2: assert (insertItemSchema_partial Example.anyUrl
                 (Example.body [("price", JString "$89.99")]) = inr Scenario.reprice)
         as Hbody by (vm_compute; reflexivity);
       pose proof (edit_item_is_saved Example.anyUrl "owner" "1" _ Scenario.reprice
                     Example.headphones Example.start example_store_ok
                     Hi Hown eq_refl Hbody) as H;
       cbv zeta in H; destruct H as [Hsaved _];
       destruct Hsaved as (Hrun & _ & Hget); [by_compute|by_compute|].
  - exact Hrun.
  - exact Hget.
  - assert (insertItemSchema_partial Example.anyUrl
              (Example.body [("price", JString Scenario.tooLong)]) =
              inr (PartialItemInput.mk None None None (Some Scenario.tooLong) None))
      as Hbody by (vm_compute; reflexivity).
    pose proof (edit_item_is_saved Example.anyUrl "owner" "1" _ _
                  Example.headphones Example.start example_store_ok
                  Hi Hown eq_refl Hbody) as H.
    cbv zeta in H. destruct H as [_ Hrefused]. apply Hrefused.
    intros [_ Hs]. revert Hs. apply (bool_decide_unpack _). vm_compute. exact I.
Defined.

(** The owner opens the edit dialog of the headphones, which have no url,
    and saves it as it is: the url is now the empty string. *)
Lemma unchanged_edit_writes_empty_strings_witness :
  ∃ i' w',
    run (patch_item Example.anyUrl "owner" (toString 1)
           (itemBody (editItemDefaults Example.headphones))) Example.start =
      (inr (mkResponse 200 (ItemJson i')), w') ∧
    getItem 1 (db w') = inr (Some i') ∧
    Item.url Example.headphones = None ∧ Item.url i' = Some "".
Proof.
  assert (Example.headphones ∈ items (db Example.start)) as Hi
    by (by apply list_elem_of_singleton).
  assert (Item.wishlistId Example.headphones ∈ ownedWishlistIds "owner" (db Example.start))
    as Hown by by_compute.
  assert (insertItemSchema Example.anyUrl (itemBody (editItemDefaults Example.headphones)) =
            inr (editItemDefaults Example.headphones)) as Hform by (vm_compute; reflexivity).
  destruct (unchanged_edit_writes_empty_strings Example.anyUrl "owner" Example.start
              example_store_ok (db_ok_lengths _ example_store_ok)) as [Hitem _].
  destruct (Hitem Example.headphones _ Hi Hown Hform)
    as (i' & w' & Hrun & Hget & _ & _ & Hurl & _).
  exists i', w'. split; [exact Hrun|]. split; [exact Hget|]. split; [reflexivity|exact Hurl].
Defined.


(** The owner deletes "Birthday", or the headphones, while alice has her
    claim. *)
Lemma deleted_wishlist_is_gone_witness :
  let w' := (run (delete_wishlist "owner" "1") Example.claimed).2 in
  (run (delete_wishlist "owner" "1") Example.claimed).1 = inr NoContent ∧
  run (get_shared_wishlist "5f2c") w' = (inr (NotFound "Wishlist not found"), w') ∧
  run (get_wishlist "owner" "1") w' = (inr (NotFound "Wishlist not found"), w') ∧
  run (post_claim "bob" "1") w' = (inr (NotFound "Item not found"), w').
Proof.
  assert (Example.birthday ∈ wishlists (db Example.claimed)) as Hr
    by (by apply list_elem_of_singleton).
  assert (Example.headphones ∈ items (db Example.claimed)) as Hi
    by (by apply list_elem_of_singleton).
  pose proof (deleted_wishlist_is_gone "owner" "1" Example.birthday Example.claimed
                example_claimed_ok Hr eq_refl eq_refl) as H.
  cbv zeta in H. destruct H as (Hdel & Hshared & Hid & Hclaim & _).
  split; [exact Hdel|]. split; [exact Hshared|]. split; [exact (Hid "owner")|].
  exact (Hclaim "bob" "1" Example.headphones Hi eq_refl eq_refl).
Defined.

Lemma deleted_item_is_gone_witness :
  let w' := (run (delete_item "owner" "1") Example.claimed).2 in
  (run (delete_item "owner" "1") Example.claimed).1 = inr NoContent ∧
  run (post_claim "bob" "1") w' = (inr (NotFound "Item not found"), w') ∧
  wishlists (db w') = [Example.birthday].
Proof.
  assert (Example.headphones ∈ items (db Example.claimed)) as Hi
    by (by apply list_elem_of_singleton).
  assert (Item.wishlistId Example.headphones ∈ ownedWishlistIds "owner" (db Example.claimed))
    as Hown by by_compute.
  pose proof (deleted_item_is_gone "owner" "1" Example.headphones Example.claimed
                example_claimed_ok Hi Hown eq_refl) as H.
  cbv zeta in H. destruct H as (Hdel & Hclaim & _ & Hw & _).
  split; [exact Hdel|]. split; [exact (Hclaim "bob") | exact Hw].
Defined.
